(** * Sign-in sheet reconciliation: [textract_to_ddb.py]

    A shallow embedding of the table reconstruction ([_text_from],
    [parse_first_table]) and of the identity reconciliation ([sim],
    [find_best_match], [process]) of [src/textract_to_ddb.py], together
    with the part of Python's standard library they rely on
    ([str.strip], [str.lower], [str.replace], [in] on strings, insertion
    ordered [dict]s and [difflib.SequenceMatcher.ratio]).

    Modelling conventions.
    - Python [str] values are modelled by [string]: the model covers text
      whose characters are ASCII.
    - Python [int] values are [Z]; list positions are [nat].
    - Python [float] values are modelled by exact rationals ([Q]); a
      similarity [2.0 * matches / length] is the rational [2*matches/length].
      IEEE division is correctly rounded and rounding is monotone, so the
      comparisons of the program against [0.5], [0.90] and between two
      similarities agree with the exact ones for every pair of strings whose
      lengths stay below [2^26].
    - [dict]s are association lists in insertion order; assigning to an
      existing key keeps its position.
    - Console output is not modelled. *)

From Stdlib Require Import ZArith QArith Qround List String Ascii Bool Arith Lia Lqa.
From Stdlib Require Import DecimalString.
Import ListNotations.

Local Close Scope Q_scope.
Local Open Scope nat_scope.
Local Open Scope string_scope.

(** ** Python strings *)

Module PyStr.

(** [str.isspace] on one ASCII character: TAB, LF, VT, FF, CR, the four
    separators FS, GS, RS, US and the space. *)
Definition isspace (c : ascii) : bool :=
  let n := nat_of_ascii c in
  ((9 <=? n)%nat && (n <=? 13)%nat) || ((28 <=? n)%nat && (n <=? 32)%nat).

Fixpoint lstrip (s : string) : string :=
  match s with
  | EmptyString => EmptyString
  | String c s' => if isspace c then lstrip s' else s
  end.

Fixpoint rstrip (s : string) : string :=
  match s with
  | EmptyString => EmptyString
  | String c s' =>
      match rstrip s' with
      | EmptyString => if isspace c then EmptyString else String c EmptyString
      | r => String c r
      end
  end.

(** [s.strip()] *)
Definition strip (s : string) : string := rstrip (lstrip s).

Definition lower_ascii (c : ascii) : ascii :=
  let n := nat_of_ascii c in
  if ((65 <=? n)%nat && (n <=? 90)%nat) then ascii_of_nat (n + 32) else c.

(** [s.lower()] *)
Fixpoint lower (s : string) : string :=
  match s with
  | EmptyString => EmptyString
  | String c s' => String (lower_ascii c) (lower s')
  end.

(** [needle in hay] *)
Fixpoint contains (needle hay : string) : bool :=
  String.prefix needle hay ||
  match hay with
  | EmptyString => false
  | String _ hay' => contains needle hay'
  end.

(** The scan of [s.replace(old, new)] for a non-empty [old]: [skip]
    counts the characters of a matched occurrence still to be dropped. *)
Fixpoint replace_scan (old new : string) (skip : nat) (s : string) : string :=
  match s with
  | EmptyString => EmptyString
  | String c s' =>
      match skip with
      | S k => replace_scan old new k s'
      | O =>
          if String.prefix old s
          then new ++ replace_scan old new (String.length old - 1) s'
          else String c (replace_scan old new 0 s')
      end
  end.

Fixpoint intersperse (new s : string) : string :=
  match s with
  | EmptyString => new
  | String c s' => new ++ String c (intersperse new s')
  end.

(** [s.replace(old, new)]: every non-overlapping occurrence, left to
    right; an empty [old] matches before every character and at the end. *)
Definition replace (old new s : string) : string :=
  match old with
  | EmptyString => intersperse new s
  | _ => replace_scan old new 0 s
  end.

(** [sep.join(l)] *)
Fixpoint join (sep : string) (l : list string) : string :=
  match l with
  | [] => EmptyString
  | [x] => x
  | x :: l' => x ++ sep ++ join sep l'
  end.

(** [str(n)] for an [int] *)
Definition str_of_int (n : Z) : string := NilZero.string_of_int (Z.to_int n).

(** truth value of a string: [bool(s)] *)
Definition truthy (s : string) : bool :=
  match s with EmptyString => false | _ => true end.

(** [x or d] for an optional string [x] ([None] and [""] are falsy). *)
Definition or_default (x : option string) (d : string) : string :=
  match x with
  | Some s => if truthy s then s else d
  | None => d
  end.

End PyStr.

(** ** Insertion-ordered dictionaries *)

Module Dict.
Section Dict.
Context {K V : Type} (eqb : K -> K -> bool).

Definition t := list (K * V).

Fixpoint get (k : K) (d : t) : option V :=
  match d with
  | [] => None
  | (k', v) :: d' => if eqb k k' then Some v else get k d'
  end.

(** [d[k] = v]: an existing key keeps its position. *)
Fixpoint set (k : K) (v : V) (d : t) : t :=
  match d with
  | [] => [(k, v)]
  | (k', v') :: d' => if eqb k k' then (k', v) :: d' else (k', v') :: set k v d'
  end.

Definition mem (k : K) (d : t) : bool :=
  match get k d with Some _ => true | None => false end.

Definition keys (d : t) : list K := map fst d.
Definition values (d : t) : list V := map snd d.
End Dict.
End Dict.

Definition pair_eqb (p q : Z * Z) : bool :=
  (fst p =? fst q)%Z && (snd p =? snd q)%Z.

(** [range(lo, hi)] *)
Definition range (lo hi : Z) : list Z :=
  map (fun i => (lo + Z.of_nat i)%Z) (seq 0 (Z.to_nat (hi - lo))).

(** ** Textract blocks *)

Record Relationship := {
  rel_Type : option string;
  rel_Ids : list string
}.

(** A block of the Textract response; an absent key is [None], an absent
    list is [[]] (the program reads both with [get(key, [])]). *)
Record Block := {
  Id : option string;
  BlockType : option string;
  Relationships : list Relationship;
  RowIndex : option Z;
  ColumnIndex : option Z;
  Text : option string;
  SelectionStatus : option string
}.

Definition opt_string_eqb (x : option string) (s : string) : bool :=
  match x with Some y => String.eqb y s | None => false end.

Definition idmap_t := Dict.t (K:=string) (V:=Block).

(** [{blk.get("Id"): blk for blk in blocks if "Id" in blk}] *)
Definition build_idmap (blocks : list Block) : idmap_t :=
  fold_left
    (fun m blk => match Id blk with
                  | Some i => Dict.set String.eqb i blk m
                  | None => m
                  end)
    blocks [].

Definition _text_from (block : Block) (idmap : idmap_t) : string :=
  let out :=
    fold_left
      (fun out rel =>
         if opt_string_eqb (rel_Type rel) "CHILD" then
           fold_left
             (fun out cid =>
                match Dict.get String.eqb cid idmap with
                | None => out
                | Some wb =>
                    if opt_string_eqb (BlockType wb) "WORD"
                    then (out ++ [match Text wb with Some t => t | None => "" end])%list
                    else if opt_string_eqb (BlockType wb) "SELECTION_ELEMENT"
                            && opt_string_eqb (SelectionStatus wb) "SELECTED"
                    then (out ++ ["[X]"])%list
                    else out
                end)
             (rel_Ids rel) out
         else out)
      (Relationships block) ([] : list string)
  in
  PyStr.strip (PyStr.join " " (filter PyStr.truthy out)).

(** ** Header classification (lines 51-57 of [parse_first_table]) *)

Definition cells_t := Dict.t (K:=Z * Z) (V:=string).

(** [(cells.get((1, c)) or f"Col{c}").strip().lower()] *)
Definition header_raw (cells : cells_t) (c : Z) : string :=
  PyStr.lower
    (PyStr.strip
       (PyStr.or_default (Dict.get pair_eqb (1%Z, c) cells)
                         ("Col" ++ PyStr.str_of_int c))).

(** The [if]/[elif] chain on [h_raw]. *)
Definition classify_header (h_raw : string) : string :=
  if PyStr.contains "name" h_raw then "Name"
  else if PyStr.contains "employee" h_raw && PyStr.contains "id" h_raw then "EmployeeID"
  else if PyStr.contains "room" h_raw then "RoomNumber"
  else if PyStr.contains "wake" h_raw then "Wake"
  else if PyStr.contains "sign" h_raw then "Signature"
  else PyStr.replace " " "" h_raw.

Definition build_header (cells : cells_t) (cmax : Z) : list string :=
  fold_left (fun header c => (header ++ [classify_header (header_raw cells c)])%list)
            (range 1 (cmax + 1)) [].

(** ** Table reconstruction *)

Definition row_t := Dict.t (K:=string) (V:=string).

(** [enumerate(l, start)] *)
Fixpoint enumerate {A : Type} (start : Z) (l : list A) : list (Z * A) :=
  match l with
  | [] => []
  | x :: l' => (start, x) :: enumerate (start + 1)%Z l'
  end.

Definition opt_Z_default (x : option Z) (d : Z) : Z :=
  match x with Some z => z | None => d end.

(** The state of the loop over the table's cells: the [cells] dictionary
    and the running maxima [rmax], [cmax]. *)
Record grid := {
  g_cells : cells_t;
  g_rmax : Z;
  g_cmax : Z
}.

(** Lines 36-46: the walk over the [CHILD] relationships of the table. *)
Definition collect_cells (table_blk : Block) (idmap : idmap_t) : grid :=
  fold_left
    (fun g rel =>
       if opt_string_eqb (rel_Type rel) "CHILD" then
         fold_left
           (fun g cid =>
              match Dict.get String.eqb cid idmap with
              | None => g
              | Some cell =>
                  if negb (opt_string_eqb (BlockType cell) "CELL") then g
                  else
                    let r := opt_Z_default (RowIndex cell) 0 in
                    let c := opt_Z_default (ColumnIndex cell) 0 in
                    {| g_cells := Dict.set pair_eqb (r, c) (_text_from cell idmap) (g_cells g);
                       g_rmax := Z.max (g_rmax g) r;
                       g_cmax := Z.max (g_cmax g) c |}
              end)
           (rel_Ids rel) g
       else g)
    (Relationships table_blk)
    {| g_cells := []; g_rmax := 0; g_cmax := 0 |}.

(** [(cells.get((r, ci)) or "").strip()] *)
Definition cell_value (cells : cells_t) (r ci : Z) : string :=
  PyStr.strip (PyStr.or_default (Dict.get pair_eqb (r, ci) cells) "").

(** Lines 62-67: the inner loop of one data row; the state is the pair of
    the [row] dictionary and the [empty] flag. *)
Definition build_row (cells : cells_t) (header : list string) (r : Z) : row_t * bool :=
  fold_left
    (fun (st : row_t * bool) (ck : Z * string) =>
       let '(row, empty) := st in
       let '(ci, key) := ck in
       let val := cell_value cells r ci in
       (Dict.set String.eqb key val row, if PyStr.truthy val then false else empty))
    (enumerate 1 header)
    ([], true).

(** Lines 60-70 *)
Definition data_rows (cells : cells_t) (header : list string) (rmax : Z) : list row_t :=
  fold_left
    (fun out_rows r =>
       let '(row, empty) := build_row cells header r in
       if negb empty then (out_rows ++ [row])%list else out_rows)
    (range 2 (rmax + 1)) [].

(** [next((blk for blk in blocks if blk.get("BlockType") == "TABLE"), None)] *)
Definition first_table (blocks : list Block) : option Block :=
  find (fun blk => opt_string_eqb (BlockType blk) "TABLE") blocks.

Definition parse_first_table (blocks : list Block) : list row_t :=
  let idmap := build_idmap blocks in
  match first_table blocks with
  | None => []
  | Some table_blk =>
      let g := collect_cells table_blk idmap in
      let header := build_header (g_cells g) (g_cmax g) in
      data_rows (g_cells g) header (g_rmax g)
  end.

(** *** A small sheet used in the examples *)

Definition word (i t : string) : Block :=
  {| Id := Some i; BlockType := Some "WORD"; Relationships := [];
     RowIndex := None; ColumnIndex := None; Text := Some t; SelectionStatus := None |}.

Definition cell (i : string) (r c : Z) (kids : list string) : Block :=
  {| Id := Some i; BlockType := Some "CELL";
     Relationships := [ {| rel_Type := Some "CHILD"; rel_Ids := kids |} ];
     RowIndex := Some r; ColumnIndex := Some c; Text := None; SelectionStatus := None |}.

Definition table (i : string) (kids : list string) : Block :=
  {| Id := Some i; BlockType := Some "TABLE";
     Relationships := [ {| rel_Type := Some "CHILD"; rel_Ids := kids |} ];
     RowIndex := None; ColumnIndex := None; Text := None; SelectionStatus := None |}.

(** ** [difflib.SequenceMatcher(None, a, b).ratio()]

    The matcher of Python's standard library, as [sim] calls it: no junk
    predicate ([isjunk] is [None], so the junk set [bjunk] is empty) and the
    default [autojunk = True]. *)

Module Difflib.

Definition ascii_eqb : ascii -> ascii -> bool := Ascii.eqb.

(** A match [(i, j, size)]: [a[i:i+size] == b[j:j+size]]. *)
Record Match := { m_a : nat; m_b : nat; m_size : nat }.

Definition b2j_t := Dict.t (K:=ascii) (V:=list nat).
Definition j2len_t := Dict.t (K:=nat) (V:=nat).

(** The first loop of [__chain_b]:
    [indices = b2j.setdefault(elt, []); indices.append(i)]. *)
Fixpoint chain_loop (i : nat) (b : list ascii) (b2j : b2j_t) : b2j_t :=
  match b with
  | [] => b2j
  | elt :: b' =>
      let indices := match Dict.get ascii_eqb elt b2j with
                     | Some l => l
                     | None => []
                     end in
      chain_loop (S i) b' (Dict.set ascii_eqb elt (indices ++ [i])%list b2j)
  end.

(** The purge of popular elements: with [n = len(b) >= 200], every
    element with more than [n // 100 + 1] occurrences leaves [b2j]. *)
Definition purge_popular (n : nat) (b2j : b2j_t) : b2j_t :=
  if (200 <=? n)%nat then
    let ntest := (n / 100 + 1)%nat in
    filter (fun e : ascii * list nat => negb (ntest <? List.length (snd e))%nat) b2j
  else b2j.

Definition chain_b (b : list ascii) : b2j_t :=
  purge_popular (List.length b) (chain_loop 0 b []).

Section Matcher.
Variables a b : list ascii.

Let b2j := chain_b b.

Definition at_a (i : nat) : ascii := nth i a zero.
Definition at_b (j : nat) : ascii := nth j b zero.

(** [self.bjunk.__contains__]: the junk set is empty. *)
Definition isbjunk (c : ascii) : bool := false.

(** [j2len.get(j-1, 0)]: the key [-1] is never present. *)
Definition j2lenget (j2len : j2len_t) (j : nat) : nat :=
  match j with
  | O => O
  | S j' => match Dict.get Nat.eqb j' j2len with Some v => v | None => O end
  end.

(** The inner [for j in b2j.get(a[i], nothing)] loop, with its
    [continue] and [break]. *)
Fixpoint row_loop (j2len : j2len_t) (i blo bhi : nat) (js : list nat)
         (newj2len : j2len_t) (best : Match) : j2len_t * Match :=
  match js with
  | [] => (newj2len, best)
  | j :: js' =>
      if (j <? blo)%nat then row_loop j2len i blo bhi js' newj2len best
      else if (bhi <=? j)%nat then (newj2len, best)
      else
        let k := (j2lenget j2len j + 1)%nat in
        let best' :=
          if (m_size best <? k)%nat
          then {| m_a := i + 1 - k; m_b := j + 1 - k; m_size := k |}
          else best in
        row_loop j2len i blo bhi js' (Dict.set Nat.eqb j k newj2len) best'
  end.

(** The outer [for i in range(alo, ahi)] loop. *)
Definition main_loop (alo ahi blo bhi : nat) : j2len_t * Match :=
  fold_left
    (fun (st : j2len_t * Match) i =>
       let js := match Dict.get ascii_eqb (at_a i) b2j with
                 | Some l => l
                 | None => []
                 end in
       row_loop (fst st) i blo bhi js [] (snd st))
    (seq alo (ahi - alo))
    ([], {| m_a := alo; m_b := blo; m_size := 0 |}).

(** [while besti > alo and bestj > blo and P(b[bestj-1]) and
    a[besti-1] == b[bestj-1]]: at most [besti] iterations. *)
Fixpoint extend_back (P : ascii -> bool) (alo blo : nat) (n : nat) (best : Match) : Match :=
  match n with
  | O => best
  | S n' =>
      if (alo <? m_a best)%nat && (blo <? m_b best)%nat
         && P (at_b (m_b best - 1))
         && ascii_eqb (at_a (m_a best - 1)) (at_b (m_b best - 1))
      then extend_back P alo blo n'
             {| m_a := m_a best - 1; m_b := m_b best - 1; m_size := m_size best + 1 |}
      else best
  end.

(** [while besti+bestsize < ahi and bestj+bestsize < bhi and
    P(b[bestj+bestsize]) and a[besti+bestsize] == b[bestj+bestsize]]:
    at most [ahi] iterations. *)
Fixpoint extend_fwd (P : ascii -> bool) (ahi bhi : nat) (n : nat) (best : Match) : Match :=
  match n with
  | O => best
  | S n' =>
      if (m_a best + m_size best <? ahi)%nat && (m_b best + m_size best <? bhi)%nat
         && P (at_b (m_b best + m_size best))
         && ascii_eqb (at_a (m_a best + m_size best)) (at_b (m_b best + m_size best))
      then extend_fwd P ahi bhi n'
             {| m_a := m_a best; m_b := m_b best; m_size := m_size best + 1 |}
      else best
  end.

Definition find_longest_match (alo ahi blo bhi : nat) : Match :=
  let m0 := snd (main_loop alo ahi blo bhi) in
  let m1 := extend_back (fun c => negb (isbjunk c)) alo blo (m_a m0) m0 in
  let m2 := extend_fwd (fun c => negb (isbjunk c)) ahi bhi ahi m1 in
  let m3 := extend_back isbjunk alo blo (m_a m2) m2 in
  extend_fwd isbjunk ahi bhi ahi m3.

(** The work list of [get_matching_blocks]; the head of [queue] is the
    end of the Python list, where [pop] and [append] operate.  [None]
    is returned when [fuel] runs out. *)
Fixpoint blocks_loop (fuel : nat) (queue : list (nat * nat * nat * nat))
         (matching_blocks : list Match) : option (list Match) :=
  match queue with
  | [] => Some matching_blocks
  | (alo, ahi, blo, bhi) :: queue' =>
      match fuel with
      | O => None
      | S fuel' =>
          let x := find_longest_match alo ahi blo bhi in
          let '(i, j, k) := (m_a x, m_b x, m_size x) in
          if (k =? 0)%nat then blocks_loop fuel' queue' matching_blocks
          else
            let q1 := if (alo <? i)%nat && (blo <? j)%nat
                      then (alo, i, blo, j) :: queue' else queue' in
            let q2 := if (i + k <? ahi)%nat && (j + k <? bhi)%nat
                      then (i + k, ahi, j + k, bhi) :: q1 else q1 in
            blocks_loop fuel' q2 (matching_blocks ++ [x])%list
      end
  end.

(** Tuple order of [matching_blocks.sort()]. *)
Definition match_leb (x y : Match) : bool :=
  (m_a x <? m_a y)%nat
  || ((m_a x =? m_a y)%nat
      && ((m_b x <? m_b y)%nat
          || ((m_b x =? m_b y)%nat && (m_size x <=? m_size y)%nat))).

Fixpoint insert_sorted (x : Match) (l : list Match) : list Match :=
  match l with
  | [] => [x]
  | y :: l' => if match_leb x y then x :: l else y :: insert_sorted x l'
  end.

Definition sort_blocks (l : list Match) : list Match :=
  fold_right insert_sorted [] l.

(** The merge of adjacent blocks: [(i1, j1, k1)] is the pending block. *)
Fixpoint collapse (i1 j1 k1 : nat) (l : list Match) (non_adjacent : list Match)
  : nat * nat * nat * list Match :=
  match l with
  | [] => (i1, j1, k1, non_adjacent)
  | x :: l' =>
      if (i1 + k1 =? m_a x)%nat && (j1 + k1 =? m_b x)%nat
      then collapse i1 j1 (k1 + m_size x) l' non_adjacent
      else
        collapse (m_a x) (m_b x) (m_size x) l'
          (if (k1 =? 0)%nat then non_adjacent
           else non_adjacent ++ [{| m_a := i1; m_b := j1; m_size := k1 |}])%list
  end.

Definition fuel_for (la : nat) : nat := 2 * la + 1.

Definition get_matching_blocks : list Match :=
  let la := List.length a in
  let lb := List.length b in
  match blocks_loop (fuel_for la) [(0, la, 0, lb)] [] with
  | None => []
  | Some matching_blocks =>
      let '(i1, j1, k1, non_adjacent) := collapse 0 0 0 (sort_blocks matching_blocks) [] in
      let non_adjacent :=
        if (k1 =? 0)%nat then non_adjacent
        else (non_adjacent ++ [{| m_a := i1; m_b := j1; m_size := k1 |}])%list in
      (non_adjacent ++ [{| m_a := la; m_b := lb; m_size := 0 |}])%list
  end.

(** [sum(triple[-1] for triple in self.get_matching_blocks())] *)
Definition matches : nat :=
  fold_left (fun s t => s + m_size t) get_matching_blocks 0.

(** [_calculate_ratio(matches, len(a) + len(b))] *)
Definition ratio : Q :=
  let length := (List.length a + List.length b)%nat in
  if (length =? 0)%nat then 1%Q
  else Qmake (2 * Z.of_nat matches) (Pos.of_nat length).
End Matcher.

End Difflib.

(** ** Similarity (lines 79-82) *)

Definition sim (a b : option string) : Q :=
  let a := PyStr.lower (PyStr.strip (PyStr.or_default a "")) in
  let b := PyStr.lower (PyStr.strip (PyStr.or_default b "")) in
  if PyStr.truthy a && PyStr.truthy b
  then Difflib.ratio (list_ascii_of_string a) (list_ascii_of_string b)
  else 0%Q.

(** ** The roster (lines 84-99) *)

Definition item_t := Dict.t (K:=string) (V:=string).
Definition profiles_t := Dict.t (K:=string) (V:=item_t).

Definition get_str (k : string) (d : item_t) (default : string) : string :=
  match Dict.get String.eqb k d with Some v => v | None => default end.

(** [scan] is the outcome of [table.scan]: [None] when it raises, else the
    list under ["Items"]. *)
Definition get_all_employee_profiles (scan : option (list item_t)) : profiles_t :=
  match scan with
  | None => []
  | Some items =>
      fold_left
        (fun profiles item =>
           if opt_string_eqb (Dict.get String.eqb "SK" item) "PROFILE" then
             let emp_id := PyStr.replace "EMP#" "" (get_str "PK" item "") in
             Dict.set String.eqb emp_id item profiles
           else profiles)
        items []
  end.

(** ** Name search (lines 101-117) *)

Definition Qgtb (x y : Q) : bool := negb (Qle_bool x y).
Definition Qgeb (x y : Q) : bool := Qle_bool y x.

Record name_match_t := {
  nm_emp_id : string;
  nm_name : string;
  nm_profile : item_t
}.

Definition find_best_match (textract_name : string) (profiles : profiles_t)
  : option name_match_t * Q :=
  if negb (PyStr.truthy (PyStr.strip textract_name)) then (None, 0%Q)
  else
    fold_left
      (fun (st : option name_match_t * Q) (e : string * item_t) =>
         let '(best_match, best_confidence) := st in
         let '(emp_id, profile) := e in
         let db_name := get_str "Name" profile "" in
         let confidence := sim (Some textract_name) (Some db_name) in
         if Qgtb confidence best_confidence
         then (Some {| nm_emp_id := emp_id; nm_name := db_name; nm_profile := profile |},
               confidence)
         else (best_match, best_confidence))
      profiles
      (None, 0%Q).

(** ** Reconciliation (lines 119-319) *)

Inductive match_type_t := ID | NAME | NONE.

Definition match_type_eqb (x y : match_type_t) : bool :=
  match x, y with
  | ID, ID | NAME, NAME | NONE, NONE => true
  | _, _ => false
  end.

(** [round(x, 3)]: to the nearest multiple of [1/1000], ties to even. *)
Definition round3 (x : Q) : Q :=
  let y := (x * 1000)%Q in
  let f := Qfloor y in
  let r := (y - inject_Z f)%Q in
  let n := if Qgtb r (1 # 2) then (f + 1)%Z
           else if Qgeb r (1 # 2) then (if Z.even f then f else (f + 1)%Z)
           else f in
  Qmake n 1000.

Record validation_t := {
  v_valid : bool;
  v_confidence : Q;
  v_matchedName : string;
  v_matchType : match_type_t
}.

(** The [item] dictionary of lines 195-211. *)
Record signin_item := {
  i_PK : string;
  i_SK : string;
  i_EmployeeID : string;
  i_Name : string;
  i_SheetDate : string;
  i_RoomNumber : string;
  i_Wake : string;
  i_SignaturePresent : bool;
  i_SheetId : string;
  i_Validation : validation_t
}.

(** One entry of [processed_records]. *)
Record record_t := {
  rec_row : Z;
  rec_textract_name : string;
  rec_emp_id : string;
  rec_matched_emp_id : string;
  rec_matched_name : string;
  rec_confidence : Q;
  rec_match_type : match_type_t;
  rec_valid : bool
}.

(** [bool(d)] for a dictionary and for an optional dictionary. *)
Definition dict_truthy {K V : Type} (d : list (K * V)) : bool :=
  match d with [] => false | _ => true end.

Definition opt_dict_truthy {K V : Type} (d : option (list (K * V))) : bool :=
  match d with Some d' => dict_truthy d' | None => false end.

(** [s.add(x)] on a set kept as a duplicate-free list. *)
Definition set_add (x : string) (s : list string) : list string :=
  if existsb (String.eqb x) s then s else (s ++ [x])%list.

(** The accumulators of the loop over the rows. *)
Record state_t := {
  matched_employees : list string;
  processed_records : list record_t;
  extra_names : list string;
  items : list signin_item
}.

(** [textract_name] and [emp_id] of a row (lines 146-147). *)
Definition row_name (r : row_t) : string :=
  PyStr.strip (PyStr.or_default (Dict.get String.eqb "Name" r) "").

Definition row_emp_id (r : row_t) : string :=
  PyStr.strip (PyStr.replace " " "" (PyStr.or_default (Dict.get String.eqb "EmployeeID" r) "")).

(** Lines 152-158: the direct identifier path. *)
Definition direct_path (textract_name emp_id : string) (all_profiles : profiles_t)
  : option item_t * Q :=
  if PyStr.truthy emp_id && Dict.mem String.eqb emp_id all_profiles then
    match Dict.get String.eqb emp_id all_profiles with
    | Some direct_match =>
        (Some direct_match,
         sim (Some textract_name) (Some (get_str "Name" direct_match "")))
    | None => (None, 0%Q)
    end
  else (None, 0%Q).

(** The outcome of the choice of lines 163-185. *)
Record choice_t := {
  matched_profile : option item_t;
  confidence : Q;
  match_type : match_type_t;
  matched_emp_id : string;
  extra : list string
}.

(** Lines 163-185; [None] is the [TypeError] of subscripting a [name_match]
    that is [None]. *)
Definition choose (textract_name emp_id : string)
           (direct_match : option item_t) (direct_confidence : Q)
           (name_match : option name_match_t) (name_confidence : Q)
           (extra_names : list string) : option choice_t :=
  if Qgeb direct_confidence name_confidence && Qgtb direct_confidence (1 # 2) then
    Some {| matched_profile := direct_match;
            confidence := direct_confidence;
            match_type := ID;
            matched_emp_id := emp_id;
            extra := extra_names |}
  else if Qgtb name_confidence (1 # 2) then
    match name_match with
    | Some nm =>
        Some {| matched_profile := Some (nm_profile nm);
                confidence := name_confidence;
                match_type := NAME;
                matched_emp_id := nm_emp_id nm;
                extra := extra_names |}
    | None => None
    end
  else
    Some {| matched_profile := None;
            confidence := 0%Q;
            match_type := NONE;
            matched_emp_id := if PyStr.truthy emp_id then emp_id else "UNKNOWN";
            extra := if PyStr.truthy textract_name
                     then (extra_names ++ [textract_name])%list else extra_names |}.

(** Lines 146-185 for one row: both paths, then the choice. *)
Definition match_row (all_profiles : profiles_t) (r : row_t) (extra_names : list string)
  : option choice_t :=
  let textract_name := row_name r in
  let emp_id := row_emp_id r in
  let '(direct_match, direct_confidence) := direct_path textract_name emp_id all_profiles in
  let '(name_match, name_confidence) := find_best_match textract_name all_profiles in
  choose textract_name emp_id direct_match direct_confidence
         name_match name_confidence extra_names.

(** Line 188 *)
Definition valid_of (matched_profile : option item_t) (confidence : Q) : bool :=
  opt_dict_truthy matched_profile && Qgeb confidence (9 # 10).

(** [matched_profile.get("Name", "") if matched_profile else ""] *)
Definition matched_name_of (matched_profile : option item_t) : string :=
  match matched_profile with
  | Some p => if dict_truthy p then get_str "Name" p "" else ""
  | None => ""
  end.

(** The [item] of lines 195-211. *)
Definition item_of (sheet_date sheet_id : string) (r : row_t) (ch : choice_t) : signin_item :=
  {| i_PK := "EMP#" ++ matched_emp_id ch;
     i_SK := "SIGNIN#" ++ sheet_date;
     i_EmployeeID := matched_emp_id ch;
     i_Name := row_name r;
     i_SheetDate := sheet_date;
     i_RoomNumber := get_str "RoomNumber" r "";
     i_Wake := get_str "Wake" r "";
     i_SignaturePresent := PyStr.truthy (get_str "Signature" r "");
     i_SheetId := sheet_id;
     i_Validation :=
       {| v_valid := valid_of (matched_profile ch) (confidence ch);
          v_confidence := round3 (confidence ch);
          v_matchedName := matched_name_of (matched_profile ch);
          v_matchType := match_type ch |} |}.

(** The entry of [processed_records] of lines 217-226. *)
Definition record_of (i : Z) (r : row_t) (ch : choice_t) : record_t :=
  {| rec_row := i;
     rec_textract_name := row_name r;
     rec_emp_id := row_emp_id r;
     rec_matched_emp_id := matched_emp_id ch;
     rec_matched_name := matched_name_of (matched_profile ch);
     rec_confidence := confidence ch;
     rec_match_type := match_type ch;
     rec_valid := valid_of (matched_profile ch) (confidence ch) |}.

(** The body of the loop over the rows (lines 145-226). *)
Definition process_row (sheet_date sheet_id : string) (all_profiles : profiles_t)
           (st : state_t) (ir : Z * row_t) : option state_t :=
  let '(i, r) := ir in
  match match_row all_profiles r (extra_names st) with
  | None => None
  | Some ch =>
      Some
        {| matched_employees :=
             if opt_dict_truthy (matched_profile ch)
             then set_add (matched_emp_id ch) (matched_employees st)
             else matched_employees st;
           processed_records := (processed_records st ++ [record_of i r ch])%list;
           extra_names := extra ch;
           items := (items st ++ [item_of sheet_date sheet_id r ch])%list |}
  end.

(** A loop whose body may raise. *)
Fixpoint fold_opt {S A : Type} (f : S -> A -> option S) (l : list A) (s : S) : option S :=
  match l with
  | [] => Some s
  | x :: l' => match f s x with
               | Some s' => fold_opt f l' s'
               | None => None
               end
  end.

(** [x / y] on two [int]s: [None] is [ZeroDivisionError]. *)
Definition py_truediv (x y : Z) : option Q :=
  match y with
  | Z0 => None
  | Zpos p => Some (Qmake x p)
  | Zneg p => Some (Qmake (- x) p)
  end.

Definition count {A : Type} (f : A -> bool) (l : list A) : nat :=
  List.length (filter f l).

Record report_t := {
  rp_state : state_t;
  total_rows : nat;
  valid_matches : nat;
  high_conf_matches : nat;
  id_matches : nat;
  name_matches : nat;
  no_matches : nat;
  unmatched_employees : list string;
  overall_match_pct : Q
}.

Definition init_state : state_t :=
  {| matched_employees := []; processed_records := []; extra_names := []; items := [] |}.

(** Lines 314-315 *)
Definition overall_pct (matched_employees : list string) (all_profiles : profiles_t)
  : option Q :=
  if dict_truthy all_profiles then
    match py_truediv (Z.of_nat (List.length matched_employees))
                     (Z.of_nat (List.length all_profiles)) with
    | Some q => Some (q * 100)%Q
    | None => None
    end
  else Some 0%Q.

(** [process], from the blocks of the Textract response and the outcome of
    the roster scan; [None] is an uncaught exception. *)
Definition process (blocks : list Block) (scan : option (list item_t))
           (sheet_date sheet_id : string) : option report_t :=
  let rows := parse_first_table blocks in
  let all_profiles := get_all_employee_profiles scan in
  match fold_opt (process_row sheet_date sheet_id all_profiles)
                 (enumerate 1 rows) init_state with
  | None => None
  | Some st =>
      let recs := processed_records st in
      match overall_pct (matched_employees st) all_profiles with
      | None => None
      | Some pct =>
          Some
            {| rp_state := st;
               total_rows := List.length rows;
               valid_matches := count rec_valid recs;
               high_conf_matches := count (fun r => Qgeb (rec_confidence r) (8 # 10)) recs;
               id_matches := count (fun r => match_type_eqb (rec_match_type r) ID) recs;
               name_matches := count (fun r => match_type_eqb (rec_match_type r) NAME) recs;
               no_matches := count (fun r => match_type_eqb (rec_match_type r) NONE) recs;
               unmatched_employees :=
                 filter (fun k => negb (existsb (String.eqb k) (matched_employees st)))
                        (Dict.keys all_profiles);
               overall_match_pct := pct |}
      end
  end.

(** ** The arrays of the report (lines 214 and 281-291) *)

Inductive status_t := MATCHED | LOW_CONF | NO_MATCH.

(** Line 214: the status shown for a row. *)
Definition status_of (valid : bool) (confidence : Q) : status_t :=
  if valid then MATCHED
  else if Qgtb confidence 0 then LOW_CONF
  else NO_MATCH.

(** One entry of [matched_employee_details]. *)
Record match_detail := {
  md_textract_id : string;
  md_textract_name : string;
  md_db_id : string;
  md_db_name : string;
  md_match_type : match_type_t;
  md_confidence : Q
}.

(** Lines 281-291: the records kept are those with
    [match_type != "NONE" and confidence > 0]. *)
Definition matched_employee_details (recs : list record_t) : list match_detail :=
  map (fun record =>
         {| md_textract_id := rec_emp_id record;
            md_textract_name := rec_textract_name record;
            md_db_id := rec_matched_emp_id record;
            md_db_name := rec_matched_name record;
            md_match_type := rec_match_type record;
            md_confidence := rec_confidence record |})
      (filter (fun record =>
                 negb (match_type_eqb (rec_match_type record) NONE)
                 && Qgtb (rec_confidence record) 0)
              recs).

(** * Definitions used by the statements and their proofs *)

Definition isupper (c : ascii) : bool :=
  let n := nat_of_ascii c in (65 <=? n)%nat && (n <=? 90)%nat.

Fixpoint no_upper (s : string) : bool :=
  match s with
  | EmptyString => true
  | String c s' => negb (isupper c) && no_upper s'
  end.

Definition isdigit (c : ascii) : bool :=
  let n := nat_of_ascii c in (48 <=? n)%nat && (n <=? 57)%nat.

Fixpoint all_chars (P : ascii -> bool) (s : string) : bool :=
  match s with
  | EmptyString => true
  | String c s' => P c && all_chars P s'
  end.

(** The header as the specification words it: the cell text at row 1, or
    the empty string when the cell is absent. *)
Definition header_raw_spec (cells : cells_t) (c : Z) : string :=
  PyStr.lower
    (PyStr.strip
       (match Dict.get pair_eqb (1%Z, c) cells with Some t => t | None => "" end)).

(** A table whose only cell is the data cell of row 2, column 1. *)
Definition headless_sheet : list Block :=
  [ table "t" ["c21"]; cell "c21" 2 1 ["w"]; word "w" "Bob" ].

(** A data row is blank when the trimmed text of each of its cells, over
    the columns of the header, is empty. *)
Definition row_all_empty (cells : cells_t) (header : list string) (r : Z) : bool :=
  forallb (fun ci => negb (PyStr.truthy (cell_value cells r ci)))
          (range 1 (Z.of_nat (List.length header) + 1)).

(** The similarity of a sheet name to one roster entry, as line 110-111
    computes it. *)
Definition entry_sim (textract_name : string) (e : string * item_t) : Q :=
  sim (Some textract_name) (Some (get_str "Name" (snd e) "")).

(** What the pair [(best_match, best_confidence)] satisfies after the
    entries [seen] of the roster. *)
Definition best_so_far (textract_name : string) (seen : profiles_t)
           (st : option name_match_t * Q) : Prop :=
  match fst st with
  | None => snd st = 0%Q /\ Forall (fun e => (entry_sim textract_name e <= 0)%Q) seen
  | Some m =>
      exists before after,
        seen = (before ++ (nm_emp_id m, nm_profile m) :: after)%list
        /\ nm_name m = get_str "Name" (nm_profile m) ""
        /\ snd st = entry_sim textract_name (nm_emp_id m, nm_profile m)
        /\ (0 < snd st)%Q
        /\ Forall (fun e => (entry_sim textract_name e < snd st)%Q) before
        /\ Forall (fun e => (entry_sim textract_name e <= snd st)%Q) after
  end.

Definition best_step (textract_name : string)
           (st : option name_match_t * Q) (e : string * item_t) : option name_match_t * Q :=
  let '(best_match, best_confidence) := st in
  let '(emp_id, profile) := e in
  let db_name := get_str "Name" profile "" in
  let confidence := sim (Some textract_name) (Some db_name) in
  if Qgtb confidence best_confidence
  then (Some {| nm_emp_id := emp_id; nm_name := db_name; nm_profile := profile |},
        confidence)
  else (best_match, best_confidence).


(** A sheet whose identifier cell holds the two words "0" and "07". *)
Definition spaced_id_sheet : list Block :=
  [ table "t" ["h1"; "h2"; "d1"; "d2"];
    cell "h1" 1 1 ["n"]; cell "h2" 1 2 ["e"; "i"];
    cell "d1" 2 1 ["b"]; cell "d2" 2 2 ["x"; "y"];
    word "n" "Name"; word "e" "Employee"; word "i" "ID";
    word "b" "Bob"; word "x" "0"; word "y" "07" ].

(** The names recorded as extra: those of the unmatched records, when not
    empty, in row order. *)
Definition unmatched_names (recs : list record_t) : list string :=
  map rec_textract_name
      (filter (fun rec => match_type_eqb (rec_match_type rec) NONE
                          && PyStr.truthy (rec_textract_name rec)) recs).

(** The matched identifiers are those of the records that matched. *)
Definition matched_ids_of (recs : list record_t) (x : string) : Prop :=
  Exists (fun rec => rec_match_type rec <> NONE /\ rec_matched_emp_id rec = x) recs.

Definition sum_sizes (l : list Difflib.Match) : nat :=
  list_sum (map Difflib.m_size l).

(** A window of the work list, its cost in iterations and its spans. *)
Definition window_ok (w : nat * nat * nat * nat) : Prop :=
  let '(alo, ahi, blo, bhi) := w in alo <= ahi /\ blo <= bhi.

Definition window_cost (w : nat * nat * nat * nat) : nat :=
  let '(alo, ahi, blo, bhi) := w in 2 * (ahi - alo) + 1.

Definition span_a (w : nat * nat * nat * nat) : nat :=
  let '(alo, ahi, blo, bhi) := w in ahi - alo.

Definition span_b (w : nat * nat * nat * nat) : nat :=
  let '(alo, ahi, blo, bhi) := w in bhi - blo.

(** The positions of [c] in [l], counted from [start], in ascending
    order. *)
Fixpoint pos_from (start : nat) (l : list ascii) (c : ascii) : list nat :=
  match l with
  | [] => []
  | x :: l' =>
      if Difflib.ascii_eqb x c then start :: pos_from (S start) l' c
      else pos_from (S start) l' c
  end.

(** [b2j.get(c, [])] *)
Definition lookup (b : list ascii) (c : ascii) : list nat :=
  match Dict.get Difflib.ascii_eqb c (Difflib.chain_b b) with
  | Some l => l
  | None => []
  end.

(** A match lies in the window [a[alo:ahi]], [b[blo:bhi]]. *)
Definition in_window (alo ahi blo bhi : nat) (m : Difflib.Match) : Prop :=
  alo <= Difflib.m_a m /\ Difflib.m_a m + Difflib.m_size m <= ahi
  /\ blo <= Difflib.m_b m /\ Difflib.m_b m + Difflib.m_size m <= bhi.

(** The lengths kept for the previous row [i - 1] of the window. *)
Definition lens_bounded (alo blo i : nat) (j2len : Difflib.j2len_t) : Prop :=
  forall j, blo <= j ->
            Difflib.j2lenget j2len j + alo <= i
            /\ Difflib.j2lenget j2len j + blo <= j.

(** A character is kept by the index (it occurs in [b] and is not
    popular). *)
Definition indexed (b : list ascii) (c : ascii) : bool :=
  match lookup b c with [] => false | _ => true end.

(** The length of the run of indexed characters of [b] ending at [i]. *)
Fixpoint run (b : list ascii) (i : nat) : nat :=
  match i with
  | O => if indexed b (Difflib.at_b b 0) then 1 else 0
  | S i' => if indexed b (Difflib.at_b b (S i')) then run b i' + 1 else 0
  end.

Definition run_before (b : list ascii) (i : nat) : nat :=
  match i with O => 0 | S i' => run b i' end.

(** The length computed at column [j] from the previous row. *)
Definition len_at (j2len : Difflib.j2len_t) (j : nat) : nat :=
  Difflib.j2lenget j2len j + 1.

Definition best_upd (j2len : Difflib.j2len_t) (i : nat)
           (best : Difflib.Match) (j : nat) : Difflib.Match :=
  if (Difflib.m_size best <? len_at j2len j)%nat
  then {| Difflib.m_a := i + 1 - len_at j2len j;
          Difflib.m_b := j + 1 - len_at j2len j;
          Difflib.m_size := len_at j2len j |}
  else best.

(** What holds before row [i] of the scan of the whole of [b] against
    itself: the kept lengths are bounded by the runs, the length on the
    diagonal is the run, the best block is on the diagonal and at least
    as long as every run seen. *)
Definition row_inv (b : list ascii) (i : nat) (j2len : Difflib.j2len_t) (best : Difflib.Match) : Prop :=
  (forall j, Difflib.j2lenget j2len j <= run_before b i
             /\ Difflib.j2lenget j2len j <= run_before b j)
  /\ Difflib.j2lenget j2len i = run_before b i
  /\ Difflib.m_a best = Difflib.m_b best
  /\ (forall i', i' < i -> run b i' <= Difflib.m_size best).

(** The header of the first table of a response. *)
Definition header_of (blocks : list Block) : list string :=
  match first_table blocks with
  | None => []
  | Some table_blk =>
      let g := collect_cells table_blk (build_idmap blocks) in
      build_header (g_cells g) (g_cmax g)
  end.

(** The roster key of a scanned item (line 94). *)
Definition emp_id_of (item : item_t) : string :=
  PyStr.replace "EMP#" "" (get_str "PK" item "").

(** An item that the roster keeps (line 93). *)
Definition is_profile (item : item_t) : bool :=
  opt_string_eqb (Dict.get String.eqb "SK" item) "PROFILE".

(** The normal form under which [sim] compares a string. *)
Definition sim_norm (s : string) : string := PyStr.lower (PyStr.strip s).

Definition not_space (c : ascii) : bool := negb (Ascii.eqb c " ").

(** The block [m] holds equal characters of [a] and [b]. *)
Definition is_match (a b : list ascii) (m : Difflib.Match) : Prop :=
  forall t, t < Difflib.m_size m ->
            Difflib.at_a a (Difflib.m_a m + t) = Difflib.at_b b (Difflib.m_b m + t).

(** The lengths kept for the previous row end in equal characters. *)
Definition lens_match (a b : list ascii) (i : nat) (j2len : Difflib.j2len_t) : Prop :=
  forall j t, t < Difflib.j2lenget j2len j ->
              Difflib.at_a a (i - 1 - t) = Difflib.at_b b (j - 1 - t).

(** A block of equal characters inside both sequences. *)
Definition common_block (a b : list ascii) (m : Difflib.Match) : Prop :=
  is_match a b m
  /\ Difflib.m_a m + Difflib.m_size m <= List.length a
  /\ Difflib.m_b m + Difflib.m_size m <= List.length b.

(** A window of the work list inside both sequences. *)
Definition inside (a b : list ascii) (w : nat * nat * nat * nat) : Prop :=
  let '(alo, ahi, blo, bhi) := w in ahi <= List.length a /\ bhi <= List.length b.

(** The characters of the form that [sim] compares. *)
Definition sim_chars (s : string) : list ascii :=
  list_ascii_of_string (PyStr.lower (PyStr.strip s)).

(** Two strings without a common character, once normalized. *)
Definition no_common_char (x y : string) : Prop :=
  forall c, In c (sim_chars x) -> ~ In c (sim_chars y).

(** The body of the loop over the child identifiers of [_text_from]. *)
Definition text_step (idmap : idmap_t) (out : list string) (cid : string) : list string :=
  match Dict.get String.eqb cid idmap with
  | None => out
  | Some wb =>
      if opt_string_eqb (BlockType wb) "WORD"
      then (out ++ [match Text wb with Some t => t | None => "" end])%list
      else if opt_string_eqb (BlockType wb) "SELECTION_ELEMENT"
              && opt_string_eqb (SelectionStatus wb) "SELECTED"
      then (out ++ ["[X]"])%list
      else out
  end.

Definition text_rel_step (idmap : idmap_t) (out : list string) (rel : Relationship)
  : list string :=
  if opt_string_eqb (rel_Type rel) "CHILD"
  then fold_left (text_step idmap) (rel_Ids rel) out
  else out.

(** Every stored cell lies inside the extent, and its text is trimmed. *)
Definition grid_ok (g : grid) : Prop :=
  (0 <= g_rmax g)%Z /\ (0 <= g_cmax g)%Z
  /\ Forall (fun e : Z * Z * string =>
               (fst (fst e) <= g_rmax g)%Z /\ (snd (fst e) <= g_cmax g)%Z
               /\ PyStr.strip (snd e) = snd e)
            (g_cells g).

(** The body of the loop over the child identifiers of the table. *)
Definition cell_step (idmap : idmap_t) (g : grid) (cid : string) : grid :=
  match Dict.get String.eqb cid idmap with
  | None => g
  | Some cell =>
      if negb (opt_string_eqb (BlockType cell) "CELL") then g
      else
        let r := opt_Z_default (RowIndex cell) 0 in
        let c := opt_Z_default (ColumnIndex cell) 0 in
        {| g_cells := Dict.set pair_eqb (r, c) (_text_from cell idmap) (g_cells g);
           g_rmax := Z.max (g_rmax g) r;
           g_cmax := Z.max (g_cmax g) c |}
  end.

(** The keys of a header without their repetitions, in the order of their
    first occurrence. *)
Definition distinct_keys (header : list string) : list string :=
  fold_left (fun ks k => set_add k ks) header [].

(** The body of the loop of [get_all_employee_profiles]. *)
Definition roster_step (profiles : profiles_t) (item : item_t) : profiles_t :=
  if is_profile item then Dict.set String.eqb (emp_id_of item) item profiles
  else profiles.

(** A record is either unmatched, with confidence 0, no matched name and
    not valid, or matched, with a confidence above one half. *)
Definition record_shape (rec : record_t) : Prop :=
  (rec_match_type rec = NONE /\ rec_confidence rec = 0%Q
   /\ rec_matched_name rec = "" /\ rec_valid rec = false)
  \/ (rec_match_type rec <> NONE /\ (1 # 2 < rec_confidence rec <= 1)%Q).

(** What a matched record holds: the roster entry of its identifier. *)
Definition record_from_roster (roster : profiles_t) (rec : record_t) : Prop :=
  rec_match_type rec <> NONE ->
  (exists p, Dict.get String.eqb (rec_matched_emp_id rec) roster = Some p
             /\ rec_matched_name rec = get_str "Name" p "")
  /\ (rec_match_type rec = ID ->
      rec_matched_emp_id rec = rec_emp_id rec /\ rec_emp_id rec <> "").

(** What the status of a record tells, given its shape and validity. *)
Definition status_reading (rec : record_t) : Prop :=
  (status_of (rec_valid rec) (rec_confidence rec) = NO_MATCH
   <-> rec_match_type rec = NONE)
  /\ (status_of (rec_valid rec) (rec_confidence rec) = MATCHED
      <-> rec_match_type rec <> NONE /\ (9 # 10 <= rec_confidence rec)%Q)
  /\ (status_of (rec_valid rec) (rec_confidence rec) = LOW_CONF
      <-> rec_match_type rec <> NONE /\ (rec_confidence rec < 9 # 10)%Q).


(** * Properties *)

(** ** Dictionaries with a decidable key equality *)

Section DictFacts.
Context {K V : Type} (eqb : K -> K -> bool).
Hypothesis eqb_eq : forall x y, eqb x y = true <-> x = y.

Lemma eqb_refl_gen (x : K) : eqb x x = true.
Proof. now apply eqb_eq. Qed.

Lemma dict_get_set (k k' : K) (v : V) (d : Dict.t) :
  Dict.get eqb k' (Dict.set eqb k v d)
  = if eqb k' k then Some v else Dict.get eqb k' d.
Proof.
  induction d as [|[k0 v0] d IH]; cbn [Dict.set Dict.get]; [reflexivity|].
  destruct (eqb k k0) eqn:E; cbn [Dict.get].
  - apply eqb_eq in E. subst k0. now destruct (eqb k' k).
  - rewrite IH. destruct (eqb k' k0) eqn:E0; [|reflexivity].
    destruct (eqb k' k) eqn:E1; [|reflexivity].
    apply eqb_eq in E0, E1. subst. now rewrite eqb_refl_gen in E.
Qed.

Lemma dict_set_keys_gen (k : K) (v : V) (d : Dict.t) :
  Dict.keys (Dict.set eqb k v d)
  = if existsb (eqb k) (Dict.keys d) then Dict.keys d
    else (Dict.keys d ++ [k])%list.
Proof.
  unfold Dict.keys.
  induction d as [|[k' v'] d IH]; cbn [Dict.set map fst existsb app]; [reflexivity|].
  destruct (eqb k k'); cbn [orb map fst]; [reflexivity|].
  rewrite IH. now destruct (existsb (eqb k) (map fst d)).
Qed.

Lemma dict_set_NoDup_gen (k : K) (v : V) (d : Dict.t) :
  NoDup (Dict.keys d) -> NoDup (Dict.keys (Dict.set eqb k v d)).
Proof.
  intros Hd. rewrite dict_set_keys_gen.
  destruct (existsb (eqb k) (Dict.keys d)) eqn:E; [exact Hd|].
  assert (Hk : ~ In k (Dict.keys d)).
  { intros H. assert (existsb (eqb k) (Dict.keys d) = true); [|congruence].
    apply existsb_exists. exists k. split; [exact H | apply eqb_refl_gen]. }
  clear E. induction Hd as [|y l Hy Hl IH]; cbn [app].
  - constructor; [intros [] | constructor].
  - constructor.
    + rewrite in_app_iff. intros [H | [H | []]]; [contradiction|].
      subst. apply Hk. now left.
    + apply IH. intros H. apply Hk. now right.
Qed.

Lemma dict_get_None (k : K) (d : Dict.t (V:=V)) :
  Dict.get eqb k d = None <-> ~ In k (Dict.keys d).
Proof.
  unfold Dict.keys. induction d as [|[k0 v0] d IH]; cbn [Dict.get map fst In].
  - tauto.
  - destruct (eqb k k0) eqn:E.
    + apply eqb_eq in E. subst. split; [discriminate | intros H; exfalso; auto].
    + rewrite IH. split; [|tauto]. intros H [H0 | H0]; [|tauto].
      subst. now rewrite eqb_refl_gen in E.
Qed.

(** Filtering a dictionary with distinct keys. *)
Lemma dict_get_filter (f : K * V -> bool) (k : K) (d : Dict.t) :
  NoDup (Dict.keys d) ->
  Dict.get eqb k (filter f d)
  = match Dict.get eqb k d with
    | Some v => if f (k, v) then Some v else None
    | None => None
    end.
Proof.
  unfold Dict.keys. induction d as [|[k0 v0] d IH]; cbn [filter Dict.get map fst];
    [reflexivity|].
  intros Hnd. inversion Hnd as [|? ? Hk0 Hd]; subst.
  destruct (eqb k k0) eqn:E.
  - apply eqb_eq in E. subst k0.
    destruct (f (k, v0)) eqn:Ef; cbn [Dict.get].
    + now rewrite eqb_refl_gen.
    + rewrite (IH Hd).
      assert (Hn : Dict.get eqb k d = None) by now apply dict_get_None.
      now rewrite Hn.
  - destruct (f (k0, v0)); cbn [Dict.get]; [rewrite E|]; apply (IH Hd).
Qed.
End DictFacts.

Lemma ascii_eqb_eq (x y : ascii) : Difflib.ascii_eqb x y = true <-> x = y.
Proof. apply Ascii.eqb_eq. Qed.

(** ** Strings *)

Lemma prefix_spec (p s : string) :
  String.prefix p s = true <-> exists post, s = p ++ post.
Proof.
  revert s; induction p as [|c p IH]; intros s; simpl.
  - split; [intros _; now exists s | intros _; now destruct s].
  - destruct s as [|d s]; simpl.
    + split; [discriminate | intros [post H]; discriminate].
    + destruct (Ascii.ascii_dec c d) as [->|Hne].
      * rewrite IH. split; intros [post H]; exists post.
        -- now rewrite H.
        -- now injection H.
      * split; [discriminate | intros [post H]; injection H; intros _ E; now symmetry in E].
Qed.

(** [needle in hay] holds exactly when [needle] occurs in [hay]. *)
Lemma contains_spec (needle hay : string) :
  PyStr.contains needle hay = true <-> exists pre post, hay = pre ++ needle ++ post.
Proof.
  induction hay as [|c hay IH]; cbn [PyStr.contains].
  - rewrite orb_false_r, prefix_spec. split.
    + intros [post H]; now exists EmptyString, post.
    + intros [pre [post H]]. destruct pre; simpl in H; [now exists post | discriminate].
  - rewrite orb_true_iff, prefix_spec, IH. split.
    + intros [[post H] | [pre [post H]]].
      * now exists EmptyString, post.
      * exists (String c pre), post. simpl. now rewrite H.
    + intros [pre [post H]]. destruct pre as [|d pre]; simpl in H.
      * left; now exists post.
      * right; exists pre, post. now injection H.
Qed.

Lemma lower_ascii_not_upper (c : ascii) : isupper (PyStr.lower_ascii c) = false.
Proof.
  destruct c as [[] [] [] [] [] [] [] []]; reflexivity.
Qed.

Lemma lower_no_upper (s : string) : no_upper (PyStr.lower s) = true.
Proof.
  induction s as [|c s IH]; simpl; [reflexivity|].
  now rewrite lower_ascii_not_upper, IH.
Qed.

Lemma remove_spaces_no_upper (s : string) (k : nat) :
  no_upper s = true -> no_upper (PyStr.replace_scan " " "" k s) = true.
Proof.
  revert k; induction s as [|c s IH]; intros k H; cbn [PyStr.replace_scan];
    [reflexivity|].
  cbn [no_upper] in H. apply andb_true_iff in H as [Hc Hs].
  destruct k as [|k]; [|now apply IH].
  destruct (String.prefix " " (String c s)).
  - cbn [append]. now apply IH.
  - cbn [no_upper]. now rewrite Hc, IH.
Qed.

Lemma fallback_no_upper (h : string) :
  no_upper h = true -> no_upper (PyStr.replace " " "" h) = true.
Proof. apply remove_spaces_no_upper. Qed.

(** ** Header classification *)

(** C6: the tests on a header text run in the order [name], then
    [employee] with [id], then [room], [wake], [sign].  For every cell text,
    with [h] its trimmed lower-case form: a header containing [name] is
    [Name] whatever else it contains; it is [EmployeeID] exactly when it
    contains [employee] and [id] and no [name]; the later keys are reached
    only when the earlier tests fail; and the text "Employee Name" is
    classified [Name]. *)
Theorem header_priority_order :
  forall text : string,
    let h := PyStr.lower (PyStr.strip text) in
    (PyStr.contains "name" h = true -> classify_header h = "Name")
    /\ (classify_header h = "EmployeeID" <->
        PyStr.contains "name" h = false
        /\ PyStr.contains "employee" h = true /\ PyStr.contains "id" h = true)
    /\ (PyStr.contains "employee" h = true -> PyStr.contains "name" h = true ->
        PyStr.contains "id" h = false -> classify_header h = "Name")
    /\ (classify_header h = "RoomNumber" <->
        PyStr.contains "name" h = false
        /\ PyStr.contains "employee" h && PyStr.contains "id" h = false
        /\ PyStr.contains "room" h = true)
    /\ (classify_header h = "Wake" <->
        PyStr.contains "name" h = false
        /\ PyStr.contains "employee" h && PyStr.contains "id" h = false
        /\ PyStr.contains "room" h = false /\ PyStr.contains "wake" h = true)
    /\ (classify_header h = "Signature" <->
        PyStr.contains "name" h = false
        /\ PyStr.contains "employee" h && PyStr.contains "id" h = false
        /\ PyStr.contains "room" h = false /\ PyStr.contains "wake" h = false
        /\ PyStr.contains "sign" h = true)
    /\ classify_header (PyStr.lower (PyStr.strip "Employee Name")) = "Name"
    /\ classify_header (PyStr.lower (PyStr.strip "Employee ID")) = "EmployeeID".
Proof.
  intros text h.
  assert (Hlow : no_upper (PyStr.replace " " "" h) = true)
    by apply fallback_no_upper, lower_no_upper.
  assert (Hfb : forall s, no_upper s = false -> PyStr.replace " " "" h <> s)
    by (intros s Hs E; rewrite E in Hlow; congruence).
  clearbody h. unfold classify_header.
  repeat match goal with |- _ /\ _ => split end; try reflexivity.
  - now intros ->.
  - destruct (PyStr.contains "name" h); [split; [discriminate | intros [? _]; discriminate]|].
    destruct (PyStr.contains "employee" h), (PyStr.contains "id" h); cbn [andb];
      try solve [split; [intros _; repeat split; reflexivity | intros _; reflexivity]].
    all: repeat match goal with
           | |- context [if ?b then _ else _] => destruct b
           end;
      (split; [intros E; try discriminate E; exfalso; revert E; now apply Hfb
              | intros (_ & ? & ?); discriminate]).
  - now intros _ -> _.
  - destruct (PyStr.contains "name" h); [split; [discriminate | intros [? _]; discriminate]|].
    destruct (PyStr.contains "employee" h && PyStr.contains "id" h);
      [split; [discriminate | intros (_ & ? & _); discriminate]|].
    destruct (PyStr.contains "room" h); [tauto|].
    repeat match goal with
           | |- context [if ?b then _ else _] => destruct b
           end;
      (split; [intros E; try discriminate E; exfalso; revert E; now apply Hfb
              | intros (_ & _ & ?); discriminate]).
  - destruct (PyStr.contains "name" h); [split; [discriminate | intros [? _]; discriminate]|].
    destruct (PyStr.contains "employee" h && PyStr.contains "id" h);
      [split; [discriminate | intros (_ & ? & _); discriminate]|].
    destruct (PyStr.contains "room" h);
      [split; [discriminate | intros (_ & _ & ? & _); discriminate]|].
    destruct (PyStr.contains "wake" h); [tauto|].
    destruct (PyStr.contains "sign" h);
      (split; [intros E; try discriminate E; exfalso; revert E; now apply Hfb
              | intros (_ & _ & _ & ?); discriminate]).
  - destruct (PyStr.contains "name" h); [split; [discriminate | intros [? _]; discriminate]|].
    destruct (PyStr.contains "employee" h && PyStr.contains "id" h);
      [split; [discriminate | intros (_ & ? & _); discriminate]|].
    destruct (PyStr.contains "room" h);
      [split; [discriminate | intros (_ & _ & ? & _); discriminate]|].
    destruct (PyStr.contains "wake" h);
      [split; [discriminate | intros (_ & _ & _ & ? & _); discriminate]|].
    destruct (PyStr.contains "sign" h); [tauto|].
    split; [intros E; exfalso; revert E; now apply Hfb
           | intros (_ & _ & _ & _ & ?); discriminate].
Qed.

Lemma all_chars_weaken (P R : ascii -> bool) (s : string) :
  (forall c, P c = true -> R c = true) ->
  all_chars P s = true -> all_chars R s = true.
Proof.
  intros HPR; induction s as [|c s IH]; simpl; [reflexivity|].
  intros H; apply andb_true_iff in H as [Hc Hs].
  now rewrite (HPR c Hc), IH.
Qed.

Lemma uint_digits (d : Decimal.uint) :
  all_chars isdigit (NilEmpty.string_of_uint d) = true.
Proof. induction d; simpl; auto. Qed.

Lemma str_of_int_digits (n : Z) :
  (0 <= n)%Z -> all_chars isdigit (PyStr.str_of_int n) = true.
Proof.
  intros Hn. unfold PyStr.str_of_int.
  destruct n as [|p|p]; [reflexivity| |lia].
  simpl. unfold NilZero.string_of_uint.
  destruct (Pos.to_uint p); try reflexivity; apply uint_digits.
Qed.

Lemma lstrip_no_space (s : string) :
  all_chars (fun c => negb (PyStr.isspace c)) s = true -> PyStr.lstrip s = s.
Proof.
  destruct s as [|c s]; simpl; [reflexivity|].
  intros H; apply andb_true_iff in H as [Hc _].
  apply negb_true_iff in Hc. now rewrite Hc.
Qed.

Lemma rstrip_no_space (s : string) :
  all_chars (fun c => negb (PyStr.isspace c)) s = true -> PyStr.rstrip s = s.
Proof.
  induction s as [|c s IH]; simpl; [reflexivity|].
  intros H; apply andb_true_iff in H as [Hc Hs].
  apply negb_true_iff in Hc. rewrite (IH Hs), Hc. now destruct s.
Qed.

Lemma lower_no_change (s : string) :
  all_chars (fun c => negb (isupper c)) s = true -> PyStr.lower s = s.
Proof.
  induction s as [|c s IH]; simpl; [reflexivity|].
  intros H; apply andb_true_iff in H as [Hc Hs].
  rewrite (IH Hs). f_equal. unfold PyStr.lower_ascii.
  apply negb_true_iff in Hc. unfold isupper in Hc. now rewrite Hc.
Qed.

Lemma digit_not_space (c : ascii) : isdigit c = true -> negb (PyStr.isspace c) = true.
Proof.
  destruct c as [[] [] [] [] [] [] [] []]; vm_compute; intros H;
    first [reflexivity | discriminate H].
Qed.

Lemma digit_not_upper (c : ascii) : isdigit c = true -> negb (isupper c) = true.
Proof.
  destruct c as [[] [] [] [] [] [] [] []]; vm_compute; intros H;
    first [reflexivity | discriminate H].
Qed.

(** The placeholder of an absent header cell, trimmed and lower-cased. *)
Lemma placeholder_header (c : Z) :
  (0 <= c)%Z ->
  PyStr.lower (PyStr.strip ("Col" ++ PyStr.str_of_int c)) = "col" ++ PyStr.str_of_int c.
Proof.
  intros Hc. pose proof (str_of_int_digits c Hc) as Hd.
  set (ds := PyStr.str_of_int c) in *.
  assert (Hs : all_chars (fun c => negb (PyStr.isspace c)) ("Col" ++ ds) = true).
  { simpl. apply (all_chars_weaken isdigit); [apply digit_not_space | exact Hd]. }
  unfold PyStr.strip. rewrite (lstrip_no_space _ Hs), (rstrip_no_space _ Hs).
  simpl. do 3 f_equal. apply lower_no_change.
  apply (all_chars_weaken isdigit); [apply digit_not_upper | exact Hd].
Qed.

Lemma contains_absent_first (k0 : ascii) (k s : string) :
  all_chars (fun c => negb (Ascii.eqb k0 c)) s = true ->
  PyStr.contains (String k0 k) s = false.
Proof.
  induction s as [|c s IH]; [reflexivity|].
  cbn [all_chars PyStr.contains String.prefix].
  intros H; apply andb_true_iff in H as [Hc Hs].
  rewrite (IH Hs), orb_false_r. apply negb_true_iff in Hc.
  destruct (ascii_dec k0 c) as [->|]; [|reflexivity].
  now rewrite Ascii.eqb_refl in Hc.
Qed.

Lemma digit_not_letter (k c : ascii) :
  isdigit k = false -> isdigit c = true -> negb (Ascii.eqb k c) = true.
Proof.
  intros Hk Hc. apply negb_true_iff. destruct (Ascii.eqb_spec k c); congruence.
Qed.

(** The placeholder header passes none of the five tests. *)
Lemma placeholder_unclassified (c : Z) :
  (0 <= c)%Z ->
  classify_header ("col" ++ PyStr.str_of_int c) = "col" ++ PyStr.str_of_int c.
Proof.
  intros Hc. pose proof (str_of_int_digits c Hc) as Hd.
  set (ds := PyStr.str_of_int c) in *.
  assert (Hk : forall k0 k, isdigit k0 = false ->
                 negb (Ascii.eqb k0 "c") && (negb (Ascii.eqb k0 "o") && negb (Ascii.eqb k0 "l")) = true ->
                 PyStr.contains (String k0 k) ("col" ++ ds) = false).
  { intros k0 k Hk0 H3. apply contains_absent_first.
    cbn [append all_chars].
    apply andb_true_iff in H3 as [H1 H3]; apply andb_true_iff in H3 as [H2 H3].
    rewrite H1, H2, H3. cbn [andb].
    apply (all_chars_weaken isdigit); [|exact Hd].
    intros d Hd'. now apply digit_not_letter. }
  unfold classify_header.
  rewrite !Hk by reflexivity. cbn [andb].
  unfold PyStr.replace.
  assert (Hs : forall s, all_chars isdigit s = true -> PyStr.replace_scan " " "" 0 s = s).
  { induction s as [|d s IH]; [reflexivity|].
    cbn [all_chars PyStr.replace_scan String.prefix].
    intros H; apply andb_true_iff in H as [Hd1 Hd2].
    destruct (ascii_dec " " d) as [<-|]; [discriminate Hd1|].
    now rewrite (IH Hd2). }
  change ("col" ++ ds) with (String "c" (String "o" (String "l" ds))).
  cbn [PyStr.replace_scan String.prefix].
  cbn. now rewrite (Hs ds Hd).
Qed.

Lemma fold_left_snoc_map {A B : Type} (f : A -> B) (l : list A) (acc : list B) :
  fold_left (fun acc x => (acc ++ [f x])%list) l acc = (acc ++ map f l)%list.
Proof.
  revert acc; induction l as [|x l IH]; intros acc; simpl.
  - now rewrite app_nil_r.
  - now rewrite IH, <- app_assoc.
Qed.

Lemma build_header_map (cells : cells_t) (cmax : Z) :
  build_header cells cmax =
  map (fun c => classify_header (header_raw cells c)) (range 1 (cmax + 1)).
Proof. unfold build_header. now rewrite fold_left_snoc_map. Qed.

Lemma range_length (lo hi : Z) : List.length (range lo hi) = Z.to_nat (hi - lo).
Proof. unfold range. now rewrite length_map, length_seq. Qed.

Lemma range_nth (lo hi : Z) (n : nat) :
  (n < Z.to_nat (hi - lo))%nat -> nth_error (range lo hi) n = Some (lo + Z.of_nat n)%Z.
Proof.
  intros Hn. unfold range.
  rewrite nth_error_map, nth_error_seq.
  destruct (Nat.ltb_spec n (Z.to_nat (hi - lo))); [reflexivity | lia].
Qed.

(** C5, refuted as stated: the header of a column without a row-1 cell is
    not derived from the empty string; the program substitutes the
    placeholder [Col<c>], so the column of [headless_sheet] is keyed
    [col1]. *)
Lemma header_absent_cell_not_empty :
  header_raw_spec [] 1 = ""
  /\ header_raw [] 1 = "col1"
  /\ build_header [] 1 = ["col1"]
  /\ build_header [] 1 <> [classify_header (header_raw_spec [] 1)]
  /\ parse_first_table headless_sheet = [[("col1", "Bob")]].
Proof. repeat split; try reflexivity. discriminate. Qed.

(** C5, amended: the header has one entry per column [1..cmax]; the entry
    of column [c] classifies the trimmed, lower-cased text of the cell at
    row 1, or of the placeholder [Col<c>] when that cell is absent or its
    text is empty (the header is then [col<c>]); a text that passes none of
    the five tests falls back to itself with its space characters removed. *)
Theorem header_from_first_row :
  forall (cells : cells_t) (cmax : Z),
    List.length (build_header cells cmax) = Z.to_nat cmax
    /\ (forall c, (1 <= c <= cmax)%Z ->
          nth_error (build_header cells cmax) (Z.to_nat (c - 1))
          = Some (classify_header (header_raw cells c)))
    /\ (forall c t, Dict.get pair_eqb (1%Z, c) cells = Some t -> t <> "" ->
          header_raw cells c = PyStr.lower (PyStr.strip t))
    /\ (forall c, (1 <= c)%Z ->
          Dict.get pair_eqb (1%Z, c) cells = None
          \/ Dict.get pair_eqb (1%Z, c) cells = Some "" ->
          header_raw cells c = "col" ++ PyStr.str_of_int c
          /\ classify_header (header_raw cells c) = "col" ++ PyStr.str_of_int c)
    /\ (forall h,
          PyStr.contains "name" h = false ->
          PyStr.contains "employee" h && PyStr.contains "id" h = false ->
          PyStr.contains "room" h = false ->
          PyStr.contains "wake" h = false ->
          PyStr.contains "sign" h = false ->
          classify_header h = PyStr.replace " " "" h).
Proof.
  intros cells cmax. rewrite build_header_map.
  split; [|split; [|split; [|split]]].
  - rewrite length_map, range_length. now rewrite Z.add_simpl_r.
  - intros c Hc. rewrite nth_error_map, range_nth by lia.
    replace (1 + Z.of_nat (Z.to_nat (c - 1)))%Z with c by lia. reflexivity.
  - intros c t Hget Ht. unfold header_raw. rewrite Hget.
    destruct t; [congruence | reflexivity].
  - intros c Hc Hget.
    assert (E : header_raw cells c = "col" ++ PyStr.str_of_int c).
    { unfold header_raw.
      destruct Hget as [-> | ->]; simpl PyStr.or_default;
        apply placeholder_header; lia. }
    split; [exact E|]. rewrite E. apply placeholder_unclassified; lia.
  - intros h H1 H2 H3 H4 H5. unfold classify_header.
    now rewrite H1, H2, H3, H4, H5.
Qed.

(** ** Data rows *)

Lemma enumerate_fst {A : Type} (l : list A) (start : Z) :
  map fst (enumerate start l) = range start (start + Z.of_nat (List.length l)).
Proof.
  revert start; induction l as [|x l IH]; intros start.
  - unfold range. now replace (start + Z.of_nat (List.length (@nil A)) - start)%Z with 0%Z
      by (simpl; lia).
  - cbn [enumerate map fst]. rewrite IH. unfold range.
    replace (start + Z.of_nat (List.length (x :: l)) - start)%Z
      with (Z.of_nat (S (List.length l))) by (cbn [List.length]; lia).
    replace (start + 1 + Z.of_nat (List.length l) - (start + 1))%Z
      with (Z.of_nat (List.length l)) by lia.
    rewrite !Nat2Z.id. cbn [seq map]. f_equal; [lia|].
    rewrite <- seq_shift, map_map. apply map_ext. intros i. lia.
Qed.

(** The [empty] flag at the end of the inner loop. *)
Lemma build_row_flag_gen (cells : cells_t) (r : Z) (l : list (Z * string))
      (row : row_t) (e : bool) :
  snd (fold_left
         (fun (st : row_t * bool) (ck : Z * string) =>
            let '(row, empty) := st in
            let '(ci, key) := ck in
            let val := cell_value cells r ci in
            (Dict.set String.eqb key val row, if PyStr.truthy val then false else empty))
         l (row, e))
  = e && forallb (fun ci => negb (PyStr.truthy (cell_value cells r ci))) (map fst l).
Proof.
  revert row e; induction l as [|[ci key] l IH]; intros row e; cbn [fold_left map fst forallb].
  - now rewrite andb_true_r.
  - rewrite IH. destruct (PyStr.truthy (cell_value cells r ci)), e; reflexivity.
Qed.

Lemma build_row_flag (cells : cells_t) (header : list string) (r : Z) :
  snd (build_row cells header r) = row_all_empty cells header r.
Proof.
  unfold build_row, row_all_empty.
  rewrite build_row_flag_gen, enumerate_fst. cbn [andb]. do 2 f_equal. lia.
Qed.

Lemma data_rows_gen (cells : cells_t) (header : list string) (l : list Z) (acc : list row_t) :
  fold_left
    (fun out_rows r =>
       let '(row, empty) := build_row cells header r in
       if negb empty then (out_rows ++ [row])%list else out_rows)
    l acc
  = (acc ++ map (fun r => fst (build_row cells header r))
               (filter (fun r => negb (row_all_empty cells header r)) l))%list.
Proof.
  revert acc; induction l as [|r l IH]; intros acc; cbn [fold_left filter].
  - now rewrite app_nil_r.
  - rewrite IH, <- build_row_flag.
    destruct (build_row cells header r) as [row empty] eqn:E; cbn [snd].
    destruct empty; cbn [negb]; [reflexivity|].
    cbn [map]. rewrite E. cbn [fst]. now rewrite <- app_assoc.
Qed.

(** The row dictionary at the end of the inner loop. *)
Lemma build_row_dict_gen (cells : cells_t) (r : Z) (l : list (Z * string))
      (row : row_t) (e : bool) :
  fst (fold_left
         (fun (st : row_t * bool) (ck : Z * string) =>
            let '(row, empty) := st in
            let '(ci, key) := ck in
            let val := cell_value cells r ci in
            (Dict.set String.eqb key val row, if PyStr.truthy val then false else empty))
         l (row, e))
  = fold_left (fun row ck => Dict.set String.eqb (snd ck) (cell_value cells r (fst ck)) row)
              l row.
Proof.
  revert row e; induction l as [|[ci key] l IH]; intros row e; cbn [fold_left];
    [reflexivity|].
  now rewrite IH.
Qed.

Lemma fill_other (cells : cells_t) (r : Z) (l : list (Z * string)) (key : string) :
  ~ In key (map snd l) ->
  forall row : row_t,
    Dict.get String.eqb key
      (fold_left (fun row ck => Dict.set String.eqb (snd ck) (cell_value cells r (fst ck)) row)
                 l row)
    = Dict.get String.eqb key row.
Proof.
  induction l as [|[ci k] l IH]; intros Hk row; cbn [fold_left]; [reflexivity|].
  cbn [map snd In] in Hk. rewrite IH by tauto.
  rewrite (dict_get_set String.eqb String.eqb_eq). cbn [snd].
  destruct (String.eqb_spec key k) as [->|]; [exfalso; tauto | reflexivity].
Qed.


Lemma enumerate_snd {A : Type} (l : list A) (start : Z) :
  map snd (enumerate start l) = l.
Proof.
  revert start; induction l as [|x l IH]; intros start; cbn [enumerate map snd];
    [reflexivity|].
  now rewrite IH.
Qed.



(** Two columns classified under the same key: the later column
    overwrites the earlier one in the row, while the blank test looks at
    the cells, so the row is emitted although its mapping holds no text. *)
Example duplicate_header_row :
  parse_first_table
    [ table "t" ["h1"; "h2"; "d1"];
      cell "h1" 1 1 ["n1"]; cell "h2" 1 2 ["n2"]; cell "d1" 2 1 ["v"];
      word "n1" "Name"; word "n2" "Surname"; word "v" "Bob" ]
  = [[("Name", "")]].
Proof. vm_compute. reflexivity. Qed.

(** ** Comparisons on similarities *)

Lemma Qgtb_lt (x y : Q) : Qgtb x y = true <-> (y < x)%Q.
Proof.
  unfold Qgtb. rewrite negb_true_iff. split.
  - intros H. apply Qnot_le_lt. intros Hle.
    apply Qle_bool_iff in Hle. congruence.
  - intros H. destruct (Qle_bool x y) eqn:E; [|reflexivity].
    apply Qle_bool_iff in E. exfalso. exact (Qlt_not_le _ _ H E).
Qed.

Lemma Qgtb_le (x y : Q) : Qgtb x y = false <-> (x <= y)%Q.
Proof.
  unfold Qgtb. rewrite negb_false_iff. apply Qle_bool_iff.
Qed.

Lemma Qgeb_le (x y : Q) : Qgeb x y = true <-> (y <= x)%Q.
Proof. unfold Qgeb. apply Qle_bool_iff. Qed.

(** ** Name search *)

Lemma find_best_match_unfold (textract_name : string) (profiles : profiles_t) :
  find_best_match textract_name profiles =
  if negb (PyStr.truthy (PyStr.strip textract_name)) then (None, 0%Q)
  else fold_left (best_step textract_name) profiles (None, 0%Q).
Proof. reflexivity. Qed.

Lemma best_step_invariant (textract_name : string) (seen : profiles_t)
      (st : option name_match_t * Q) (e : string * item_t) :
  best_so_far textract_name seen st ->
  best_so_far textract_name (seen ++ [e])%list (best_step textract_name st e).
Proof.
  destruct st as [bm bc], e as [emp_id profile]. unfold best_so_far, best_step.
  cbn [fst snd]. intros Inv.
  set (c := sim (Some textract_name) (Some (get_str "Name" profile ""))).
  assert (Ec : entry_sim textract_name (emp_id, profile) = c) by reflexivity.
  destruct (Qgtb c bc) eqn:Hgt; cbn [fst snd nm_emp_id nm_profile nm_name].
  - apply Qgtb_lt in Hgt.
    exists seen, []. repeat split; try reflexivity.
    + destruct bm as [m|].
      * destruct Inv as (b & a & _ & _ & _ & Hpos & _). now apply Qlt_trans with bc.
      * destruct Inv as [-> _]. exact Hgt.
    + destruct bm as [m|].
      * destruct Inv as (b & a & -> & _ & Hm & Hpos & Hb & Ha).
        apply Forall_app; split; [|constructor].
        -- eapply Forall_impl; [|exact Hb]. intros x Hx. now apply Qlt_trans with bc.
        -- rewrite <- Hm. exact Hgt.
        -- eapply Forall_impl; [|exact Ha]. intros x Hx. now apply Qle_lt_trans with bc.
      * destruct Inv as [-> Hall].
        eapply Forall_impl; [|exact Hall]. intros x Hx. now apply Qle_lt_trans with 0%Q.
    + constructor.
  - apply Qgtb_le in Hgt. destruct bm as [m|].
    + destruct Inv as (b & a & -> & Hn & Hm & Hpos & Hb & Ha).
      exists b, (a ++ [(emp_id, profile)])%list. repeat split; try assumption.
      * now rewrite <- app_assoc.
      * apply Forall_app; split; [exact Ha|]. constructor; [|constructor]. now rewrite Ec.
    + destruct Inv as [-> Hall]. split; [reflexivity|].
      apply Forall_app; split; [exact Hall|]. constructor; [|constructor]. now rewrite Ec.
Qed.

Lemma best_loop_invariant (textract_name : string) (l seen : profiles_t)
      (st : option name_match_t * Q) :
  best_so_far textract_name seen st ->
  best_so_far textract_name (seen ++ l)%list (fold_left (best_step textract_name) l st).
Proof.
  revert seen st; induction l as [|e l IH]; intros seen st Inv; cbn [fold_left].
  - now rewrite app_nil_r.
  - replace (seen ++ e :: l)%list with ((seen ++ [e]) ++ l)%list
      by now rewrite <- app_assoc.
    apply IH, best_step_invariant, Inv.
Qed.

(** The result of the search: nothing for a blank name, else a pair that
    satisfies the invariant on the whole roster. *)
Lemma find_best_match_result (textract_name : string) (profiles : profiles_t) :
  (PyStr.truthy (PyStr.strip textract_name) = false
   /\ find_best_match textract_name profiles = (None, 0%Q))
  \/ (PyStr.truthy (PyStr.strip textract_name) = true
      /\ best_so_far textract_name profiles (find_best_match textract_name profiles)).
Proof.
  rewrite find_best_match_unfold.
  destruct (PyStr.truthy (PyStr.strip textract_name)); cbn [negb].
  - right. split; [reflexivity|].
    apply (best_loop_invariant textract_name profiles []).
    split; [reflexivity | constructor].
  - left. now split.
Qed.

(** C10: [find_best_match] replaces its best candidate only on a strictly
    greater similarity.  When it returns a candidate, that candidate is an
    entry of the roster whose similarity is the returned confidence, every
    entry before it in roster order has a strictly smaller similarity and
    every entry after it has a smaller or equal one: among several entries
    attaining the maximum, the first in iteration order is selected.  When
    it returns no candidate, the confidence is 0 and, for a non-blank name,
    no entry has a positive similarity. *)
Theorem find_best_match_first_maximum :
  forall (textract_name : string) (profiles : profiles_t),
    match find_best_match textract_name profiles with
    | (Some m, c) =>
        exists before after,
          profiles = (before ++ (nm_emp_id m, nm_profile m) :: after)%list
          /\ nm_name m = get_str "Name" (nm_profile m) ""
          /\ c = entry_sim textract_name (nm_emp_id m, nm_profile m)
          /\ (0 < c)%Q
          /\ Forall (fun e => (entry_sim textract_name e < c)%Q) before
          /\ Forall (fun e => (entry_sim textract_name e <= c)%Q) after
    | (None, c) =>
        c = 0%Q
        /\ (PyStr.truthy (PyStr.strip textract_name) = true ->
            Forall (fun e => (entry_sim textract_name e <= 0)%Q) profiles)
    end.
Proof.
  intros textract_name profiles.
  destruct (find_best_match_result textract_name profiles) as [[Hname E] | [Hname Inv]].
  - rewrite E. split; [reflexivity|]. rewrite Hname. discriminate.
  - unfold best_so_far in Inv.
    destruct (find_best_match textract_name profiles) as [[m|] c]; cbn [fst snd] in Inv.
    + destruct Inv as (before & after & E & Hn & Hc & Hpos & Hb & Ha).
      exists before, after. repeat split; assumption.
    + destruct Inv as [Hc Hall]. split; [exact Hc | intros _; exact Hall].
Qed.

(** Two roster entries with the same name: the first one wins the tie. *)
Example find_best_match_tie :
  find_best_match "Bob"
    [("7", [("PK", "EMP#7"); ("SK", "PROFILE"); ("Name", "Bob")]);
     ("8", [("PK", "EMP#8"); ("SK", "PROFILE"); ("Name", "bob")])]
  = (Some {| nm_emp_id := "7"; nm_name := "Bob";
             nm_profile := [("PK", "EMP#7"); ("SK", "PROFILE"); ("Name", "Bob")] |},
     Qmake 6 6).
Proof. reflexivity. Qed.

(** ** The choice between the two paths *)

Lemma direct_path_cases (textract_name emp_id : string) (all_profiles : profiles_t) :
  direct_path textract_name emp_id all_profiles = (None, 0%Q)
  \/ exists p,
      Dict.get String.eqb emp_id all_profiles = Some p
      /\ PyStr.truthy emp_id = true
      /\ direct_path textract_name emp_id all_profiles
         = (Some p, sim (Some textract_name) (Some (get_str "Name" p ""))).
Proof.
  unfold direct_path, Dict.mem.
  destruct (PyStr.truthy emp_id); cbn [andb]; [|now left].
  destruct (Dict.get String.eqb emp_id all_profiles) as [p|]; [|now left].
  right. now exists p.
Qed.

Lemma Qhalf_pos : (0 < 1 # 2)%Q.
Proof. reflexivity. Qed.

(** A name confidence above the threshold comes with a candidate. *)
Lemma name_match_present (textract_name : string) (profiles : profiles_t) :
  (0 < snd (find_best_match textract_name profiles))%Q ->
  exists m, fst (find_best_match textract_name profiles) = Some m.
Proof.
  destruct (find_best_match_result textract_name profiles) as [[_ E] | [_ Inv]].
  - rewrite E. cbn [snd]. intros H0. discriminate H0.
  - unfold best_so_far in Inv.
    destruct (find_best_match textract_name profiles) as [[m|] c]; cbn [fst snd] in *.
    + intros _. now exists m.
    + destruct Inv as [-> _]. intros H0. discriminate H0.
Qed.

(** A candidate of the name search is an entry of the roster. *)
Lemma name_match_in_roster (textract_name : string) (profiles : profiles_t)
      (m : name_match_t) :
  fst (find_best_match textract_name profiles) = Some m ->
  In (nm_emp_id m, nm_profile m) profiles.
Proof.
  destruct (find_best_match_result textract_name profiles) as [[_ E] | [_ Inv]].
  - rewrite E. discriminate.
  - unfold best_so_far in Inv. intros Hm. rewrite Hm in Inv.
    destruct Inv as (before & after & -> & _).
    apply in_or_app. right. now left.
Qed.

(** [match_row] never raises. *)
Lemma match_row_total (all_profiles : profiles_t) (r : row_t) (extra_names : list string) :
  exists ch, match_row all_profiles r extra_names = Some ch.
Proof.
  unfold match_row.
  destruct (direct_path (row_name r) (row_emp_id r) all_profiles) as [dm dc].
  pose proof (name_match_present (row_name r) all_profiles) as Hnm.
  destruct (find_best_match (row_name r) all_profiles) as [nm nc].
  cbn [fst snd] in Hnm. unfold choose.
  destruct (Qgeb dc nc && Qgtb dc (1 # 2)); [eexists; reflexivity|].
  destruct (Qgtb nc (1 # 2)) eqn:Hnc; [|eexists; reflexivity].
  apply Qgtb_lt in Hnc.
  destruct Hnm as [m Hm]; [now apply Qlt_trans with (1 # 2)%Q|].
  rewrite Hm. eexists; reflexivity.
Qed.

(** C2: the selection policy of lines 163-185.  With [dc] the confidence
    of the direct identifier path and [nc] the best name-search confidence
    of a row: if [dc >= nc] and [dc > 0.5] the row is matched by identifier
    (type [ID], the roster entry of the row's identifier, confidence [dc]);
    otherwise if [nc > 0.5] it is matched by name (type [NAME], the best
    name match, confidence [nc]); otherwise it is unmatched (type [NONE]).
    On a tie [dc == nc > 0.5] the type is [ID]. *)
Theorem selection_policy :
  forall (all_profiles : profiles_t) (r : row_t) (extra_names : list string),
    let dc := snd (direct_path (row_name r) (row_emp_id r) all_profiles) in
    let nc := snd (find_best_match (row_name r) all_profiles) in
    ((nc <= dc)%Q /\ (1 # 2 < dc)%Q ->
       exists ch p,
         match_row all_profiles r extra_names = Some ch
         /\ match_type ch = ID
         /\ matched_emp_id ch = row_emp_id r
         /\ Dict.get String.eqb (row_emp_id r) all_profiles = Some p
         /\ matched_profile ch = Some p
         /\ confidence ch = dc)
    /\ (~ ((nc <= dc)%Q /\ (1 # 2 < dc)%Q) -> (1 # 2 < nc)%Q ->
          exists ch m,
            match_row all_profiles r extra_names = Some ch
            /\ fst (find_best_match (row_name r) all_profiles) = Some m
            /\ match_type ch = NAME
            /\ matched_emp_id ch = nm_emp_id m
            /\ matched_profile ch = Some (nm_profile m)
            /\ confidence ch = nc)
    /\ (~ ((nc <= dc)%Q /\ (1 # 2 < dc)%Q) -> ~ (1 # 2 < nc)%Q ->
          exists ch,
            match_row all_profiles r extra_names = Some ch
            /\ match_type ch = NONE)
    /\ ((dc == nc)%Q -> (1 # 2 < dc)%Q ->
          exists ch,
            match_row all_profiles r extra_names = Some ch
            /\ match_type ch = ID).
Proof.
  intros all_profiles r extra_names dc nc.
  assert (HID : (nc <= dc)%Q /\ (1 # 2 < dc)%Q ->
       exists ch p,
         match_row all_profiles r extra_names = Some ch
         /\ match_type ch = ID
         /\ matched_emp_id ch = row_emp_id r
         /\ Dict.get String.eqb (row_emp_id r) all_profiles = Some p
         /\ matched_profile ch = Some p
         /\ confidence ch = dc).
  { intros [Hge Hgt]. subst dc nc. unfold match_row.
    destruct (direct_path_cases (row_name r) (row_emp_id r) all_profiles)
      as [E | (p & Hget & _ & E)]; rewrite E in *; cbn [snd] in *.
    - exfalso. discriminate Hgt.
    - destruct (find_best_match (row_name r) all_profiles) as [nm nc'].
      cbn [snd] in *. unfold choose.
      apply Qgeb_le in Hge. apply Qgtb_lt in Hgt. rewrite Hge, Hgt. cbn [andb].
      eexists; exists p. repeat split; assumption. }
  split; [exact HID|]. split; [|split].
  - intros Hno Hnc. subst dc nc. unfold match_row.
    destruct (name_match_present (row_name r) all_profiles) as [m Hm];
      [now apply Qlt_trans with (1 # 2)%Q|].
    destruct (direct_path (row_name r) (row_emp_id r) all_profiles) as [dm dc'].
    destruct (find_best_match (row_name r) all_profiles) as [nm nc'].
    cbn [fst snd] in *. subst nm. unfold choose.
    destruct (Qgeb dc' nc' && Qgtb dc' (1 # 2)) eqn:E.
    + exfalso. apply Hno. apply andb_true_iff in E as [E1 E2].
      split; [now apply Qgeb_le | now apply Qgtb_lt].
    + apply Qgtb_lt in Hnc. rewrite Hnc.
      eexists; exists m. repeat split.
  - intros Hno Hnc. subst dc nc. unfold match_row.
    destruct (direct_path (row_name r) (row_emp_id r) all_profiles) as [dm dc'].
    destruct (find_best_match (row_name r) all_profiles) as [nm nc'].
    cbn [fst snd] in *. unfold choose.
    destruct (Qgeb dc' nc' && Qgtb dc' (1 # 2)) eqn:E.
    + exfalso. apply Hno. apply andb_true_iff in E as [E1 E2].
      split; [now apply Qgeb_le | now apply Qgtb_lt].
    + destruct (Qgtb nc' (1 # 2)) eqn:E2.
      * exfalso. apply Hnc. now apply Qgtb_lt.
      * eexists. split; reflexivity.
  - intros Heq Hgt.
    destruct HID as (ch & p & Hch & Hty & _).
    + split; [|exact Hgt]. rewrite Heq. apply Qle_refl.
    + now exists ch.
Qed.

(** A row whose identifier and name both match with similarity 1, the
    name also matching an earlier roster entry: the identifier wins. *)
Example selection_tie :
  let roster : profiles_t :=
    [("3", [("PK", "EMP#3"); ("SK", "PROFILE"); ("Name", "Bob")]);
     ("7", [("PK", "EMP#7"); ("SK", "PROFILE"); ("Name", "Bob")])] in
  let r : row_t := [("Name", "Bob"); ("EmployeeID", "7")] in
  (snd (direct_path (row_name r) (row_emp_id r) roster)
   == snd (find_best_match (row_name r) roster))%Q
  /\ option_map nm_emp_id (fst (find_best_match (row_name r) roster)) = Some "3"
  /\ option_map match_type (match_row roster r []) = Some ID
  /\ option_map matched_emp_id (match_row roster r []) = Some "7".
Proof. repeat split. Qed.

(** ** Dictionaries keyed by strings *)

Lemma dict_get_In {V : Type} (k : string) (v : V) (d : Dict.t) :
  Dict.get String.eqb k d = Some v -> In (k, v) d.
Proof.
  induction d as [|[k' v'] d IH]; cbn [Dict.get]; [discriminate|].
  destruct (String.eqb_spec k k') as [->|Hne].
  - intros E; injection E as ->. now left.
  - intros E. right. now apply IH.
Qed.

Lemma dict_set_values {V : Type} (P : V -> Prop) (k : string) (v : V) (d : Dict.t) :
  P v -> Forall (fun e => P (snd e)) d ->
  Forall (fun e => P (snd e)) (Dict.set String.eqb k v d).
Proof.
  intros Hv. induction d as [|[k' v'] d IH]; cbn [Dict.set]; intros Hd.
  - now constructor.
  - inversion Hd as [|? ? H1 H2]; subst.
    destruct (String.eqb k k'); constructor; auto.
Qed.

Lemma dict_set_keys {V : Type} (k : string) (v : V) (d : Dict.t) :
  Dict.keys (Dict.set String.eqb k v d)
  = if existsb (String.eqb k) (Dict.keys d) then Dict.keys d
    else (Dict.keys d ++ [k])%list.
Proof.
  unfold Dict.keys. induction d as [|[k' v'] d IH]; cbn [Dict.set map fst existsb app];
    [reflexivity|].
  destruct (String.eqb k k'); cbn [orb map fst]; [reflexivity|].
  rewrite IH. now destruct (existsb (String.eqb k) (map fst d)).
Qed.

Lemma existsb_eqb_In (x : string) (l : list string) :
  existsb (String.eqb x) l = true <-> In x l.
Proof.
  rewrite existsb_exists. split.
  - intros (y & Hy & E). apply String.eqb_eq in E. now subst.
  - intros H. exists x. split; [exact H | apply String.eqb_refl].
Qed.

Lemma NoDup_snoc (x : string) (l : list string) :
  NoDup l -> ~ In x l -> NoDup (l ++ [x])%list.
Proof.
  intros Hl Hx. induction Hl as [|y l Hy Hl IH]; cbn [app].
  - constructor; [intros [] | constructor].
  - constructor.
    + rewrite in_app_iff. intros [H | [H | []]]; [contradiction|].
      subst. apply Hx. now left.
    + apply IH. intros H. apply Hx. now right.
Qed.

Lemma dict_set_NoDup {V : Type} (k : string) (v : V) (d : Dict.t) :
  NoDup (Dict.keys d) -> NoDup (Dict.keys (Dict.set String.eqb k v d)).
Proof.
  intros Hd. rewrite dict_set_keys.
  destruct (existsb (String.eqb k) (Dict.keys d)) eqn:E; [exact Hd|].
  apply NoDup_snoc; [exact Hd|].
  intros H. apply existsb_eqb_In in H. congruence.
Qed.

Lemma set_add_NoDup (x : string) (s : list string) :
  NoDup s -> NoDup (set_add x s).
Proof.
  intros Hs. unfold set_add.
  destruct (existsb (String.eqb x) s) eqn:E; [exact Hs|].
  apply NoDup_snoc; [exact Hs|].
  intros H. apply existsb_eqb_In in H. congruence.
Qed.

Lemma set_add_incl (x : string) (s l : list string) :
  In x l -> incl s l -> incl (set_add x s) l.
Proof.
  intros Hx Hs. unfold set_add.
  destruct (existsb (String.eqb x) s); [exact Hs|].
  apply incl_app; [exact Hs|]. intros y [<- | []]. exact Hx.
Qed.

(** ** The roster *)

(** Every profile kept by [get_all_employee_profiles] carries the key
    ["SK"], hence is a non-empty dictionary, and the identifiers are
    pairwise distinct. *)
Lemma roster_well_formed (scan : option (list item_t)) :
  Forall (fun e => dict_truthy (snd e) = true) (get_all_employee_profiles scan)
  /\ NoDup (Dict.keys (get_all_employee_profiles scan)).
Proof.
  destruct scan as [items|]; cbn [get_all_employee_profiles];
    [|split; constructor].
  assert (H : forall acc : profiles_t,
             Forall (fun e => dict_truthy (snd e) = true) acc /\ NoDup (Dict.keys acc) ->
             let res := fold_left
               (fun profiles item =>
                  if opt_string_eqb (Dict.get String.eqb "SK" item) "PROFILE" then
                    Dict.set String.eqb (PyStr.replace "EMP#" "" (get_str "PK" item "")) item
                             profiles
                  else profiles) items acc in
             Forall (fun e => dict_truthy (snd e) = true) res /\ NoDup (Dict.keys res)).
  { induction items as [|item items IH]; intros acc Hacc; cbn [fold_left]; [exact Hacc|].
    apply IH.
    destruct (opt_string_eqb (Dict.get String.eqb "SK" item) "PROFILE") eqn:E; [|exact Hacc].
    destruct Hacc as [Hv Hk]. split.
    - apply (dict_set_values (fun p => dict_truthy p = true)); [|exact Hv].
      destruct item; [discriminate E | reflexivity].
    - now apply dict_set_NoDup. }
  apply H. split; constructor.
Qed.

(** ** One row *)

(** The three outcomes of [match_row]. *)
Lemma match_row_cases (all_profiles : profiles_t) (r : row_t)
      (extra_names : list string) (ch : choice_t) :
  match_row all_profiles r extra_names = Some ch ->
  (match_type ch = ID
   /\ extra ch = extra_names
   /\ matched_emp_id ch = row_emp_id r
   /\ exists p, matched_profile ch = Some p
                /\ In (matched_emp_id ch, p) all_profiles)
  \/ (match_type ch = NAME
      /\ extra ch = extra_names
      /\ exists p, matched_profile ch = Some p
                   /\ In (matched_emp_id ch, p) all_profiles)
  \/ (match_type ch = NONE
      /\ matched_profile ch = None
      /\ confidence ch = 0%Q
      /\ matched_emp_id ch
         = (if PyStr.truthy (row_emp_id r) then row_emp_id r else "UNKNOWN")
      /\ extra ch
         = (if PyStr.truthy (row_name r)
            then (extra_names ++ [row_name r])%list else extra_names)).
Proof.
  unfold match_row.
  pose proof (name_match_in_roster (row_name r) all_profiles) as Hfb.
  destruct (direct_path_cases (row_name r) (row_emp_id r) all_profiles)
    as [E | (p & Hget & _ & E)]; rewrite E; clear E;
    destruct (find_best_match (row_name r) all_profiles) as [nm nc];
    unfold choose.
  - replace (Qgeb 0 nc && Qgtb 0 (1 # 2)) with false
      by (now rewrite andb_false_r).
    destruct (Qgtb nc (1 # 2)).
    + destruct nm as [m|]; [|discriminate].
      intros E; injection E as <-. right; left. cbn.
      repeat split.
      exists (nm_profile m). split; [reflexivity|]. now apply Hfb.
    + intros E; injection E as <-. right; right. cbn. repeat split.
  - destruct (Qgeb (sim (Some (row_name r)) (Some (get_str "Name" p ""))) nc
              && Qgtb (sim (Some (row_name r)) (Some (get_str "Name" p ""))) (1 # 2)).
    + intros E; injection E as <-. left. cbn. repeat split.
      exists p. split; [reflexivity|]. now apply dict_get_In.
    + destruct (Qgtb nc (1 # 2)).
      * destruct nm as [m|]; [|discriminate].
        intros E; injection E as <-. right; left. cbn.
        repeat split.
        exists (nm_profile m). split; [reflexivity|]. now apply Hfb.
      * intros E; injection E as <-. right; right. cbn. repeat split.
Qed.

(** A loop whose body keeps an invariant and never raises ends in a state
    that satisfies the invariant. *)
Lemma fold_opt_invariant {S A : Type} (f : S -> A -> option S) (I : S -> Prop) :
  (forall s x, I s -> exists s', f s x = Some s' /\ I s') ->
  forall l s, I s -> exists s', fold_opt f l s = Some s' /\ I s'.
Proof.
  intros Hstep. induction l as [|x l IH]; intros s Hs; cbn [fold_opt].
  - now exists s.
  - destruct (Hstep s x Hs) as (s1 & E & Hs1). rewrite E. now apply IH.
Qed.

Lemma overall_pct_total (matched : list string) (all_profiles : profiles_t) :
  exists q, overall_pct matched all_profiles = Some q.
Proof.
  unfold overall_pct. destruct all_profiles as [|e l]; cbn [dict_truthy];
    [eexists; reflexivity|].
  cbn [List.length]. rewrite Nat2Z.inj_succ. unfold py_truediv.
  destruct (Z.succ (Z.of_nat (List.length l))) eqn:E; try lia; eexists; reflexivity.
Qed.

(** [process] never raises, and its final loop state satisfies every
    invariant of the loop body. *)
Lemma process_invariant (I : state_t -> Prop) (blocks : list Block)
      (scan : option (list item_t)) (sheet_date sheet_id : string) :
  I init_state ->
  (forall st ir ch,
      I st ->
      match_row (get_all_employee_profiles scan) (snd ir) (extra_names st) = Some ch ->
      forall st', process_row sheet_date sheet_id (get_all_employee_profiles scan) st ir
                  = Some st' -> I st') ->
  exists rep,
    process blocks scan sheet_date sheet_id = Some rep
    /\ I (rp_state rep)
    /\ overall_pct (matched_employees (rp_state rep)) (get_all_employee_profiles scan)
       = Some (overall_match_pct rep).
Proof.
  intros Hinit Hstep. unfold process.
  destruct (fold_opt_invariant
              (process_row sheet_date sheet_id (get_all_employee_profiles scan)) I)
    with (l := enumerate 1 (parse_first_table blocks)) (s := init_state)
    as (st & E & Hst); [|exact Hinit|].
  - intros s [i r] Hs.
    destruct (match_row_total (get_all_employee_profiles scan) r (extra_names s))
      as [ch Hch].
    assert (E : exists s', process_row sheet_date sheet_id
                             (get_all_employee_profiles scan) s (i, r) = Some s').
    { unfold process_row. rewrite Hch. eexists; reflexivity. }
    destruct E as [s' E]. exists s'. split; [exact E|].
    eapply (Hstep s (i, r) ch); eauto.
  - rewrite E.
    destruct (overall_pct_total (matched_employees st) (get_all_employee_profiles scan))
      as [q Hq].
    rewrite Hq. eexists. split; [reflexivity | split; [exact Hst | exact Hq]].
Qed.

(** With a well-formed roster, a row has a matched profile exactly when
    its type is not [NONE]. *)
Lemma matched_iff_not_none (all_profiles : profiles_t) (r : row_t)
      (extra_names : list string) (ch : choice_t) :
  Forall (fun e => dict_truthy (snd e) = true) all_profiles ->
  match_row all_profiles r extra_names = Some ch ->
  opt_dict_truthy (matched_profile ch) = true <-> match_type ch <> NONE.
Proof.
  intros Hroster Hch. rewrite Forall_forall in Hroster.
  destruct (match_row_cases _ _ _ _ Hch)
    as [(Hty & _ & _ & p & Hp & Hin) | [(Hty & _ & p & Hp & Hin) | (Hty & Hp & _)]];
    rewrite Hty, Hp; cbn [opt_dict_truthy].
  - split; [discriminate | intros _; exact (Hroster _ Hin)].
  - split; [discriminate | intros _; exact (Hroster _ Hin)].
  - split; [discriminate | congruence].
Qed.


(** A name match with similarity exactly [18/20] is valid; one with
    similarity [16/18] is a match but not valid. *)
Example valid_boundary_rows :
  let roster (n : string) : profiles_t :=
    [("1", [("PK", "EMP#1"); ("SK", "PROFILE"); ("Name", n)])] in
  option_map (fun ch => (match_type ch, confidence ch,
                         valid_of (matched_profile ch) (confidence ch)))
             (match_row (roster "abcdefghij") [("Name", "abcdefghiz")] [])
  = Some (NAME, Qmake 18 20, true)
  /\ option_map (fun ch => (match_type ch, confidence ch,
                            valid_of (matched_profile ch) (confidence ch)))
                (match_row (roster "abcdefghi") [("Name", "abcdefghz")] [])
     = Some (NAME, Qmake 16 18, false).
Proof. split; vm_compute; reflexivity. Qed.


(** ** Unmatched rows *)

(** C4, refuted as stated: for an unmatched row the matched identifier is
    not the row's raw identifier but its normalized form.  The row of
    [spaced_id_sheet] carries the identifier "0 07"; with an empty roster it
    is unmatched and its matched identifier is "007". *)
Lemma unmatched_identifier_not_raw :
  parse_first_table spaced_id_sheet = [[("Name", "Bob"); ("EmployeeID", "0 07")]]
  /\ option_map (fun rep => map (fun rec => (rec_match_type rec, rec_matched_emp_id rec))
                                (processed_records (rp_state rep)))
                (process spaced_id_sheet (Some []) "2024-01-01" "")
     = Some [(NONE, "007")]
  /\ "007" <> "0 07".
Proof. repeat split; try (vm_compute; reflexivity). discriminate. Qed.

Lemma blank_row_no_match (all_profiles : profiles_t) (r : row_t)
      (extra_names : list string) :
  row_name r = "" -> row_emp_id r = "" ->
  match_row all_profiles r extra_names
  = Some {| matched_profile := None; confidence := 0%Q; match_type := NONE;
            matched_emp_id := "UNKNOWN"; extra := extra_names |}.
Proof.
  intros Hn He. unfold match_row. rewrite Hn, He. reflexivity.
Qed.

(** C4, amended: for every row classified [NONE], the matched identifier
    is the row's normalized identifier (the [EmployeeID] text with its
    spaces removed, trimmed), or "UNKNOWN" when that is empty, and the
    row's trimmed name is appended to the extra names exactly when it is
    not empty; a matched row adds no extra name.  A row whose name and
    identifier are both empty is unmatched, with identifier "UNKNOWN" and
    no extra name.  Over a whole sheet, the extra names are the non-empty
    names of the unmatched records, in order. *)
Theorem unmatched_row_defaults :
  (forall (all_profiles : profiles_t) (r : row_t) (extra_names : list string),
      exists ch,
        match_row all_profiles r extra_names = Some ch
        /\ (match_type ch = NONE ->
            matched_emp_id ch
            = (if PyStr.truthy (row_emp_id r) then row_emp_id r else "UNKNOWN")
            /\ extra ch
               = (if PyStr.truthy (row_name r)
                  then (extra_names ++ [row_name r])%list else extra_names))
        /\ (match_type ch <> NONE -> extra ch = extra_names)
        /\ (row_name r = "" -> row_emp_id r = "" ->
            match_type ch = NONE /\ matched_emp_id ch = "UNKNOWN"
            /\ extra ch = extra_names))
  /\ (forall r : row_t,
        row_emp_id r
        = PyStr.strip (PyStr.replace " " ""
                         (PyStr.or_default (Dict.get String.eqb "EmployeeID" r) "")))
  /\ (forall (blocks : list Block) (scan : option (list item_t))
             (sheet_date sheet_id : string),
        exists rep,
          process blocks scan sheet_date sheet_id = Some rep
          /\ extra_names (rp_state rep)
             = unmatched_names (processed_records (rp_state rep))
          /\ Forall (fun rec =>
                       rec_match_type rec = NONE ->
                       rec_matched_emp_id rec
                       = (if PyStr.truthy (rec_emp_id rec)
                          then rec_emp_id rec else "UNKNOWN"))
                    (processed_records (rp_state rep))).
Proof.
  split; [|split; [reflexivity|]].
  - intros all_profiles r extra_names.
    destruct (match_row_total all_profiles r extra_names) as [ch Hch].
    exists ch. split; [exact Hch|].
    pose proof (match_row_cases _ _ _ _ Hch) as Hc.
    split; [|split].
    + intros Hty.
      destruct Hc as [(Hty' & _) | [(Hty' & _) | (_ & _ & _ & Hid & Hex)]];
        [congruence | congruence | now split].
    + intros Hty.
      destruct Hc as [(_ & Hex & _) | [(_ & Hex & _) | (Hty' & _)]];
        [exact Hex | exact Hex | contradiction].
    + intros Hn He. rewrite (blank_row_no_match _ _ _ Hn He) in Hch.
      injection Hch as <-. repeat split.
  - intros blocks scan sheet_date sheet_id.
    destruct (process_invariant
                (fun st =>
                   extra_names st = unmatched_names (processed_records st)
                   /\ Forall (fun rec =>
                                rec_match_type rec = NONE ->
                                rec_matched_emp_id rec
                                = (if PyStr.truthy (rec_emp_id rec)
                                   then rec_emp_id rec else "UNKNOWN"))
                             (processed_records st))
                blocks scan sheet_date sheet_id) as (rep & E & H & _).
    + split; [reflexivity | constructor].
    + intros st [i r] ch [Hex Hid] Hch st' Hst'. unfold process_row in Hst'.
      cbn [snd] in Hch. rewrite Hch in Hst'. injection Hst' as <-.
      cbn [processed_records extra_names].
      pose proof (match_row_cases _ _ _ _ Hch) as Hc.
      split.
      * unfold unmatched_names in *. rewrite filter_app, map_app, <- Hex.
        cbn [filter record_of rec_match_type rec_textract_name].
        destruct Hc as [(Hty & -> & _) | [(Hty & -> & _) | (Hty & _ & _ & _ & ->)]];
          rewrite Hty; cbn [match_type_eqb andb map].
        -- now rewrite app_nil_r.
        -- now rewrite app_nil_r.
        -- destruct (PyStr.truthy (row_name r)); cbn [map];
             [reflexivity | now rewrite app_nil_r].
      * apply Forall_app. split; [exact Hid|]. constructor; [|constructor].
        cbn [record_of rec_match_type rec_matched_emp_id rec_emp_id]. intros Hty.
        destruct Hc as [(Hty' & _) | [(Hty' & _) | (_ & _ & _ & Hm & _)]];
          [congruence | congruence | exact Hm].
    + exists rep. now split.
Qed.

(** ** Overall match percentage *)

(** C8: for every sheet and roster, [process] returns a report (the
    division never fails), whose overall match percentage is 0 for an empty
    roster and otherwise the number of matched identifiers divided by the
    number of roster identifiers, times 100.  The matched identifiers are
    distinct roster identifiers, namely those of the records whose type is
    not [NONE]; the roster identifiers are distinct too. *)
Theorem overall_match_percentage :
  forall (blocks : list Block) (scan : option (list item_t))
         (sheet_date sheet_id : string),
    let roster := get_all_employee_profiles scan in
    exists rep,
      process blocks scan sheet_date sheet_id = Some rep
      /\ NoDup (Dict.keys roster)
      /\ NoDup (matched_employees (rp_state rep))
      /\ incl (matched_employees (rp_state rep)) (Dict.keys roster)
      /\ (forall x, In x (matched_employees (rp_state rep)) <->
                    matched_ids_of (processed_records (rp_state rep)) x)
      /\ (roster = [] -> overall_match_pct rep = 0%Q)
      /\ (roster <> [] ->
          overall_match_pct rep
          = (Qmake (Z.of_nat (List.length (matched_employees (rp_state rep))))
                   (Pos.of_nat (List.length roster)) * 100)%Q)
      /\ overall_pct (matched_employees (rp_state rep)) roster
         = Some (overall_match_pct rep).
Proof.
  intros blocks scan sheet_date sheet_id roster.
  destruct (roster_well_formed scan) as [Hvals Hkeys].
  destruct (process_invariant
              (fun st =>
                 NoDup (matched_employees st)
                 /\ incl (matched_employees st) (Dict.keys roster)
                 /\ (forall x, In x (matched_employees st) <->
                               matched_ids_of (processed_records st) x))
              blocks scan sheet_date sheet_id) as (rep & E & (H1 & H2 & H3) & Hpct).
  - split; [constructor | split; [intros x [] |]].
    intros x. split; [intros [] | intros H; inversion H].
  - intros st [i r] ch (Hnd & Hin & Hiff) Hch st' Hst'. unfold process_row in Hst'.
    cbn [snd] in Hch. rewrite Hch in Hst'. injection Hst' as <-.
    cbn [matched_employees processed_records].
    pose proof (matched_iff_not_none _ _ _ _ Hvals Hch) as Hm.
    assert (Hkey : match_type ch <> NONE -> In (matched_emp_id ch) (Dict.keys roster)).
    { intros Hty.
      destruct (match_row_cases _ _ _ _ Hch)
        as [(_ & _ & _ & p & _ & Hp) | [(_ & _ & p & _ & Hp) | (Hty' & _)]];
        [| | contradiction];
        apply (in_map fst) in Hp; exact Hp. }
    destruct (opt_dict_truthy (matched_profile ch)) eqn:Et.
    + assert (Hty : match_type ch <> NONE) by now apply Hm.
      split; [now apply set_add_NoDup|].
      split; [apply set_add_incl; [now apply Hkey | exact Hin]|].
      intros x. unfold matched_ids_of. rewrite Exists_app, Exists_cons, Exists_nil.
      cbn [record_of rec_match_type rec_matched_emp_id].
      fold (matched_ids_of (processed_records st) x). rewrite <- Hiff.
      unfold set_add.
      destruct (existsb (String.eqb (matched_emp_id ch)) (matched_employees st)) eqn:Ex.
      * apply existsb_eqb_In in Ex. split; [tauto|].
        intros [H | [[_ <-] | []]]; assumption.
      * rewrite in_app_iff. cbn [In]. split.
        -- intros [H | [<- | []]]; [now left | right; left; now split].
        -- intros [H | [[_ <-] | []]]; [now left | right; now left].
    + assert (Hty : ~ match_type ch <> NONE) by (rewrite <- Hm; congruence).
      split; [exact Hnd|]. split; [exact Hin|].
      intros x. unfold matched_ids_of. rewrite Exists_app, Exists_cons, Exists_nil.
      cbn [record_of rec_match_type rec_matched_emp_id].
      fold (matched_ids_of (processed_records st) x). rewrite <- Hiff. tauto.
  - exists rep. repeat (split; [assumption|]).
    fold roster in Hpct. split; [|split; [|exact Hpct]].
    + intros Hr. rewrite Hr in Hpct. cbn in Hpct. congruence.
    + intros Hr. unfold overall_pct in Hpct.
      destruct roster as [|e l]; [congruence|]. cbn [dict_truthy] in Hpct.
      unfold py_truediv in Hpct. cbn [List.length] in *.
      rewrite Nat2Z.inj_succ in Hpct.
      destruct (Z.succ (Z.of_nat (List.length l))) as [|p|p] eqn:Ep; try lia.
      injection Hpct as <-. do 2 f_equal. lia.
Qed.

(** The percentage of an empty roster is 0 whatever was matched, and the
    quotient of a non-empty roster is defined. *)
Example overall_pct_examples :
  overall_pct [] [] = Some 0%Q
  /\ overall_pct ["7"] [("7", [("SK", "PROFILE")]); ("8", [("SK", "PROFILE")])]
     = Some (Qmake 1 2 * 100)%Q.
Proof. split; reflexivity. Qed.

(** ** The matcher: blocks stay inside their window *)

Section MatcherRange.
Variables a b : list ascii.

Lemma j2lenget_set (j k j0 : nat) (d : Difflib.j2len_t) :
  Difflib.j2lenget (Dict.set Nat.eqb j k d) j0
  = match j0 with
    | O => O
    | S j' => if Nat.eqb j' j then k else Difflib.j2lenget d j0
    end.
Proof.
  destruct j0 as [|j']; cbn [Difflib.j2lenget]; [reflexivity|].
  rewrite (dict_get_set Nat.eqb Nat.eqb_eq). now destruct (Nat.eqb j' j).
Qed.

Lemma row_loop_range (j2len : Difflib.j2len_t) (alo ahi blo bhi i : nat)
      (js : list nat) (newj2len : Difflib.j2len_t) (best : Difflib.Match) :
  alo <= i < ahi ->
  lens_bounded alo blo i j2len ->
  lens_bounded alo blo (S i) newj2len ->
  in_window alo ahi blo bhi best ->
  let res := Difflib.row_loop j2len i blo bhi js newj2len best in
  lens_bounded alo blo (S i) (fst res) /\ in_window alo ahi blo bhi (snd res).
Proof.
  intros Hi Hold. revert newj2len best.
  induction js as [|j js IH]; intros newj2len best Hnew Hbest;
    cbn [Difflib.row_loop]; [now split|].
  destruct (Nat.ltb_spec j blo) as [Hlt|Hge]; [now apply IH|].
  destruct (Nat.leb_spec bhi j) as [Hhi|Hlo]; [now split|].
  destruct (Hold j Hge) as [Ha Hb].
  apply IH.
  - intros j0 Hj0. rewrite j2lenget_set. destruct j0 as [|j']; [lia|].
    destruct (Nat.eqb_spec j' j) as [->|Hne]; [lia | now apply Hnew].
  - destruct (Nat.ltb_spec (Difflib.m_size best) (Difflib.j2lenget j2len j + 1));
      [|exact Hbest].
    unfold in_window; cbn [Difflib.m_a Difflib.m_b Difflib.m_size]. lia.
Qed.

Lemma lens_bounded_nil (alo blo i : nat) : alo <= i -> lens_bounded alo blo i [].
Proof. intros Hi [|j] Hj; cbn; lia. Qed.

Lemma main_loop_range (alo ahi blo bhi : nat) :
  alo <= ahi -> blo <= bhi ->
  in_window alo ahi blo bhi (snd (Difflib.main_loop a b alo ahi blo bhi)).
Proof.
  intros Ha Hb. unfold Difflib.main_loop.
  set (step := fun (st : Difflib.j2len_t * Difflib.Match) i =>
         Difflib.row_loop (fst st) i blo bhi
           match Dict.get Difflib.ascii_eqb (Difflib.at_a a i) (Difflib.chain_b b) with
           | Some l => l
           | None => []
           end [] (snd st)).
  assert (H : forall n i st,
             alo <= i -> i + n <= ahi ->
             lens_bounded alo blo i (fst st) -> in_window alo ahi blo bhi (snd st) ->
             in_window alo ahi blo bhi (snd (fold_left step (seq i n) st))).
  { induction n as [|n IH]; intros i st Hi Hn Hl Hw; cbn [seq fold_left]; [exact Hw|].
    assert (Hrow : lens_bounded alo blo (S i) (fst (step st i))
                   /\ in_window alo ahi blo bhi (snd (step st i))).
    { unfold step. apply row_loop_range; try assumption; try lia.
      apply lens_bounded_nil; lia. }
    destruct Hrow as [H1 H2]. apply IH; try assumption; lia. }
  apply H; try lia.
  - apply lens_bounded_nil; lia.
  - unfold in_window; cbn. lia.
Qed.

Lemma extend_back_range (P : ascii -> bool) (alo ahi blo bhi n : nat)
      (m : Difflib.Match) :
  in_window alo ahi blo bhi m ->
  in_window alo ahi blo bhi (Difflib.extend_back a b P alo blo n m).
Proof.
  revert m; induction n as [|n IH]; intros m Hm; cbn [Difflib.extend_back];
    [exact Hm|].
  destruct (Nat.ltb_spec alo (Difflib.m_a m)); cbn [andb]; [|exact Hm].
  destruct (Nat.ltb_spec blo (Difflib.m_b m)); cbn [andb]; [|exact Hm].
  destruct (P _ && Difflib.ascii_eqb _ _); [|exact Hm].
  apply IH. unfold in_window in *; cbn [Difflib.m_a Difflib.m_b Difflib.m_size]. lia.
Qed.

Lemma extend_fwd_range (P : ascii -> bool) (alo ahi blo bhi n : nat)
      (m : Difflib.Match) :
  in_window alo ahi blo bhi m ->
  in_window alo ahi blo bhi (Difflib.extend_fwd a b P ahi bhi n m).
Proof.
  revert m; induction n as [|n IH]; intros m Hm; cbn [Difflib.extend_fwd];
    [exact Hm|].
  destruct (Nat.ltb_spec (Difflib.m_a m + Difflib.m_size m) ahi); cbn [andb];
    [|exact Hm].
  destruct (Nat.ltb_spec (Difflib.m_b m + Difflib.m_size m) bhi); cbn [andb];
    [|exact Hm].
  destruct (P _ && Difflib.ascii_eqb _ _); [|exact Hm].
  apply IH. unfold in_window in *; cbn [Difflib.m_a Difflib.m_b Difflib.m_size]. lia.
Qed.

Lemma find_longest_match_range (alo ahi blo bhi : nat) :
  alo <= ahi -> blo <= bhi ->
  in_window alo ahi blo bhi (Difflib.find_longest_match a b alo ahi blo bhi).
Proof.
  intros Ha Hb. unfold Difflib.find_longest_match.
  apply extend_fwd_range, extend_back_range, extend_fwd_range, extend_back_range.
  now apply main_loop_range.
Qed.
End MatcherRange.

(** ** The matcher: the work list empties, and the blocks fit *)

Lemma Zpos_of_nat (n : nat) : n <> 0 -> Z.pos (Pos.of_nat n) = Z.of_nat n.
Proof.
  intros Hn. destruct n as [|n]; [congruence|].
  now rewrite <- Pos.of_nat_succ, Zpos_P_of_succ_nat, Nat2Z.inj_succ.
Qed.

Lemma list_sum_cons (x : nat) (l : list nat) : list_sum (x :: l) = x + list_sum l.
Proof. reflexivity. Qed.

Lemma list_sum_nil : list_sum [] = 0.
Proof. reflexivity. Qed.

Ltac simp_sums :=
  unfold sum_sizes in *;
  cbn [map window_cost span_a span_b Difflib.m_size] in *;
  rewrite ?map_app, ?list_sum_app, ?list_sum_cons, ?list_sum_nil in *;
  cbn [map] in *;
  rewrite ?list_sum_cons, ?list_sum_nil in *.

Section MatcherBlocks.
Variables a b : list ascii.

Lemma sum_sizes_app (l1 l2 : list Difflib.Match) :
  sum_sizes (l1 ++ l2) = sum_sizes l1 + sum_sizes l2.
Proof. unfold sum_sizes. now rewrite map_app, list_sum_app. Qed.

(** With fuel for the cost of every window, [blocks_loop] returns, and
    the sizes it adds stay within the spans of the windows. *)
Lemma blocks_loop_terminates (fuel : nat) :
  forall (queue : list (nat * nat * nat * nat)) (acc : list Difflib.Match),
    Forall window_ok queue ->
    list_sum (map window_cost queue) <= fuel ->
    exists res,
      Difflib.blocks_loop a b fuel queue acc = Some res
      /\ sum_sizes res <= sum_sizes acc + list_sum (map span_a queue)
      /\ sum_sizes res <= sum_sizes acc + list_sum (map span_b queue).
Proof.
  induction fuel as [|fuel IH]; intros queue acc Hok Hcost.
  - destruct queue as [|[[[alo ahi] blo] bhi] queue].
    + exists acc. simp_sums. cbn [Difflib.blocks_loop]. repeat split; lia.
    + simp_sums. lia.
  - destruct queue as [|[[[alo ahi] blo] bhi] queue].
    + exists acc. simp_sums. cbn [Difflib.blocks_loop]. repeat split; lia.
    + cbn [Difflib.blocks_loop].
      inversion Hok as [|? ? Hw0 Hq]; subst. cbn in Hw0. destruct Hw0 as [Ha Hb].
      pose proof (find_longest_match_range a b alo ahi blo bhi Ha Hb) as Hw.
      set (x := Difflib.find_longest_match a b alo ahi blo bhi) in *.
      destruct Hw as (W1 & W2 & W3 & W4).
      destruct (Nat.eqb_spec (Difflib.m_size x) 0) as [Hk|Hk].
      * destruct (IH queue acc Hq) as (res & E & R1 & R2); [simp_sums; lia|].
        exists res. split; [exact E|]. simp_sums. lia.
      * set (q1 := if (alo <? Difflib.m_a x)%nat && (blo <? Difflib.m_b x)%nat
                   then (alo, Difflib.m_a x, blo, Difflib.m_b x) :: queue
                   else queue).
        set (q2 := if (Difflib.m_a x + Difflib.m_size x <? ahi)%nat
                      && (Difflib.m_b x + Difflib.m_size x <? bhi)%nat
                   then (Difflib.m_a x + Difflib.m_size x, ahi,
                         Difflib.m_b x + Difflib.m_size x, bhi) :: q1
                   else q1).
        assert (Hq1 : Forall window_ok q1
                      /\ list_sum (map window_cost q1)
                         <= 2 * (Difflib.m_a x - alo) + 1
                            + list_sum (map window_cost queue)
                      /\ list_sum (map span_a q1)
                         <= Difflib.m_a x - alo + list_sum (map span_a queue)
                      /\ list_sum (map span_b q1)
                         <= Difflib.m_b x - blo + list_sum (map span_b queue)).
        { subst q1. destruct ((alo <? Difflib.m_a x)%nat && (blo <? Difflib.m_b x)%nat).
          - split; [constructor; [split; lia | exact Hq]|].
            simp_sums. lia.
          - split; [exact Hq | lia]. }
        destruct Hq1 as (O1 & C1 & A1 & B1).
        assert (Hq2 : Forall window_ok q2
                      /\ list_sum (map window_cost q2)
                         <= 2 * (ahi - (Difflib.m_a x + Difflib.m_size x)) + 1
                            + list_sum (map window_cost q1)
                      /\ list_sum (map span_a q2)
                         <= ahi - (Difflib.m_a x + Difflib.m_size x)
                            + list_sum (map span_a q1)
                      /\ list_sum (map span_b q2)
                         <= bhi - (Difflib.m_b x + Difflib.m_size x)
                            + list_sum (map span_b q1)).
        { subst q2.
          destruct ((Difflib.m_a x + Difflib.m_size x <? ahi)%nat
                    && (Difflib.m_b x + Difflib.m_size x <? bhi)%nat).
          - split; [constructor; [split; lia | exact O1]|].
            simp_sums. lia.
          - split; [exact O1 | lia]. }
        destruct Hq2 as (O2 & C2 & A2 & B2).
        destruct (IH q2 (acc ++ [x])%list O2) as (res & E & R1 & R2);
          [simp_sums; lia|].
        exists res. split; [exact E|]. simp_sums. lia.
Qed.

(** The scan of [get_matching_blocks] always completes. *)
Lemma blocks_loop_result :
  exists res,
    Difflib.blocks_loop a b (Difflib.fuel_for (List.length a))
      [(0, List.length a, 0, List.length b)] [] = Some res
    /\ sum_sizes res <= List.length a
    /\ sum_sizes res <= List.length b.
Proof.
  destruct (blocks_loop_terminates (Difflib.fuel_for (List.length a))
              [(0, List.length a, 0, List.length b)] [])
    as (res & E & R1 & R2).
  - constructor; [split; lia | constructor].
  - unfold Difflib.fuel_for. simp_sums. lia.
  - exists res. simp_sums. split; [exact E | split; lia].
Qed.

Lemma sum_sizes_cons (x : Difflib.Match) (l : list Difflib.Match) :
  sum_sizes (x :: l) = Difflib.m_size x + sum_sizes l.
Proof. reflexivity. Qed.

Lemma sum_sizes_nil : sum_sizes [] = 0.
Proof. reflexivity. Qed.

Lemma sum_sizes_insert (x : Difflib.Match) (l : list Difflib.Match) :
  sum_sizes (Difflib.insert_sorted x l) = Difflib.m_size x + sum_sizes l.
Proof.
  induction l as [|y l IH]; cbn [Difflib.insert_sorted]; [reflexivity|].
  destruct (Difflib.match_leb x y); [reflexivity|].
  rewrite !sum_sizes_cons, IH. lia.
Qed.

Lemma sum_sizes_sort (l : list Difflib.Match) :
  sum_sizes (Difflib.sort_blocks l) = sum_sizes l.
Proof.
  induction l as [|x l IH]; [reflexivity|].
  cbn [Difflib.sort_blocks fold_right]. fold (Difflib.sort_blocks l).
  now rewrite sum_sizes_insert, IH.
Qed.

Lemma sum_sizes_collapse (l : list Difflib.Match) :
  forall (i1 j1 k1 : nat) (acc : list Difflib.Match),
    let '(i2, j2, k2, res) := Difflib.collapse i1 j1 k1 l acc in
    k2 + sum_sizes res = k1 + sum_sizes l + sum_sizes acc.
Proof.
  induction l as [|x l IH]; intros i1 j1 k1 acc; cbn [Difflib.collapse].
  - rewrite sum_sizes_nil. lia.
  - destruct ((i1 + k1 =? Difflib.m_a x)%nat && (j1 + k1 =? Difflib.m_b x)%nat).
    + specialize (IH i1 j1 (k1 + Difflib.m_size x) acc).
      destruct (Difflib.collapse i1 j1 (k1 + Difflib.m_size x) l acc)
        as [[[i2 j2] k2] res].
      rewrite IH, sum_sizes_cons. lia.
    + set (acc' := if (k1 =? 0)%nat then acc
                   else (acc ++ [{| Difflib.m_a := i1; Difflib.m_b := j1;
                                    Difflib.m_size := k1 |}])%list).
      specialize (IH (Difflib.m_a x) (Difflib.m_b x) (Difflib.m_size x) acc').
      destruct (Difflib.collapse (Difflib.m_a x) (Difflib.m_b x) (Difflib.m_size x) l acc')
        as [[[i2 j2] k2] res].
      rewrite IH, sum_sizes_cons.
      assert (sum_sizes acc' = k1 + sum_sizes acc); [|lia].
      subst acc'. destruct (Nat.eqb_spec k1 0) as [->|]; [reflexivity|].
      rewrite sum_sizes_app, sum_sizes_cons, sum_sizes_nil.
      cbn [Difflib.m_size]. lia.
Qed.

Lemma fold_sizes (l : list Difflib.Match) (s : nat) :
  fold_left (fun s t => s + Difflib.m_size t) l s = s + sum_sizes l.
Proof.
  revert s; induction l as [|x l IH]; intros s; cbn [fold_left].
  - rewrite sum_sizes_nil. lia.
  - rewrite IH, sum_sizes_cons. lia.
Qed.

(** [matches] is the total size of the blocks found by the scan: sorting
    them, merging the adjacent ones and appending the sentinel leave the
    total unchanged. *)
Lemma matches_sum :
  exists res,
    Difflib.blocks_loop a b (Difflib.fuel_for (List.length a))
      [(0, List.length a, 0, List.length b)] [] = Some res
    /\ Difflib.matches a b = sum_sizes res.
Proof.
  destruct blocks_loop_result as (res & E & _).
  exists res. split; [exact E|].
  unfold Difflib.matches, Difflib.get_matching_blocks. rewrite E.
  pose proof (sum_sizes_collapse (Difflib.sort_blocks res) 0 0 0 []) as Hc.
  destruct (Difflib.collapse 0 0 0 (Difflib.sort_blocks res) [])
    as [[[i1 j1] k1] na].
  rewrite sum_sizes_sort in Hc. rewrite fold_sizes, sum_sizes_app.
  rewrite sum_sizes_nil in Hc.
  destruct (Nat.eqb_spec k1 0) as [->|Hk].
  - rewrite sum_sizes_cons, sum_sizes_nil. cbn [Difflib.m_size]. lia.
  - rewrite sum_sizes_app, !sum_sizes_cons, sum_sizes_nil. cbn [Difflib.m_size]. lia.
Qed.

Lemma matches_bounded :
  Difflib.matches a b <= List.length a /\ Difflib.matches a b <= List.length b.
Proof.
  destruct blocks_loop_result as (res & E & R1 & R2).
  destruct matches_sum as (res' & E' & M).
  rewrite E in E'. injection E' as <-. rewrite M. now split.
Qed.

(** The ratio lies in [[0, 1]]. *)
Lemma ratio_bounds : (0 <= Difflib.ratio a b <= 1)%Q.
Proof.
  unfold Difflib.ratio. destruct matches_bounded as [Ma Mb].
  destruct (Nat.eqb_spec (List.length a + List.length b) 0) as [E|E].
  - split; discriminate.
  - unfold Qle; cbn [Qnum Qden]. split; [lia|].
    rewrite Z.mul_1_r, Z.mul_1_l.
    rewrite (Zpos_of_nat _ E). lia.
Qed.
End MatcherBlocks.

(** ** The matcher: the index of [b] *)

Lemma chain_loop_get (l : list ascii) :
  forall (i : nat) (d : Difflib.b2j_t) (c : ascii),
    Dict.get Difflib.ascii_eqb c (Difflib.chain_loop i l d)
    = match pos_from i l c with
      | [] => Dict.get Difflib.ascii_eqb c d
      | ps => Some ((match Dict.get Difflib.ascii_eqb c d with
                     | Some old => old
                     | None => []
                     end) ++ ps)%list
      end.
Proof.
  induction l as [|x l IH]; intros i d c; cbn [Difflib.chain_loop pos_from];
    [reflexivity|].
  rewrite IH, (dict_get_set Difflib.ascii_eqb ascii_eqb_eq).
  destruct (Ascii.eqb_spec x c) as [->|Hne].
  - unfold Difflib.ascii_eqb. rewrite !Ascii.eqb_refl.
    destruct (pos_from (S i) l c) as [|p ps]; [reflexivity|].
    now rewrite <- app_assoc.
  - unfold Difflib.ascii_eqb.
    destruct (Ascii.eqb_spec x c) as [|_]; [contradiction|].
    destruct (Ascii.eqb_spec c x) as [E|_]; [symmetry in E; contradiction|].
    reflexivity.
Qed.

Lemma chain_loop_NoDup (l : list ascii) :
  forall (i : nat) (d : Difflib.b2j_t),
    NoDup (Dict.keys d) -> NoDup (Dict.keys (Difflib.chain_loop i l d)).
Proof.
  induction l as [|x l IH]; intros i d Hd; cbn [Difflib.chain_loop]; [exact Hd|].
  apply IH. now apply (dict_set_NoDup_gen Difflib.ascii_eqb ascii_eqb_eq).
Qed.

(** The index holds, for a character, either nothing (the character is
    absent from [b] or was purged as popular) or all its positions. *)
Lemma lookup_cases (b : list ascii) (c : ascii) :
  lookup b c = [] \/ lookup b c = pos_from 0 b c.
Proof.
  unfold lookup, Difflib.chain_b, Difflib.purge_popular.
  assert (Hget : Dict.get Difflib.ascii_eqb c (Difflib.chain_loop 0 b [])
                 = match pos_from 0 b c with [] => None | ps => Some ps end).
  { rewrite chain_loop_get. cbn [Dict.get]. now destruct (pos_from 0 b c). }
  destruct (200 <=? List.length b)%nat.
  - rewrite (dict_get_filter Difflib.ascii_eqb ascii_eqb_eq)
      by (apply chain_loop_NoDup; constructor).
    rewrite Hget. destruct (pos_from 0 b c) as [|p ps]; [now left|].
    destruct (negb _); [now right | now left].
  - rewrite Hget. destruct (pos_from 0 b c); [now left | now right].
Qed.

Lemma pos_from_In (l : list ascii) :
  forall (start j : nat) (c : ascii),
    In j (pos_from start l c) ->
    start <= j < start + List.length l /\ nth (j - start) l zero = c.
Proof.
  induction l as [|x l IH]; intros start j c; cbn [pos_from]; [intros []|].
  assert (Hrec : In j (pos_from (S start) l c) ->
                 start <= j < start + List.length (x :: l)
                 /\ nth (j - start) (x :: l) zero = c).
  { intros H. destruct (IH _ _ _ H) as [Hr Hn]. cbn [List.length]. split; [lia|].
    replace (j - start) with (S (j - S start)) by lia. exact Hn. }
  destruct (Ascii.eqb_spec x c) as [->|Hne]; unfold Difflib.ascii_eqb.
  - rewrite Ascii.eqb_refl. intros [<- | H]; [|now apply Hrec].
    cbn [List.length]. split; [lia|]. now rewrite Nat.sub_diag.
  - destruct (Ascii.eqb_spec x c); [contradiction | exact Hrec].
Qed.

(** The positions of [c] split around any one of them. *)
Lemma pos_from_split (l : list ascii) :
  forall (start p : nat) (c : ascii),
    p < List.length l -> nth p l zero = c ->
    exists l1 l2,
      pos_from start l c = (l1 ++ (start + p) :: l2)%list
      /\ Forall (fun j => j < start + p) l1
      /\ Forall (fun j => start + p < j) l2.
Proof.
  induction l as [|x l IH]; intros start p c Hp Hc; cbn [List.length] in Hp; [lia|].
  destruct p as [|p]; cbn [nth] in Hc.
  - subst x. cbn [pos_from]. unfold Difflib.ascii_eqb. rewrite Ascii.eqb_refl.
    exists [], (pos_from (S start) l c). rewrite Nat.add_0_r.
    split; [reflexivity|]. split; [constructor|].
    apply Forall_forall. intros j Hj. apply pos_from_In in Hj. lia.
  - destruct (IH (S start) p c) as (l1 & l2 & E & H1 & H2); [lia | exact Hc|].
    cbn [pos_from]. rewrite E.
    replace (S start + p) with (start + S p) in * by lia.
    destruct (Difflib.ascii_eqb x c).
    + exists (start :: l1), l2. split; [reflexivity|].
      split; [constructor; [lia | exact H1] | exact H2].
    + exists l1, l2. now split.
Qed.

(** ** The matcher on two equal sequences *)

Section Identical.
Variable b : list ascii.

Lemma run_eq (i : nat) :
  run b i = if indexed b (Difflib.at_b b i) then run_before b i + 1 else 0.
Proof. destruct i; reflexivity. Qed.

(** Without [continue] and [break], the row loop is a plain fold. *)
Lemma row_loop_fold (j2len : Difflib.j2len_t) (i bhi : nat) (js : list nat) :
  Forall (fun j => j < bhi) js ->
  forall (newj2len : Difflib.j2len_t) (best : Difflib.Match),
    Difflib.row_loop j2len i 0 bhi js newj2len best
    = (fold_left (fun d j => Dict.set Nat.eqb j (len_at j2len j) d) js newj2len,
       fold_left (best_upd j2len i) js best).
Proof.
  induction js as [|j js IH]; intros Hall newj2len best;
    cbn [Difflib.row_loop fold_left]; [reflexivity|].
  inversion Hall as [|? ? Hj Hjs]; subst.
  destruct (Nat.leb_spec bhi j); [lia|].
  cbn [Nat.ltb Nat.leb]. now rewrite IH.
Qed.

Lemma fold_best_keep (j2len : Difflib.j2len_t) (i : nat) (js : list nat)
      (best : Difflib.Match) :
  Forall (fun j => len_at j2len j <= Difflib.m_size best) js ->
  fold_left (best_upd j2len i) js best = best.
Proof.
  induction js as [|j js IH]; intros Hall; cbn [fold_left]; [reflexivity|].
  inversion Hall as [|? ? Hj Hjs]; subst.
  unfold best_upd at 2.
  destruct (Nat.ltb_spec (Difflib.m_size best) (len_at j2len j)); [lia | now apply IH].
Qed.

Lemma fold_set_get (f : nat -> nat) (js : list nat) :
  forall (d : Difflib.j2len_t) (j : nat),
    Dict.get Nat.eqb j (fold_left (fun d j => Dict.set Nat.eqb j (f j) d) js d)
    = if existsb (Nat.eqb j) js then Some (f j) else Dict.get Nat.eqb j d.
Proof.
  induction js as [|x js IH]; intros d j; cbn [fold_left existsb]; [reflexivity|].
  rewrite IH, (dict_get_set Nat.eqb Nat.eqb_eq).
  destruct (Nat.eqb_spec j x) as [->|]; cbn [orb].
  - now destruct (existsb (Nat.eqb x) js).
  - reflexivity.
Qed.

Lemma row_inv_step (i : nat) (j2len : Difflib.j2len_t) (best : Difflib.Match) :
  i < List.length b ->
  row_inv b i j2len best ->
  let res := Difflib.row_loop j2len i 0 (List.length b)
               (lookup b (Difflib.at_b b i)) [] best in
  row_inv b (S i) (fst res) (snd res).
Proof.
  intros Hi (P1 & P2 & P3 & P4). cbv zeta.
  pose proof (run_eq i) as Hrun.
  destruct (indexed b (Difflib.at_b b i)) eqn:Hidx.
  - (* the character of row [i] is indexed: all its positions are visited *)
    assert (Hjs : lookup b (Difflib.at_b b i) = pos_from 0 b (Difflib.at_b b i)).
    { destruct (lookup_cases b (Difflib.at_b b i)) as [E|E]; [|exact E].
      unfold indexed in Hidx. now rewrite E in Hidx. }
    destruct (pos_from_split b 0 i (Difflib.at_b b i) Hi eq_refl)
      as (l1 & l2 & Esplit & Hl1 & Hl2).
    cbn [Nat.add] in Esplit, Hl1, Hl2.
    assert (Hall : forall j, In j (lookup b (Difflib.at_b b i)) ->
                             j < List.length b /\ run b j = run_before b j + 1).
    { intros j Hj. rewrite Hjs in Hj. apply pos_from_In in Hj.
      destruct Hj as [Hr Hc]. rewrite Nat.sub_0_r in Hc. split; [lia|].
      rewrite run_eq. unfold Difflib.at_b at 1. now rewrite Hc, Hidx. }
    assert (Hlen : forall j, In j (lookup b (Difflib.at_b b i)) ->
                             len_at j2len j <= run b i /\ len_at j2len j <= run b j).
    { intros j Hj. destruct (Hall j Hj) as [_ Hr]. destruct (P1 j) as [B1 B2].
      unfold len_at. lia. }
    assert (Hdiag : len_at j2len i = run b i) by (unfold len_at; lia).
    rewrite row_loop_fold
      by (apply Forall_forall; intros j Hj; now apply Hall).
    cbn [fst snd].
    set (best1 := best_upd j2len i best i).
    assert (Hbest : fold_left (best_upd j2len i) (lookup b (Difflib.at_b b i)) best
                    = best1).
    { rewrite Hjs, Esplit, fold_left_app. cbn [fold_left].
      rewrite (fold_best_keep j2len i l1 best).
      - apply fold_best_keep. apply Forall_forall. intros j Hj.
        assert (Hin : In j (lookup b (Difflib.at_b b i))).
        { rewrite Hjs, Esplit. apply in_or_app. right. now right. }
        destruct (Hlen j Hin) as [B _].
        subst best1. unfold best_upd.
        destruct (Nat.ltb_spec (Difflib.m_size best) (len_at j2len i));
          cbn [Difflib.m_size]; lia.
      - apply Forall_forall. intros j Hj.
        assert (Hin : In j (lookup b (Difflib.at_b b i))).
        { rewrite Hjs, Esplit. apply in_or_app. now left. }
        destruct (Hlen j Hin) as [_ B].
        rewrite Forall_forall in Hl1. specialize (Hl1 j Hj).
        specialize (P4 j Hl1). lia. }
    rewrite Hbest.
    assert (Hsize : run b i <= Difflib.m_size best1
                    /\ Difflib.m_size best <= Difflib.m_size best1
                    /\ Difflib.m_a best1 = Difflib.m_b best1).
    { subst best1. unfold best_upd.
      destruct (Nat.ltb_spec (Difflib.m_size best) (len_at j2len i));
        cbn [Difflib.m_size Difflib.m_a Difflib.m_b]; repeat split; lia. }
    destruct Hsize as (S1 & S2 & S3).
    assert (Hget : forall j,
               Difflib.j2lenget
                 (fold_left (fun d j => Dict.set Nat.eqb j (len_at j2len j) d)
                            (lookup b (Difflib.at_b b i)) []) (S j)
               = if existsb (Nat.eqb j) (lookup b (Difflib.at_b b i))
                 then len_at j2len j else 0).
    { intros j. cbn [Difflib.j2lenget]. rewrite fold_set_get. cbn [Dict.get].
      now destruct (existsb (Nat.eqb j) (lookup b (Difflib.at_b b i))). }
    unfold row_inv. split; [|split; [|split]].
    + intros [|j]; [cbn [Difflib.j2lenget run_before]; lia|].
      rewrite Hget. cbn [run_before].
      destruct (existsb (Nat.eqb j) (lookup b (Difflib.at_b b i))) eqn:Ex; [|lia].
      apply existsb_exists in Ex. destruct Ex as (j' & Hj' & Ej).
      apply Nat.eqb_eq in Ej. subst j'. apply (Hlen j Hj').
    + rewrite Hget. cbn [run_before].
      assert (Ex : existsb (Nat.eqb i) (lookup b (Difflib.at_b b i)) = true).
      { apply existsb_exists. exists i. split; [|apply Nat.eqb_refl].
        rewrite Hjs, Esplit. apply in_or_app. right. now left. }
      now rewrite Ex.
    + exact S3.
    + intros i' Hi'. destruct (Nat.eq_dec i' i) as [->|Hne]; [exact S1|].
      assert (Hlt : i' < i) by lia. specialize (P4 i' Hlt). lia.
  - (* the character of row [i] is not indexed: the row is empty *)
    assert (Hjs : lookup b (Difflib.at_b b i) = []).
    { unfold indexed in Hidx. now destruct (lookup b (Difflib.at_b b i)). }
    rewrite Hjs. cbn [Difflib.row_loop fst snd].
    unfold row_inv. split; [|split; [|split]].
    + intros [|j]; cbn; lia.
    + cbn [Difflib.j2lenget Dict.get run_before]. lia.
    + exact P3.
    + intros i' Hi'. destruct (Nat.eq_dec i' i) as [->|Hne]; [lia|].
      apply P4. lia.
Qed.

Lemma main_loop_diagonal :
  let best := snd (Difflib.main_loop b b 0 (List.length b) 0 (List.length b)) in
  Difflib.m_a best = Difflib.m_b best.
Proof.
  cbv zeta. unfold Difflib.main_loop. rewrite Nat.sub_0_r.
  set (step := fun (st : Difflib.j2len_t * Difflib.Match) i =>
         Difflib.row_loop (fst st) i 0 (List.length b)
           match Dict.get Difflib.ascii_eqb (Difflib.at_a b i) (Difflib.chain_b b) with
           | Some l => l
           | None => []
           end [] (snd st)).
  assert (H : forall k i st,
             i + k = List.length b ->
             row_inv b i (fst st) (snd st) ->
             row_inv b (i + k) (fst (fold_left step (seq i k) st))
                     (snd (fold_left step (seq i k) st))).
  { induction k as [|k IH]; intros i st Hk Hinv; cbn [seq fold_left].
    - now rewrite Nat.add_0_r.
    - replace (i + S k) with (S i + k) by lia.
      apply IH; [lia|]. apply (row_inv_step i (fst st) (snd st)); [lia | exact Hinv]. }
  specialize (H (List.length b) 0
                ([], {| Difflib.m_a := 0; Difflib.m_b := 0; Difflib.m_size := 0 |})
                eq_refl).
  destruct H as (_ & _ & H & _); [|exact H].
  unfold row_inv. cbn [fst snd Difflib.m_a Difflib.m_b Difflib.m_size].
  split; [|split; [|split]].
  - intros [|j]; cbn; lia.
  - reflexivity.
  - reflexivity.
  - intros i' Hi'. lia.
Qed.
End Identical.

Section IdenticalResult.
Variable b : list ascii.

Lemma at_same (i : nat) :
  Difflib.ascii_eqb (Difflib.at_a b i) (Difflib.at_b b i) = true.
Proof. apply Ascii.eqb_refl. Qed.

(** On the diagonal, the backward extension reaches the origin. *)
Lemma extend_back_diagonal (n : nat) :
  forall (i k : nat),
    i <= n ->
    Difflib.extend_back b b (fun c => negb (Difflib.isbjunk c)) 0 0 n
      {| Difflib.m_a := i; Difflib.m_b := i; Difflib.m_size := k |}
    = {| Difflib.m_a := 0; Difflib.m_b := 0; Difflib.m_size := k + i |}.
Proof.
  induction n as [|n IH]; intros i k Hi; cbn [Difflib.extend_back].
  - assert (i = 0) as -> by lia. now rewrite Nat.add_0_r.
  - cbn [Difflib.m_a Difflib.m_b Difflib.m_size].
    destruct i as [|i].
    + cbn. now rewrite Nat.add_0_r.
    + replace (S i - 1) with i by lia. rewrite at_same.
      cbn [Nat.ltb Nat.leb andb negb Difflib.isbjunk].
      rewrite IH by lia. f_equal. lia.
Qed.

(** On the diagonal, the forward extension reaches the end. *)
Lemma extend_fwd_diagonal (n : nat) :
  forall (fuel i k : nat),
    i + k <= n -> n - (i + k) <= fuel ->
    Difflib.extend_fwd b b (fun c => negb (Difflib.isbjunk c)) n n fuel
      {| Difflib.m_a := i; Difflib.m_b := i; Difflib.m_size := k |}
    = {| Difflib.m_a := i; Difflib.m_b := i; Difflib.m_size := n - i |}.
Proof.
  induction fuel as [|fuel IH]; intros i k Hk Hf; cbn [Difflib.extend_fwd].
  - f_equal. lia.
  - cbn [Difflib.m_a Difflib.m_b Difflib.m_size].
    destruct (Nat.ltb_spec (i + k) n) as [Hlt|Hge].
    + rewrite at_same. cbn [andb negb Difflib.isbjunk].
      apply IH; lia.
    + cbn [andb]. f_equal. lia.
Qed.

(** The loops over junk never run: there is no junk. *)
Lemma extend_back_junk (alo blo n : nat) (m : Difflib.Match) :
  Difflib.extend_back b b Difflib.isbjunk alo blo n m = m.
Proof.
  destruct n; cbn [Difflib.extend_back Difflib.isbjunk]; [reflexivity|].
  now rewrite andb_false_r.
Qed.

Lemma extend_fwd_junk (ahi bhi n : nat) (m : Difflib.Match) :
  Difflib.extend_fwd b b Difflib.isbjunk ahi bhi n m = m.
Proof.
  destruct n; cbn [Difflib.extend_fwd Difflib.isbjunk]; [reflexivity|].
  now rewrite andb_false_r.
Qed.

(** The longest match of a sequence with itself is the whole of it. *)
Lemma find_longest_match_self :
  Difflib.find_longest_match b b 0 (List.length b) 0 (List.length b)
  = {| Difflib.m_a := 0; Difflib.m_b := 0; Difflib.m_size := List.length b |}.
Proof.
  unfold Difflib.find_longest_match.
  pose proof (main_loop_diagonal b) as Hd. cbv zeta in Hd.
  pose proof (main_loop_range b b 0 (List.length b) 0 (List.length b)
                (Nat.le_0_l _) (Nat.le_0_l _)) as (_ & Hw & _).
  destruct (snd (Difflib.main_loop b b 0 (List.length b) 0 (List.length b)))
    as [i j k].
  cbn [Difflib.m_a Difflib.m_b Difflib.m_size] in *. subst j.
  rewrite extend_back_junk, extend_fwd_junk.
  rewrite extend_back_diagonal by lia.
  rewrite extend_fwd_diagonal by lia.
  f_equal. lia.
Qed.

Lemma matches_self : Difflib.matches b b = List.length b.
Proof.
  destruct (matches_sum b b) as (res & E & ->).
  unfold Difflib.fuel_for in E. rewrite Nat.add_1_r in E.
  cbn [Difflib.blocks_loop] in E. rewrite find_longest_match_self in E.
  cbn [Difflib.m_a Difflib.m_b Difflib.m_size] in E.
  rewrite Nat.ltb_irrefl in E. cbn [andb Nat.add] in E.
  rewrite Nat.ltb_irrefl in E. cbn [andb] in E.
  destruct (Nat.eqb_spec (List.length b) 0) as [E0|E0].
  - (* the empty sequence *)
    destruct (2 * List.length b); cbn [Difflib.blocks_loop] in E;
      injection E as <-; cbn; lia.
  - destruct (2 * List.length b); cbn [Difflib.blocks_loop app] in E;
      injection E as <-; cbn; lia.
Qed.

(** The ratio of a non-empty sequence with itself is 1. *)
Lemma ratio_self : b <> [] -> (Difflib.ratio b b == 1)%Q.
Proof.
  intros Hb. unfold Difflib.ratio. rewrite matches_self.
  assert (Hlen : List.length b + List.length b <> 0).
  { destruct b; [congruence | cbn; lia]. }
  destruct (Nat.eqb_spec (List.length b + List.length b) 0); [contradiction|].
  unfold Qeq; cbn [Qnum Qden]. rewrite (Zpos_of_nat _ Hlen). lia.
Qed.
End IdenticalResult.

(** ** Similarity *)

(** C3, refuted as stated: [sim] is not symmetric.  The matcher anchors
    the first longest block in the order of its first argument: "tide"
    against "diet" keeps one character (ratio 2/8), "diet" against "tide"
    keeps two (ratio 4/8). *)
Lemma sim_not_symmetric :
  sim (Some "tide") (Some "diet") = Qmake 2 8
  /\ sim (Some "diet") (Some "tide") = Qmake 4 8
  /\ ~ (sim (Some "tide") (Some "diet") == sim (Some "diet") (Some "tide"))%Q.
Proof.
  split; [vm_compute; reflexivity|]. split; [vm_compute; reflexivity|].
  vm_compute. discriminate.
Qed.

Lemma lower_truthy (s : string) : PyStr.truthy (PyStr.lower s) = PyStr.truthy s.
Proof. now destruct s. Qed.

Lemma truthy_false (s : string) : PyStr.truthy s = false <-> s = "".
Proof. destruct s; split; intros H; try reflexivity; discriminate. Qed.

(** C3, amended: the similarity lies in [[0, 1]]; it is 0 when either
    argument is empty after trimming (an absent argument counts as empty);
    and it is 1 for two identical arguments that are not empty after
    trimming.  (Symmetry is not claimed.) *)
Theorem sim_properties :
  forall a b : option string,
    (0 <= sim a b <= 1)%Q
    /\ (PyStr.strip (PyStr.or_default a "") = ""
        \/ PyStr.strip (PyStr.or_default b "") = "" -> sim a b = 0%Q)
    /\ (PyStr.strip (PyStr.or_default a "") <> "" -> (sim a a == 1)%Q).
Proof.
  intros a b. unfold sim. rewrite !lower_truthy.
  split; [|split].
  - destruct (PyStr.truthy (PyStr.strip (PyStr.or_default a ""))
              && PyStr.truthy (PyStr.strip (PyStr.or_default b ""))).
    + apply ratio_bounds.
    + split; discriminate.
  - intros [E | E]; rewrite E; cbn [PyStr.truthy andb]; [reflexivity|].
    now rewrite andb_false_r.
  - intros Ha.
    destruct (PyStr.strip (PyStr.or_default a "")) as [|c s] eqn:E; [congruence|].
    cbn [PyStr.truthy andb]. apply ratio_self.
    cbn [PyStr.lower list_ascii_of_string]. discriminate.
Qed.

(** The similarity ignores case and surrounding blanks. *)
Example sim_examples :
  sim (Some "Jane Doe") (Some "  jane doe ") = Qmake 16 16
  /\ sim (Some "Jon Smith") (Some "John Smith") = Qmake 18 19
  /\ sim (Some "   ") (Some "   ") = 0%Q
  /\ sim None (Some "Bob") = 0%Q.
Proof. repeat split; vm_compute; reflexivity. Qed.

(** * Further properties of the code *)

(** ** Trimming *)

Lemma lstrip_head (s : string) :
  PyStr.lstrip s = ""
  \/ exists c t, PyStr.lstrip s = String c t /\ PyStr.isspace c = false.
Proof.
  induction s as [|c s IH]; cbn [PyStr.lstrip]; [now left|].
  destruct (PyStr.isspace c) eqn:E; [exact IH|].
  right. now exists c, s.
Qed.

Lemma rstrip_head (c : ascii) (t : string) :
  PyStr.isspace c = false -> exists t', PyStr.rstrip (String c t) = String c t'.
Proof.
  intros Hc. cbn [PyStr.rstrip]. rewrite Hc.
  destruct (PyStr.rstrip t); eexists; reflexivity.
Qed.

Lemma rstrip_idem (s : string) : PyStr.rstrip (PyStr.rstrip s) = PyStr.rstrip s.
Proof.
  induction s as [|c s IH]; [reflexivity|].
  cbn [PyStr.rstrip]. destruct (PyStr.rstrip s) as [|d r] eqn:E.
  - destruct (PyStr.isspace c) eqn:Ec; [reflexivity|].
    cbn [PyStr.rstrip]. now rewrite Ec.
  - change (PyStr.rstrip (String c (String d r)))
      with (match PyStr.rstrip (String d r) with
            | EmptyString => if PyStr.isspace c then EmptyString else String c EmptyString
            | r0 => String c r0
            end).
    now rewrite IH.
Qed.

(** [strip] is idempotent. *)
Lemma strip_idem (s : string) : PyStr.strip (PyStr.strip s) = PyStr.strip s.
Proof.
  unfold PyStr.strip.
  destruct (lstrip_head s) as [E | (c & t & E & Hc)]; rewrite E; [reflexivity|].
  destruct (rstrip_head c t Hc) as [t' E'].
  rewrite E'. cbn [PyStr.lstrip]. rewrite Hc, <- E'. apply rstrip_idem.
Qed.

Lemma all_chars_lstrip (P : ascii -> bool) (s : string) :
  all_chars P s = true -> all_chars P (PyStr.lstrip s) = true.
Proof.
  induction s as [|c s IH]; cbn [PyStr.lstrip all_chars]; [reflexivity|].
  intros H. destruct (PyStr.isspace c); [|exact H].
  apply andb_true_iff in H as [_ H]. now apply IH.
Qed.

Lemma all_chars_rstrip (P : ascii -> bool) (s : string) :
  all_chars P s = true -> all_chars P (PyStr.rstrip s) = true.
Proof.
  induction s as [|c s IH]; cbn [PyStr.rstrip all_chars]; [reflexivity|].
  intros H. apply andb_true_iff in H as [Hc Hs]. specialize (IH Hs).
  destruct (PyStr.rstrip s) as [|d r].
  - destruct (PyStr.isspace c); [reflexivity|]. cbn [all_chars]. now rewrite Hc.
  - cbn [all_chars] in *. now rewrite Hc, IH.
Qed.

Lemma all_chars_strip (P : ascii -> bool) (s : string) :
  all_chars P s = true -> all_chars P (PyStr.strip s) = true.
Proof. intros H. now apply all_chars_rstrip, all_chars_lstrip. Qed.

(** ** Cell text *)

Lemma text_from_unfold (block : Block) (idmap : idmap_t) :
  _text_from block idmap
  = PyStr.strip (PyStr.join " "
      (filter PyStr.truthy
         (fold_left (text_rel_step idmap) (Relationships block) []))).
Proof. reflexivity. Qed.

(** X1: a child identifier that the response does not resolve is skipped:
    the text of a block is the same with and without it. *)
Theorem text_from_skips_unresolved :
  forall (idmap : idmap_t) (b1 b2 : Block) (rels1 rels2 : list Relationship)
         (ty : option string) (ids1 ids2 : list string) (cid : string),
    Dict.get String.eqb cid idmap = None ->
    Relationships b1
    = (rels1 ++ {| rel_Type := ty; rel_Ids := (ids1 ++ cid :: ids2)%list |} :: rels2)%list ->
    Relationships b2
    = (rels1 ++ {| rel_Type := ty; rel_Ids := (ids1 ++ ids2)%list |} :: rels2)%list ->
    _text_from b1 idmap = _text_from b2 idmap.
Proof.
  intros idmap b1 b2 rels1 rels2 ty ids1 ids2 cid Hget H1 H2.
  rewrite !text_from_unfold, H1, H2, !fold_left_app. cbn [fold_left].
  assert (E : forall out,
             text_rel_step idmap out
               {| rel_Type := ty; rel_Ids := (ids1 ++ cid :: ids2)%list |}
             = text_rel_step idmap out
                 {| rel_Type := ty; rel_Ids := (ids1 ++ ids2)%list |}).
  { intros out. unfold text_rel_step. cbn [rel_Type rel_Ids].
    destruct (opt_string_eqb ty "CHILD"); [|reflexivity].
    rewrite !fold_left_app. cbn [fold_left]. f_equal.
    unfold text_step at 1. now rewrite Hget. }
  now rewrite E.
Qed.

Lemma text_from_skips_unresolved_witness :
  _text_from (cell "c" 1 1 ["w"; "ghost"]) [("w", word "w" "Bob")]
  = _text_from (cell "c" 1 1 ["w"]) [("w", word "w" "Bob")].
Proof.
  apply (text_from_skips_unresolved [("w", word "w" "Bob")]
           (cell "c" 1 1 ["w"; "ghost"]) (cell "c" 1 1 ["w"])
           [] [] (Some "CHILD") ["w"] [] "ghost"); reflexivity.
Defined.

(** ** The grid *)

Lemma find_no_table (blocks : list Block) :
  (forall blk, In blk blocks -> BlockType blk <> Some "TABLE") ->
  first_table blocks = None.
Proof.
  intros Hno. unfold first_table.
  destruct (find (fun blk => opt_string_eqb (BlockType blk) "TABLE") blocks) as [t|] eqn:E;
    [|reflexivity].
  apply find_some in E. destruct E as [Hin Ht]. exfalso. apply (Hno t Hin).
  unfold opt_string_eqb in Ht. destruct (BlockType t) as [ty|]; [|discriminate].
  apply String.eqb_eq in Ht. now subst.
Qed.

(** X2: without a block of type [TABLE] the reconstruction yields no row. *)
Theorem no_table_no_rows :
  forall blocks : list Block,
    (forall blk, In blk blocks -> BlockType blk <> Some "TABLE") ->
    parse_first_table blocks = [].
Proof.
  intros blocks Hno. unfold parse_first_table. now rewrite (find_no_table blocks Hno).
Qed.

Lemma no_table_no_rows_witness :
  parse_first_table [word "w" "Bob"; cell "c" 2 1 ["w"]] = [].
Proof.
  apply no_table_no_rows.
  intros blk [<- | [<- | []]]; discriminate.
Defined.

Lemma pair_eqb_eq (p q : Z * Z) : pair_eqb p q = true <-> p = q.
Proof.
  destruct p as [p1 p2], q as [q1 q2]. unfold pair_eqb. cbn [fst snd].
  rewrite andb_true_iff, !Z.eqb_eq. split; [intros [-> ->]; reflexivity|].
  intros E; injection E; auto.
Qed.

Section DictForall.
Context {K V : Type} (eqb : K -> K -> bool).
Hypothesis eqb_eq : forall x y, eqb x y = true <-> x = y.

(** Assigning an entry that satisfies [P] keeps all entries in [P]. *)
Lemma dict_set_Forall (P : K * V -> Prop) (k : K) (v : V) (d : Dict.t) :
  P (k, v) -> Forall P d -> Forall P (Dict.set eqb k v d).
Proof.
  intros Hkv. induction d as [|[k' v'] d IH]; cbn [Dict.set]; intros Hd.
  - now constructor.
  - inversion Hd as [|? ? H1 H2]; subst.
    destruct (eqb k k') eqn:E.
    + apply eqb_eq in E. subst k'. now constructor.
    + constructor; auto.
Qed.

(** With distinct keys, an entry of the list is what a lookup returns. *)
Lemma dict_In_get (k : K) (v : V) (d : Dict.t) :
  NoDup (Dict.keys d) -> In (k, v) d -> Dict.get eqb k d = Some v.
Proof.
  unfold Dict.keys. induction d as [|[k' v'] d IH]; cbn [map fst Dict.get];
    intros Hnd Hin; [destruct Hin|].
  inversion Hnd as [|? ? Hk Hd]; subst.
  destruct Hin as [E | Hin].
  - injection E as -> ->. now rewrite (proj2 (eqb_eq k k) eq_refl).
  - destruct (eqb k k') eqn:E.
    + apply eqb_eq in E. subst k'. exfalso. apply Hk.
      apply (in_map fst) in Hin. exact Hin.
    + now apply IH.
Qed.
End DictForall.

Lemma collect_cells_unfold (table_blk : Block) (idmap : idmap_t) :
  collect_cells table_blk idmap
  = fold_left
      (fun g rel =>
         if opt_string_eqb (rel_Type rel) "CHILD"
         then fold_left (cell_step idmap) (rel_Ids rel) g
         else g)
      (Relationships table_blk)
      {| g_cells := []; g_rmax := 0; g_cmax := 0 |}.
Proof. reflexivity. Qed.

Lemma cell_step_ok (idmap : idmap_t) (g : grid) (cid : string) :
  grid_ok g -> grid_ok (cell_step idmap g cid).
Proof.
  intros (Hr & Hc & Hall). unfold cell_step.
  destruct (Dict.get String.eqb cid idmap) as [cell|]; [|now repeat split].
  destruct (negb (opt_string_eqb (BlockType cell) "CELL")); [now repeat split|].
  cbv zeta. unfold grid_ok. cbn [g_cells g_rmax g_cmax].
  split; [lia|]. split; [lia|].
  apply (dict_set_Forall pair_eqb pair_eqb_eq).
  - cbn [fst snd]. split; [lia|]. split; [lia|]. unfold _text_from. apply strip_idem.
  - eapply Forall_impl; [|exact Hall]. intros e (H1 & H2 & H3). repeat split; try lia.
    exact H3.
Qed.

(** X3: the cells collected from a table lie inside the extent that the
    program computes: the maxima are not negative, every stored cell has
    its row at most [rmax] and its column at most [cmax], and every stored
    text is trimmed. *)
Theorem collect_cells_extent :
  forall (table_blk : Block) (idmap : idmap_t),
    let g := collect_cells table_blk idmap in
    (0 <= g_rmax g)%Z /\ (0 <= g_cmax g)%Z
    /\ Forall (fun e : Z * Z * string =>
                 (fst (fst e) <= g_rmax g)%Z /\ (snd (fst e) <= g_cmax g)%Z
                 /\ PyStr.strip (snd e) = snd e)
              (g_cells g).
Proof.
  intros table_blk idmap. cbv zeta. rewrite collect_cells_unfold.
  change (grid_ok (fold_left
      (fun g rel =>
         if opt_string_eqb (rel_Type rel) "CHILD"
         then fold_left (cell_step idmap) (rel_Ids rel) g
         else g)
      (Relationships table_blk)
      {| g_cells := []; g_rmax := 0; g_cmax := 0 |})).
  assert (Hinner : forall ids g, grid_ok g -> grid_ok (fold_left (cell_step idmap) ids g)).
  { induction ids as [|cid ids IH]; intros g Hg; cbn [fold_left]; [exact Hg|].
    apply IH, cell_step_ok, Hg. }
  assert (Houter : forall rels g,
             grid_ok g ->
             grid_ok (fold_left
                        (fun g rel =>
                           if opt_string_eqb (rel_Type rel) "CHILD"
                           then fold_left (cell_step idmap) (rel_Ids rel) g
                           else g) rels g)).
  { induction rels as [|rel rels IH]; intros g Hg; cbn [fold_left]; [exact Hg|].
    apply IH. destruct (opt_string_eqb (rel_Type rel) "CHILD"); [now apply Hinner | exact Hg]. }
  apply Houter. unfold grid_ok. cbn. repeat split; try lia. constructor.
Qed.

(** ** Rows *)

Lemma row_keys_gen (cells : cells_t) (r : Z) (l : list (Z * string)) :
  forall row : row_t,
    Dict.keys
      (fold_left (fun row ck => Dict.set String.eqb (snd ck) (cell_value cells r (fst ck)) row)
                 l row)
    = fold_left (fun ks k => set_add k ks) (map snd l) (Dict.keys row).
Proof.
  induction l as [|[ci key] l IH]; intros row; cbn [fold_left map snd]; [reflexivity|].
  rewrite IH. f_equal. cbn [fst]. now rewrite dict_set_keys.
Qed.

Lemma row_values_gen (cells : cells_t) (r : Z) (l : list (Z * string)) :
  forall row : row_t,
    Forall (fun kv => PyStr.strip (snd kv) = snd kv) row ->
    Forall (fun kv => PyStr.strip (snd kv) = snd kv)
      (fold_left (fun row ck => Dict.set String.eqb (snd ck) (cell_value cells r (fst ck)) row)
                 l row).
Proof.
  induction l as [|[ci key] l IH]; intros row Hrow; cbn [fold_left]; [exact Hrow|].
  apply IH. apply (dict_set_values (fun v => PyStr.strip v = v)); [|exact Hrow].
  unfold cell_value. apply strip_idem.
Qed.

Lemma distinct_keys_gen (l : list string) :
  forall ks, NoDup ks ->
    NoDup (fold_left (fun ks k => set_add k ks) l ks)
    /\ (forall k, In k (fold_left (fun ks k => set_add k ks) l ks) <-> In k ks \/ In k l).
Proof.
  induction l as [|x l IH]; intros ks Hks; cbn [fold_left].
  - split; [exact Hks|]. intros k. cbn [In]. tauto.
  - destruct (IH (set_add x ks) (set_add_NoDup x ks Hks)) as [Hnd Hin].
    split; [exact Hnd|]. intros k. rewrite Hin. cbn [In]. unfold set_add.
    destruct (existsb (String.eqb x) ks) eqn:E.
    + apply existsb_eqb_In in E. split; [tauto|]. intros [H | [<- | H]]; auto.
    + rewrite in_app_iff. cbn [In]. tauto.
Qed.

(** X4: the rows of a sheet are uniform and trimmed: every emitted row has
    the same sequence of keys, namely the header keys without repetition in
    the order of their first occurrence, and every value of every emitted
    row is trimmed. *)
Theorem rows_uniform :
  forall blocks : list Block,
    Forall (fun row : row_t =>
              Dict.keys row = distinct_keys (header_of blocks)
              /\ Forall (fun kv => PyStr.strip (snd kv) = snd kv) row)
           (parse_first_table blocks)
    /\ NoDup (distinct_keys (header_of blocks))
    /\ (forall k, In k (distinct_keys (header_of blocks)) <-> In k (header_of blocks)).
Proof.
  intros blocks. split; [|split].
  - unfold parse_first_table, header_of.
    destruct (first_table blocks) as [table_blk|]; [|constructor].
    cbv zeta. unfold data_rows. rewrite data_rows_gen. cbn [app].
    apply Forall_forall. intros row Hrow.
    apply in_map_iff in Hrow. destruct Hrow as (r & <- & _).
    unfold build_row. rewrite build_row_dict_gen. split.
    + rewrite row_keys_gen, enumerate_snd. reflexivity.
    + apply row_values_gen. constructor.
  - apply distinct_keys_gen. constructor.
  - intros k. destruct (distinct_keys_gen (header_of blocks) [] (NoDup_nil _)) as [_ H].
    unfold distinct_keys. rewrite H. cbn [In]. tauto.
Qed.

(** ** Columns with the same header key *)

Lemma enumerate_app {A : Type} (l1 l2 : list A) :
  forall start : Z,
    enumerate start (l1 ++ l2)
    = (enumerate start l1 ++ enumerate (start + Z.of_nat (List.length l1)) l2)%list.
Proof.
  induction l1 as [|x l1 IH]; intros start; cbn [enumerate app List.length].
  - now rewrite Z.add_0_r.
  - rewrite IH. do 3 f_equal. lia.
Qed.

(** X5: the value of a row under a header key is the text of the last
    column that carries this key: the texts of earlier columns with the
    same key are overwritten. *)
Theorem row_value_last_column :
  forall (cells : cells_t) (before after : list string) (key : string) (r : Z),
    ~ In key after ->
    Dict.get String.eqb key (fst (build_row cells (before ++ key :: after)%list r))
    = Some (cell_value cells r (Z.of_nat (List.length before) + 1)).
Proof.
  intros cells before after key r Hnot. unfold build_row.
  rewrite build_row_dict_gen, enumerate_app. cbn [enumerate].
  rewrite fold_left_app. cbn [fold_left fst snd].
  rewrite fill_other by (now rewrite enumerate_snd).
  rewrite (dict_get_set String.eqb String.eqb_eq), String.eqb_refl.
  do 2 f_equal. lia.
Qed.

Lemma row_value_last_column_witness :
  Dict.get String.eqb "Name"
           (fst (build_row [((2%Z, 1%Z), "Bob"); ((2%Z, 2%Z), "Smith")]
                           (["Name"] ++ "Name" :: ["Wake"])%list 2))
  = Some (cell_value [((2%Z, 1%Z), "Bob"); ((2%Z, 2%Z), "Smith")] 2
                     (Z.of_nat (List.length ["Name"]) + 1)).
Proof.
  apply row_value_last_column.
  intros [H | []]. discriminate H.
Defined.

(** ** The roster and the identifiers *)

Lemma remove_spaces_none (s : string) (k : nat) :
  all_chars not_space (PyStr.replace_scan " " "" k s) = true.
Proof.
  revert k; induction s as [|c s IH]; intros k; cbn [PyStr.replace_scan]; [reflexivity|].
  destruct k as [|k]; [|apply IH].
  cbn [String.prefix].
  destruct (Ascii.ascii_dec " " c) as [<-|Hne].
  - destruct s; cbn [append]; apply IH.
  - cbn [all_chars]. rewrite IH, andb_true_r. unfold not_space.
    apply negb_true_iff. destruct (Ascii.eqb_spec c " "); [subst; contradiction | reflexivity].
Qed.

(** X6: the identifier under which a row is looked up holds no space
    character and is trimmed, whatever the row holds under [EmployeeID]. *)
Theorem row_emp_id_normalized :
  forall r : row_t,
    all_chars not_space (row_emp_id r) = true
    /\ PyStr.strip (row_emp_id r) = row_emp_id r
    /\ PyStr.strip (row_name r) = row_name r.
Proof.
  intros r. unfold row_emp_id, row_name. split; [|split].
  - apply all_chars_strip. unfold PyStr.replace. apply remove_spaces_none.
  - apply strip_idem.
  - apply strip_idem.
Qed.

(** The scan of an occurrence of [old] at the head of the text. *)
Lemma replace_scan_skip (old new o s : string) :
  PyStr.replace_scan old new (String.length o) (o ++ s)
  = PyStr.replace_scan old new 0 s.
Proof.
  induction o as [|c o IH]; cbn [String.length append]; [reflexivity|].
  cbn [PyStr.replace_scan]. exact IH.
Qed.

Lemma prefix_append (p s : string) : String.prefix p (p ++ s) = true.
Proof. apply prefix_spec. now exists s. Qed.

Lemma contains_cons_false (needle : string) (c : ascii) (s : string) :
  PyStr.contains needle (String c s) = false ->
  String.prefix needle (String c s) = false /\ PyStr.contains needle s = false.
Proof. cbn [PyStr.contains]. intros H. now apply orb_false_iff in H. Qed.

(** An occurrence of [old] at the head of the text is replaced, and the
    scan goes on behind it. *)
Lemma replace_scan_head (c : ascii) (o new s : string) :
  PyStr.replace_scan (String c o) new 0 (String c o ++ s)
  = new ++ PyStr.replace_scan (String c o) new 0 s.
Proof.
  pose proof (prefix_append (String c o) s) as Hp.
  cbn [append] in *. cbn [PyStr.replace_scan]. rewrite Hp. f_equal.
  replace (String.length (String c o) - 1) with (String.length o)
    by (cbn [String.length]; lia).
  apply replace_scan_skip.
Qed.

(** A text without occurrence of [old] is left as it is. *)
Lemma replace_scan_absent (old new s : string) :
  PyStr.contains old s = false -> PyStr.replace_scan old new 0 s = s.
Proof.
  induction s as [|c s IH]; intros H; [reflexivity|].
  apply contains_cons_false in H. destruct H as [Hp Hc].
  cbn [PyStr.replace_scan]. rewrite Hp. now rewrite IH.
Qed.

(** X7: the roster key of a profile whose [PK] is ["EMP#"] followed by an
    identifier without occurrence of ["EMP#"] is that identifier. *)
Theorem emp_id_strips_marker :
  forall (item : item_t) (id : string),
    Dict.get String.eqb "PK" item = Some ("EMP#" ++ id) ->
    PyStr.contains "EMP#" id = false ->
    emp_id_of item = id.
Proof.
  intros item id Hpk Hid. unfold emp_id_of, get_str. rewrite Hpk.
  unfold PyStr.replace. rewrite (replace_scan_head "E" "MP#" "" id).
  cbn [append]. now apply replace_scan_absent.
Qed.

Lemma emp_id_strips_marker_witness :
  emp_id_of [("PK", "EMP#007"); ("SK", "PROFILE"); ("Name", "Bob")] = "007".
Proof.
  apply (emp_id_strips_marker [("PK", "EMP#007"); ("SK", "PROFILE"); ("Name", "Bob")] "007");
    reflexivity.
Defined.

Lemma roster_unfold (items : list item_t) :
  get_all_employee_profiles (Some items) = fold_left roster_step items [].
Proof. reflexivity. Qed.

Lemma roster_entries_gen (items : list item_t) :
  forall (pool : list item_t) (acc : profiles_t),
    incl items pool ->
    Forall (fun e => In (snd e) pool /\ is_profile (snd e) = true
                     /\ fst e = emp_id_of (snd e)) acc ->
    Forall (fun e => In (snd e) pool /\ is_profile (snd e) = true
                     /\ fst e = emp_id_of (snd e))
           (fold_left roster_step items acc).
Proof.
  induction items as [|item items IH]; intros pool acc Hincl Hacc; cbn [fold_left];
    [exact Hacc|].
  apply IH; [intros x Hx; apply Hincl; now right|].
  unfold roster_step. destruct (is_profile item) eqn:E; [|exact Hacc].
  apply (dict_set_Forall String.eqb String.eqb_eq); [|exact Hacc].
  cbn [fst snd]. split; [apply Hincl; now left|]. now split.
Qed.

Lemma roster_keys_gen (items : list item_t) :
  forall (acc : profiles_t) (item : item_t),
    is_profile item = true ->
    In item items \/ In (emp_id_of item) (Dict.keys acc) ->
    In (emp_id_of item) (Dict.keys (fold_left roster_step items acc)).
Proof.
  induction items as [|x items IH]; intros acc item Hp Hin; cbn [fold_left].
  - destruct Hin as [[] | H]. exact H.
  - apply IH; [exact Hp|].
    destruct Hin as [[-> | H] | H].
    + right. unfold roster_step. rewrite Hp, dict_set_keys.
      destruct (existsb (String.eqb (emp_id_of item)) (Dict.keys acc)) eqn:E.
      * now apply existsb_eqb_In.
      * apply in_or_app. right. now left.
    + now left.
    + right. unfold roster_step. destruct (is_profile x); [|exact H].
      rewrite dict_set_keys.
      destruct (existsb (String.eqb (emp_id_of x)) (Dict.keys acc)); [exact H|].
      apply in_or_app. now left.
Qed.

(** X8: the roster holds exactly the scanned profiles: every entry is a
    scanned item whose [SK] is ["PROFILE"], stored under its [PK] without
    the ["EMP#"] marker; every such scanned item has its key in the roster;
    the keys are pairwise distinct; and a scan that raises gives the empty
    roster. *)
Theorem roster_sound_complete :
  forall items : list item_t,
    Forall (fun e => In (snd e) items /\ is_profile (snd e) = true
                     /\ fst e = emp_id_of (snd e))
           (get_all_employee_profiles (Some items))
    /\ (forall item, In item items -> is_profile item = true ->
                     In (emp_id_of item) (Dict.keys (get_all_employee_profiles (Some items))))
    /\ NoDup (Dict.keys (get_all_employee_profiles (Some items)))
    /\ get_all_employee_profiles None = [].
Proof.
  intros items. rewrite roster_unfold. split; [|split; [|split]].
  - apply roster_entries_gen; [apply incl_refl | constructor].
  - intros item Hin Hp. apply roster_keys_gen; [exact Hp | now left].
  - rewrite <- roster_unfold. apply roster_well_formed.
  - reflexivity.
Qed.

(** X9: of several scanned profiles with the same key the last one is
    kept: after a scan that ends with a profile, a lookup of its key
    returns it. *)
Theorem roster_last_wins :
  forall (items : list item_t) (item : item_t),
    is_profile item = true ->
    Dict.get String.eqb (emp_id_of item)
             (get_all_employee_profiles (Some (items ++ [item])%list))
    = Some item.
Proof.
  intros items item Hp. rewrite roster_unfold, fold_left_app. cbn [fold_left].
  unfold roster_step at 1. rewrite Hp.
  rewrite (dict_get_set String.eqb String.eqb_eq). now rewrite String.eqb_refl.
Qed.

Lemma roster_last_wins_witness :
  Dict.get String.eqb "7"
    (get_all_employee_profiles
       (Some [ [("PK", "EMP#7"); ("SK", "PROFILE"); ("Name", "Bob")];
               [("PK", "EMP#7"); ("SK", "PROFILE"); ("Name", "Robert")] ]))
  = Some [("PK", "EMP#7"); ("SK", "PROFILE"); ("Name", "Robert")].
Proof.
  apply (roster_last_wins
           [ [("PK", "EMP#7"); ("SK", "PROFILE"); ("Name", "Bob")] ]
           [("PK", "EMP#7"); ("SK", "PROFILE"); ("Name", "Robert")]).
  reflexivity.
Defined.

Lemma sim_bounds (a b : option string) : (0 <= sim a b <= 1)%Q.
Proof.
  unfold sim.
  destruct (PyStr.truthy _ && PyStr.truthy _); [apply ratio_bounds | split; discriminate].
Qed.

Lemma or_default_some (x : string) : PyStr.or_default (Some x) "" = x.
Proof. now destruct x. Qed.

(** Two strings with the same non-empty normal form have similarity 1. *)
Lemma sim_same_norm (x y : string) :
  sim_norm x = sim_norm y -> sim_norm x <> "" ->
  (sim (Some x) (Some y) == 1)%Q.
Proof.
  unfold sim_norm. intros E Hx. unfold sim. rewrite !or_default_some, <- E.
  destruct (PyStr.lower (PyStr.strip x)) as [|c s] eqn:Ex; [congruence|].
  cbn [PyStr.truthy andb]. apply ratio_self. discriminate.
Qed.

(** X10: [sim] compares its arguments up to case and surrounding blanks:
    two strings with the same trimmed lower-case form, not empty, have
    similarity 1. *)
Theorem sim_case_and_blank_insensitive :
  forall x y : string,
    PyStr.lower (PyStr.strip x) = PyStr.lower (PyStr.strip y) ->
    PyStr.lower (PyStr.strip x) <> "" ->
    (sim (Some x) (Some y) == 1)%Q /\ (sim (Some y) (Some x) == 1)%Q.
Proof.
  intros x y E Hx. split.
  - now apply sim_same_norm.
  - apply sim_same_norm; unfold sim_norm; [now symmetry | now rewrite <- E].
Qed.

Lemma sim_case_and_blank_insensitive_witness :
  (sim (Some "Jane Doe") (Some "  JANE doe ") == 1)%Q
  /\ (sim (Some "  JANE doe ") (Some "Jane Doe") == 1)%Q.
Proof.
  apply sim_case_and_blank_insensitive; [reflexivity | discriminate].
Defined.

(** The best name confidence is a similarity. *)
Lemma name_confidence_bounds (textract_name : string) (profiles : profiles_t) :
  (0 <= snd (find_best_match textract_name profiles) <= 1)%Q.
Proof.
  destruct (find_best_match_result textract_name profiles) as [[_ E] | [_ Inv]].
  - rewrite E. split; discriminate.
  - unfold best_so_far in Inv.
    destruct (find_best_match textract_name profiles) as [[m|] c]; cbn [fst snd] in *.
    + destruct Inv as (_ & _ & _ & _ & -> & _). apply sim_bounds.
    + destruct Inv as [-> _]. split; discriminate.
Qed.

(** X11: a row whose name is empty is never matched, even when its
    identifier is a key of the roster: it is classified [NONE] with
    confidence 0, keeps its own identifier (or "UNKNOWN") and adds no
    extra name. *)
Theorem nameless_row_unmatched :
  forall (all_profiles : profiles_t) (r : row_t) (extra_names : list string),
    row_name r = "" ->
    match_row all_profiles r extra_names
    = Some {| matched_profile := None; confidence := 0%Q; match_type := NONE;
              matched_emp_id := if PyStr.truthy (row_emp_id r)
                                then row_emp_id r else "UNKNOWN";
              extra := extra_names |}.
Proof.
  intros all_profiles r extra_names Hn. unfold match_row. rewrite Hn.
  destruct (direct_path_cases "" (row_emp_id r) all_profiles)
    as [E | (p & _ & _ & E)]; rewrite E; reflexivity.
Qed.

Lemma nameless_row_unmatched_witness :
  match_row [("7", [("PK", "EMP#7"); ("SK", "PROFILE"); ("Name", "Bob")])]
            [("Name", "  "); ("EmployeeID", "7")] []
  = Some {| matched_profile := None; confidence := 0%Q; match_type := NONE;
            matched_emp_id := "7"; extra := [] |}.
Proof.
  apply (nameless_row_unmatched
           [("7", [("PK", "EMP#7"); ("SK", "PROFILE"); ("Name", "Bob")])]
           [("Name", "  "); ("EmployeeID", "7")] []).
  reflexivity.
Defined.

(** X12: a row whose identifier is a key of the roster and whose name has
    the normal form of the roster name under that key is matched by
    identifier with confidence 1 and is valid, whatever else the roster
    holds. *)
Theorem exact_row_valid_id_match :
  forall (all_profiles : profiles_t) (r : row_t) (extra_names : list string)
         (p : item_t),
    row_emp_id r <> "" ->
    Dict.get String.eqb (row_emp_id r) all_profiles = Some p ->
    sim_norm (row_name r) = sim_norm (get_str "Name" p "") ->
    sim_norm (row_name r) <> "" ->
    exists ch,
      match_row all_profiles r extra_names = Some ch
      /\ match_type ch = ID
      /\ matched_emp_id ch = row_emp_id r
      /\ matched_profile ch = Some p
      /\ (confidence ch == 1)%Q
      /\ valid_of (matched_profile ch) (confidence ch) = true
      /\ extra ch = extra_names.
Proof.
  intros all_profiles r extra_names p Hid Hget Hnorm Hne.
  pose proof (sim_same_norm _ _ Hnorm Hne) as Hone.
  pose proof (name_confidence_bounds (row_name r) all_profiles) as [_ Hnc].
  unfold match_row, direct_path, Dict.mem. rewrite Hget.
  assert (Ht : PyStr.truthy (row_emp_id r) = true)
    by (destruct (row_emp_id r); [congruence | reflexivity]).
  rewrite Ht. cbn [andb].
  destruct (find_best_match (row_name r) all_profiles) as [nm nc]. cbn [snd] in Hnc.
  set (dc := sim (Some (row_name r)) (Some (get_str "Name" p ""))) in *.
  unfold choose.
  assert (H1 : Qgeb dc nc = true) by (apply Qgeb_le; now rewrite Hone).
  assert (H2 : Qgtb dc (1 # 2) = true) by (apply Qgtb_lt; now rewrite Hone).
  rewrite H1, H2. cbn [andb]. eexists. split; [reflexivity|].
  cbn [match_type matched_emp_id matched_profile confidence extra].
  repeat split; try assumption.
  unfold valid_of. apply andb_true_iff. split.
  - destruct p as [|e p]; [|reflexivity].
    exfalso. apply Hne. rewrite Hnorm. reflexivity.
  - apply Qgeb_le. now rewrite Hone.
Qed.

Lemma exact_row_valid_id_match_witness :
  exists ch,
    match_row [("001", [("PK", "EMP#001"); ("SK", "PROFILE"); ("Name", "Jane Doe")])]
              [("Name", "jane doe"); ("EmployeeID", "0 01")] [] = Some ch
    /\ match_type ch = ID
    /\ matched_emp_id ch = "001"
    /\ matched_profile ch = Some [("PK", "EMP#001"); ("SK", "PROFILE"); ("Name", "Jane Doe")]
    /\ (confidence ch == 1)%Q
    /\ valid_of (matched_profile ch) (confidence ch) = true
    /\ extra ch = [].
Proof.
  apply (exact_row_valid_id_match
           [("001", [("PK", "EMP#001"); ("SK", "PROFILE"); ("Name", "Jane Doe")])]
           [("Name", "jane doe"); ("EmployeeID", "0 01")] []
           [("PK", "EMP#001"); ("SK", "PROFILE"); ("Name", "Jane Doe")]);
    try reflexivity; discriminate.
Defined.

(** ** The report *)

(** The fields of a report, read off [process]. *)
Lemma process_fields (blocks : list Block) (scan : option (list item_t))
      (sheet_date sheet_id : string) (rep : report_t) :
  process blocks scan sheet_date sheet_id = Some rep ->
  let rows := parse_first_table blocks in
  let roster := get_all_employee_profiles scan in
  let recs := processed_records (rp_state rep) in
  fold_opt (process_row sheet_date sheet_id roster) (enumerate 1 rows) init_state
  = Some (rp_state rep)
  /\ total_rows rep = List.length rows
  /\ valid_matches rep = count rec_valid recs
  /\ high_conf_matches rep = count (fun r => Qgeb (rec_confidence r) (8 # 10)) recs
  /\ id_matches rep = count (fun r => match_type_eqb (rec_match_type r) ID) recs
  /\ name_matches rep = count (fun r => match_type_eqb (rec_match_type r) NAME) recs
  /\ no_matches rep = count (fun r => match_type_eqb (rec_match_type r) NONE) recs
  /\ unmatched_employees rep
     = filter (fun k => negb (existsb (String.eqb k) (matched_employees (rp_state rep))))
              (Dict.keys roster)
  /\ overall_pct (matched_employees (rp_state rep)) roster = Some (overall_match_pct rep).
Proof.
  unfold process.
  destruct (fold_opt _ _ _) as [st|] eqn:Ef; [|discriminate].
  destruct (overall_pct _ _) as [pct|] eqn:Ep; [|discriminate].
  intros E. injection E as <-.
  cbn [rp_state total_rows valid_matches high_conf_matches id_matches name_matches
       no_matches unmatched_employees overall_match_pct].
  repeat split; assumption.
Qed.

Lemma process_total (blocks : list Block) (scan : option (list item_t))
      (sheet_date sheet_id : string) :
  exists rep, process blocks scan sheet_date sheet_id = Some rep.
Proof.
  destruct (process_invariant (fun _ => True) blocks scan sheet_date sheet_id)
    as (rep & E & _); [exact I | intros; exact I |].
  now exists rep.
Qed.

(** The records and items added by the loop over the rows, in order. *)
Lemma process_rows_shape (sheet_date sheet_id : string) (all_profiles : profiles_t)
      (l : list (Z * row_t)) :
  forall st st',
    fold_opt (process_row sheet_date sheet_id all_profiles) l st = Some st' ->
    exists recs its,
      processed_records st' = (processed_records st ++ recs)%list
      /\ items st' = (items st ++ its)%list
      /\ map rec_row recs = map fst l
      /\ map rec_textract_name recs = map (fun ir => row_name (snd ir)) l
      /\ map rec_emp_id recs = map (fun ir => row_emp_id (snd ir)) l
      /\ map i_Name its = map (fun ir => row_name (snd ir)) l.
Proof.
  induction l as [|[i r] l IH]; intros st st' E; cbn [fold_opt] in E.
  - injection E as <-. exists [], []. rewrite !app_nil_r. repeat split.
  - destruct (process_row sheet_date sheet_id all_profiles st (i, r)) as [st1|] eqn:E1;
      [|discriminate].
    destruct (IH _ _ E) as (recs & its & H1 & H2 & H3 & H4 & H5 & H6).
    unfold process_row in E1.
    destruct (match_row all_profiles r (extra_names st)) as [ch|]; [|discriminate].
    injection E1 as <-. cbn [processed_records items] in H1, H2.
    exists (record_of i r ch :: recs), (item_of sheet_date sheet_id r ch :: its).
    rewrite H1, H2, <- !app_assoc. cbn [app map fst snd].
    rewrite H3, H4, H5, H6. repeat split.
Qed.

(** X13: the report holds one record and one item per extracted row, in
    the order of the rows: the records are numbered from 1 and carry the
    trimmed name and the normalized identifier of their row, and
    [total_rows] is their number. *)
Theorem one_record_per_row :
  forall (blocks : list Block) (scan : option (list item_t))
         (sheet_date sheet_id : string),
    let rows := parse_first_table blocks in
    exists rep,
      process blocks scan sheet_date sheet_id = Some rep
      /\ map rec_row (processed_records (rp_state rep))
         = range 1 (1 + Z.of_nat (List.length rows))
      /\ map rec_textract_name (processed_records (rp_state rep)) = map row_name rows
      /\ map rec_emp_id (processed_records (rp_state rep)) = map row_emp_id rows
      /\ map i_Name (items (rp_state rep)) = map row_name rows
      /\ total_rows rep = List.length (processed_records (rp_state rep))
      /\ total_rows rep = List.length (items (rp_state rep)).
Proof.
  intros blocks scan sheet_date sheet_id rows.
  destruct (process_total blocks scan sheet_date sheet_id) as [rep E].
  exists rep. split; [exact E|].
  destruct (process_fields _ _ _ _ _ E) as (Hfold & Htot & _).
  destruct (process_rows_shape _ _ _ _ _ _ Hfold)
    as (recs & its & H1 & H2 & H3 & H4 & H5 & H6).
  cbn [init_state processed_records items app] in H1, H2.
  fold rows in H3, H4, H5, H6, Htot.
  assert (Hname : map (fun ir : Z * row_t => row_name (snd ir)) (enumerate 1 rows)
                  = map row_name rows).
  { rewrite <- (map_map snd row_name), enumerate_snd. reflexivity. }
  assert (Hid : map (fun ir : Z * row_t => row_emp_id (snd ir)) (enumerate 1 rows)
                = map row_emp_id rows).
  { rewrite <- (map_map snd row_emp_id), enumerate_snd. reflexivity. }
  rewrite H1, H2, Htot.
  repeat split.
  - rewrite H3. apply enumerate_fst.
  - now rewrite H4.
  - now rewrite H5.
  - now rewrite H6.
  - rewrite <- (length_map rec_row), H3, length_map.
    rewrite <- (length_map snd (enumerate 1 rows)), enumerate_snd. reflexivity.
  - rewrite <- (length_map i_Name), H6, length_map.
    rewrite <- (length_map snd (enumerate 1 rows)), enumerate_snd. reflexivity.
Qed.

(** The confidence of a matched row. *)
Lemma match_row_confidence (all_profiles : profiles_t) (r : row_t)
      (extra_names : list string) (ch : choice_t) :
  match_row all_profiles r extra_names = Some ch ->
  match_type ch <> NONE ->
  (1 # 2 < confidence ch <= 1)%Q.
Proof.
  unfold match_row.
  pose proof (name_confidence_bounds (row_name r) all_profiles) as [_ Hnc].
  destruct (direct_path_cases (row_name r) (row_emp_id r) all_profiles)
    as [E | (p & _ & _ & E)]; rewrite E; clear E;
    destruct (find_best_match (row_name r) all_profiles) as [nm nc];
    cbn [snd] in Hnc; unfold choose.
  - replace (Qgeb 0 nc && Qgtb 0 (1 # 2)) with false by (now rewrite andb_false_r).
    destruct (Qgtb nc (1 # 2)) eqn:E2.
    + destruct nm as [m|]; [|discriminate].
      intros E; injection E as <-. intros _. cbn [confidence].
      apply Qgtb_lt in E2. now split.
    + intros E; injection E as <-. intros H. now contradiction H.
  - pose proof (sim_bounds (Some (row_name r)) (Some (get_str "Name" p ""))) as [_ Hd].
    destruct (Qgeb _ nc && Qgtb _ (1 # 2)) eqn:E1.
    + intros E; injection E as <-. intros _. cbn [confidence].
      apply andb_true_iff in E1 as [_ E1]. apply Qgtb_lt in E1. now split.
    + destruct (Qgtb nc (1 # 2)) eqn:E2.
      * destruct nm as [m|]; [|discriminate].
        intros E; injection E as <-. intros _. cbn [confidence].
        apply Qgtb_lt in E2. now split.
      * intros E; injection E as <-. intros H. now contradiction H.
Qed.

Lemma record_of_shape (all_profiles : profiles_t) (i : Z) (r : row_t)
      (extra_names : list string) (ch : choice_t) :
  match_row all_profiles r extra_names = Some ch ->
  record_shape (record_of i r ch).
Proof.
  intros Hch. unfold record_shape, record_of.
  cbn [rec_match_type rec_confidence rec_matched_name rec_valid].
  destruct (match_row_cases _ _ _ _ Hch)
    as [(Hty & _) | [(Hty & _) | (Hty & Hp & Hc & _)]].
  - right. assert (Hn : match_type ch <> NONE) by congruence.
    split; [exact Hn | exact (match_row_confidence _ _ _ _ Hch Hn)].
  - right. assert (Hn : match_type ch <> NONE) by congruence.
    split; [exact Hn | exact (match_row_confidence _ _ _ _ Hch Hn)].
  - left. rewrite Hty, Hp, Hc. repeat split.
Qed.

Lemma process_records_shape (blocks : list Block) (scan : option (list item_t))
      (sheet_date sheet_id : string) :
  exists rep,
    process blocks scan sheet_date sheet_id = Some rep
    /\ Forall record_shape (processed_records (rp_state rep)).
Proof.
  destruct (process_invariant
              (fun st => Forall record_shape (processed_records st))
              blocks scan sheet_date sheet_id) as (rep & E & H & _).
  - constructor.
  - intros st [i r] ch Hst Hch st' Hst'. unfold process_row in Hst'.
    cbn [snd] in Hch. rewrite Hch in Hst'. injection Hst' as <-.
    cbn [processed_records]. apply Forall_app. split; [exact Hst|].
    constructor; [|constructor]. exact (record_of_shape _ _ _ _ _ Hch).
  - now exists rep.
Qed.

(** X14: no record has a confidence between 0 and one half: an unmatched
    record has confidence exactly 0, no matched name and is not valid; a
    matched record has a confidence above 0.5 and at most 1. *)
Theorem confidence_gap :
  forall (blocks : list Block) (scan : option (list item_t))
         (sheet_date sheet_id : string),
    exists rep,
      process blocks scan sheet_date sheet_id = Some rep
      /\ Forall (fun rec =>
                   (rec_match_type rec = NONE /\ rec_confidence rec = 0%Q
                    /\ rec_matched_name rec = "" /\ rec_valid rec = false)
                   \/ (rec_match_type rec <> NONE
                       /\ (1 # 2 < rec_confidence rec <= 1)%Q))
                (processed_records (rp_state rep)).
Proof.
  intros blocks scan sheet_date sheet_id.
  destruct (process_records_shape blocks scan sheet_date sheet_id) as (rep & E & H).
  exists rep. split; [exact E | exact H].
Qed.

(** ** Summary counts *)

Lemma count_app {A : Type} (f : A -> bool) (l1 l2 : list A) :
  count f (l1 ++ l2) = count f l1 + count f l2.
Proof. unfold count. now rewrite filter_app, length_app. Qed.

Lemma count_le {A : Type} (f g : A -> bool) (l : list A) :
  Forall (fun x => f x = true -> g x = true) l -> count f l <= count g l.
Proof.
  unfold count. induction 1 as [|x l Hx Hl IH]; cbn [filter]; [lia|].
  destruct (f x) eqn:Ef.
  - rewrite (Hx eq_refl). cbn [List.length]. lia.
  - destruct (g x); cbn [List.length]; lia.
Qed.

Lemma count_types (l : list record_t) :
  count (fun r => match_type_eqb (rec_match_type r) ID) l
  + count (fun r => match_type_eqb (rec_match_type r) NAME) l
  + count (fun r => match_type_eqb (rec_match_type r) NONE) l
  = List.length l.
Proof.
  unfold count. induction l as [|x l IH]; cbn [filter List.length]; [reflexivity|].
  destruct (rec_match_type x); cbn [match_type_eqb List.length]; lia.
Qed.

Lemma count_not_none (l : list record_t) :
  count (fun r => negb (match_type_eqb (rec_match_type r) NONE)) l
  = count (fun r => match_type_eqb (rec_match_type r) ID) l
    + count (fun r => match_type_eqb (rec_match_type r) NAME) l.
Proof.
  unfold count. induction l as [|x l IH]; cbn [filter List.length]; [reflexivity|].
  destruct (rec_match_type x); cbn [match_type_eqb negb List.length]; lia.
Qed.

Lemma length_unmatched_names (l : list record_t) :
  List.length (unmatched_names l)
  <= count (fun r => match_type_eqb (rec_match_type r) NONE) l.
Proof.
  unfold unmatched_names, count. rewrite length_map.
  induction l as [|x l IH]; cbn [filter]; [lia|].
  destruct (match_type_eqb (rec_match_type x) NONE); cbn [andb].
  - destruct (PyStr.truthy (rec_textract_name x)); cbn [List.length]; lia.
  - exact IH.
Qed.

(** X15: the summary counts are consistent: the identifier, name and
    unmatched counts add up to the number of rows; every valid match is a
    high-confidence match and a match by identifier or by name; and the
    extra names are at most as many as the unmatched rows. *)
Theorem summary_counts_consistent :
  forall (blocks : list Block) (scan : option (list item_t))
         (sheet_date sheet_id : string),
    exists rep,
      process blocks scan sheet_date sheet_id = Some rep
      /\ id_matches rep + name_matches rep + no_matches rep = total_rows rep
      /\ valid_matches rep <= high_conf_matches rep
      /\ valid_matches rep <= id_matches rep + name_matches rep
      /\ List.length (extra_names (rp_state rep)) <= no_matches rep.
Proof.
  intros blocks scan sheet_date sheet_id.
  destruct (process_invariant
              (fun st =>
                 Forall (fun rec => rec_valid rec = true ->
                                    Qgeb (rec_confidence rec) (8 # 10) = true
                                    /\ rec_match_type rec <> NONE)
                        (processed_records st)
                 /\ extra_names st = unmatched_names (processed_records st))
              blocks scan sheet_date sheet_id) as (rep & E & [Hv Hx] & _).
  - split; [constructor | reflexivity].
  - intros st [i r] ch [Hst Hex] Hch st' Hst'. unfold process_row in Hst'.
    cbn [snd] in Hch. rewrite Hch in Hst'. injection Hst' as <-.
    cbn [processed_records extra_names].
    pose proof (match_row_cases _ _ _ _ Hch) as Hc. split.
    + apply Forall_app. split; [exact Hst|]. constructor; [|constructor].
      cbn [record_of rec_valid rec_confidence rec_match_type]. unfold valid_of.
      intros Hvalid. apply andb_true_iff in Hvalid as [Hp Hconf]. split.
      * apply Qgeb_le. apply Qgeb_le in Hconf.
        apply Qle_trans with (9 # 10)%Q; [discriminate | exact Hconf].
      * destruct Hc as [(Hty & _) | [(Hty & _) | (_ & Hnone & _)]];
          [congruence | congruence |].
        rewrite Hnone in Hp. discriminate Hp.
    + unfold unmatched_names in *. rewrite filter_app, map_app, <- Hex.
      cbn [filter record_of rec_match_type rec_textract_name].
      destruct Hc as [(Hty & -> & _) | [(Hty & -> & _) | (Hty & _ & _ & _ & ->)]];
        rewrite Hty; cbn [match_type_eqb andb map].
      * now rewrite app_nil_r.
      * now rewrite app_nil_r.
      * destruct (PyStr.truthy (row_name r)); cbn [map];
          [reflexivity | now rewrite app_nil_r].
  - exists rep. split; [exact E|].
    destruct (process_fields _ _ _ _ _ E) as (Hfold & Htot & Hval & Hhigh & Hid & Hname & Hno & _).
    destruct (process_rows_shape _ _ _ _ _ _ Hfold) as (recs & its & H1 & _ & H3 & _).
    cbn [init_state processed_records app] in H1.
    assert (Hlen : List.length (processed_records (rp_state rep))
                   = List.length (parse_first_table blocks)).
    { rewrite H1, <- (length_map rec_row), H3, length_map.
      rewrite <- (length_map snd (enumerate 1 (parse_first_table blocks))), enumerate_snd.
      reflexivity. }
    rewrite Hid, Hname, Hno, Htot, Hval, Hhigh, Hx.
    split; [rewrite count_types; exact Hlen|].
    split; [|split].
    + apply count_le. eapply Forall_impl; [|exact Hv]. intros rec H Hr. now apply H.
    + rewrite <- (count_types (processed_records (rp_state rep))) in Hlen.
      assert (Hle : count rec_valid (processed_records (rp_state rep))
                    <= count (fun r => negb (match_type_eqb (rec_match_type r) NONE))
                             (processed_records (rp_state rep))).
      { apply count_le. eapply Forall_impl; [|exact Hv]. intros rec H Hr.
        destruct (H Hr) as [_ Hn]. destruct (rec_match_type rec); [reflexivity.. | congruence]. }
      pose proof (count_not_none (processed_records (rp_state rep))) as Hsplit.
      lia.
    + apply length_unmatched_names.
Qed.

(** ** Roster-side sets *)

Lemma NoDup_same_length (l1 l2 : list string) :
  NoDup l1 -> NoDup l2 -> incl l1 l2 -> incl l2 l1 ->
  List.length l1 = List.length l2.
Proof.
  intros H1 H2 I1 I2. apply Nat.le_antisymm; now apply NoDup_incl_length.
Qed.

Lemma filter_split_length {A : Type} (f : A -> bool) (l : list A) :
  List.length (filter f l) + List.length (filter (fun x => negb (f x)) l)
  = List.length l.
Proof.
  induction l as [|x l IH]; cbn [filter List.length]; [reflexivity|].
  destruct (f x); cbn [negb List.length]; lia.
Qed.

(** The state of the loop keeps the matched identifiers distinct and
    inside the roster. *)
Lemma process_matched_set (blocks : list Block) (scan : option (list item_t))
      (sheet_date sheet_id : string) :
  exists rep,
    process blocks scan sheet_date sheet_id = Some rep
    /\ NoDup (matched_employees (rp_state rep))
    /\ incl (matched_employees (rp_state rep))
            (Dict.keys (get_all_employee_profiles scan)).
Proof.
  destruct (roster_well_formed scan) as [Hvals Hkeys].
  destruct (process_invariant
              (fun st =>
                 NoDup (matched_employees st)
                 /\ incl (matched_employees st)
                         (Dict.keys (get_all_employee_profiles scan)))
              blocks scan sheet_date sheet_id) as (rep & E & H & _).
  - split; [constructor | intros x []].
  - intros st [i r] ch (Hnd & Hin) Hch st' Hst'. unfold process_row in Hst'.
    cbn [snd] in Hch. rewrite Hch in Hst'. injection Hst' as <-.
    cbn [matched_employees].
    pose proof (matched_iff_not_none _ _ _ _ Hvals Hch) as Hm.
    destruct (opt_dict_truthy (matched_profile ch)) eqn:Et; [|now split].
    assert (Hty : match_type ch <> NONE) by now apply Hm.
    split; [now apply set_add_NoDup|].
    apply set_add_incl; [|exact Hin].
    destruct (match_row_cases _ _ _ _ Hch)
      as [(_ & _ & _ & p & _ & Hp) | [(_ & _ & p & _ & Hp) | (Hty' & _)]];
      [| | contradiction];
      apply (in_map fst) in Hp; exact Hp.
  - exists rep. now split.
Qed.

Lemma set_add_length (x : string) (s : list string) :
  List.length (set_add x s) <= S (List.length s).
Proof.
  unfold set_add. destruct (existsb (String.eqb x) s); [lia|].
  rewrite length_app. cbn [List.length]. lia.
Qed.

(** Each matched identifier comes from a matched row. *)
Lemma process_matched_rows (blocks : list Block) (scan : option (list item_t))
      (sheet_date sheet_id : string) :
  exists rep,
    process blocks scan sheet_date sheet_id = Some rep
    /\ List.length (matched_employees (rp_state rep))
       <= count (fun r => negb (match_type_eqb (rec_match_type r) NONE))
                (processed_records (rp_state rep)).
Proof.
  destruct (roster_well_formed scan) as [Hvals _].
  destruct (process_invariant
              (fun st =>
                 List.length (matched_employees st)
                 <= count (fun r => negb (match_type_eqb (rec_match_type r) NONE))
                          (processed_records st))
              blocks scan sheet_date sheet_id) as (rep & E & H & _).
  - cbn. lia.
  - intros st [i r] ch Hst Hch st' Hst'. unfold process_row in Hst'.
    cbn [snd] in Hch. rewrite Hch in Hst'. injection Hst' as <-.
    cbn [matched_employees processed_records]. rewrite count_app.
    pose proof (matched_iff_not_none _ _ _ _ Hvals Hch) as Hm.
    unfold count at 2. cbn [filter record_of rec_match_type].
    destruct (opt_dict_truthy (matched_profile ch)) eqn:Et.
    + assert (Hty : match_type ch <> NONE) by now apply Hm.
      pose proof (set_add_length (matched_emp_id ch) (matched_employees st)) as Hl.
      destruct (match_type ch); [cbn; lia | cbn; lia | congruence].
    + lia.
  - now exists rep.
Qed.

(** X16: the matched identifiers are at most as many as the roster
    identifiers and at most as many as the rows matched by identifier or by
    name (several rows may match the same employee, who is counted once);
    hence the overall match percentage lies between 0 and 100. *)
Theorem overall_pct_range :
  forall (blocks : list Block) (scan : option (list item_t))
         (sheet_date sheet_id : string),
    exists rep,
      process blocks scan sheet_date sheet_id = Some rep
      /\ List.length (matched_employees (rp_state rep))
         <= List.length (get_all_employee_profiles scan)
      /\ List.length (matched_employees (rp_state rep))
         <= id_matches rep + name_matches rep
      /\ (0 <= overall_match_pct rep <= 100)%Q.
Proof.
  intros blocks scan sheet_date sheet_id.
  destruct (process_matched_set blocks scan sheet_date sheet_id) as (rep & E & Hnd & Hin).
  exists rep. split; [exact E|].
  destruct (process_fields _ _ _ _ _ E) as (_ & _ & _ & _ & Hid & Hname & _ & _ & Hpct).
  assert (Hle : List.length (matched_employees (rp_state rep))
                <= List.length (get_all_employee_profiles scan)).
  { rewrite <- (length_map fst (get_all_employee_profiles scan)).
    now apply NoDup_incl_length. }
  split; [exact Hle|]. split.
  { destruct (process_matched_rows blocks scan sheet_date sheet_id) as (rep' & E' & Hrows).
    rewrite E in E'. injection E' as <-.
    rewrite Hid, Hname, <- count_not_none. exact Hrows. }
  unfold overall_pct in Hpct.
  destruct (get_all_employee_profiles scan) as [|e l] eqn:Er; cbn [dict_truthy] in Hpct.
  - injection Hpct as <-. split; discriminate.
  - unfold py_truediv in Hpct. cbn [List.length] in *.
    rewrite Nat2Z.inj_succ in Hpct.
    destruct (Z.succ (Z.of_nat (List.length l))) as [|p|p] eqn:Ep; try lia.
    injection Hpct as <-.
    unfold Qle, Qmult; cbn [Qnum Qden]. split; [lia|].
    rewrite Pos2Z.inj_mul. nia.
Qed.

(** X17: the roster is split in two: an identifier is reported as not in
    the sheet exactly when it is a roster identifier that no row matched,
    and the unmatched and the matched identifiers together are as many as
    the roster identifiers. *)
Theorem unmatched_complement :
  forall (blocks : list Block) (scan : option (list item_t))
         (sheet_date sheet_id : string),
    let roster := get_all_employee_profiles scan in
    exists rep,
      process blocks scan sheet_date sheet_id = Some rep
      /\ (forall k, In k (unmatched_employees rep) <->
                    In k (Dict.keys roster) /\ ~ In k (matched_employees (rp_state rep)))
      /\ NoDup (unmatched_employees rep)
      /\ List.length (unmatched_employees rep)
         + List.length (matched_employees (rp_state rep))
         = List.length roster.
Proof.
  intros blocks scan sheet_date sheet_id roster.
  destruct (process_matched_set blocks scan sheet_date sheet_id) as (rep & E & Hnd & Hin).
  exists rep. split; [exact E|].
  destruct (process_fields _ _ _ _ _ E) as (_ & _ & _ & _ & _ & _ & _ & Hun & _).
  fold roster in Hun, Hin.
  destruct (roster_well_formed scan) as [_ Hkeys]. fold roster in Hkeys.
  set (matched := matched_employees (rp_state rep)) in *.
  rewrite Hun. split; [|split].
  - intros k. rewrite filter_In, negb_true_iff.
    split; intros [H1 H2]; (split; [exact H1|]).
    + intros H. apply existsb_eqb_In in H. congruence.
    + destruct (existsb (String.eqb k) matched) eqn:Ex; [|reflexivity].
      apply existsb_eqb_In in Ex. contradiction.
  - now apply NoDup_filter.
  - pose proof (filter_split_length (fun k => existsb (String.eqb k) matched)
                                    (Dict.keys roster)) as Hsplit.
    assert (Hm : List.length (filter (fun k => existsb (String.eqb k) matched)
                                     (Dict.keys roster))
                 = List.length matched).
    { apply NoDup_same_length.
      - now apply NoDup_filter.
      - exact Hnd.
      - intros k Hk. apply filter_In in Hk. destruct Hk as [_ Hk].
        now apply existsb_eqb_In.
      - intros k Hk. apply filter_In. split; [now apply Hin|].
        now apply existsb_eqb_In. }
    unfold Dict.keys in *. rewrite length_map in Hsplit. lia.
Qed.

(** ** Matched records and the roster *)

Lemma truthy_nonempty (s : string) : PyStr.truthy s = true -> s <> "".
Proof. intros H ->. discriminate H. Qed.

Lemma record_of_from_roster (roster : profiles_t) (i : Z) (r : row_t)
      (extra_names : list string) (ch : choice_t) :
  Forall (fun e => dict_truthy (snd e) = true) roster ->
  NoDup (Dict.keys roster) ->
  match_row roster r extra_names = Some ch ->
  record_from_roster roster (record_of i r ch).
Proof.
  intros Hvals Hkeys Hch. unfold record_from_roster, record_of.
  cbn [rec_match_type rec_matched_emp_id rec_matched_name rec_emp_id].
  rewrite Forall_forall in Hvals.
  assert (Hname : forall p, In (matched_emp_id ch, p) roster ->
                            matched_profile ch = Some p ->
                            exists q, Dict.get String.eqb (matched_emp_id ch) roster = Some q
                                      /\ matched_name_of (matched_profile ch)
                                         = get_str "Name" q "").
  { intros p Hin Hp. exists p. split.
    - apply (dict_In_get String.eqb String.eqb_eq); assumption.
    - rewrite Hp. cbn [matched_name_of]. pose proof (Hvals _ Hin) as Ht.
      cbn [snd] in Ht. now rewrite Ht. }
  intros Hty. split.
  - destruct (match_row_cases _ _ _ _ Hch)
      as [(_ & _ & _ & p & Hp & Hin) | [(_ & _ & p & Hp & Hin) | (Hnone & _)]];
      [now apply (Hname p) | now apply (Hname p) | contradiction].
  - intros Hid. unfold match_row in Hch.
    destruct (direct_path_cases (row_name r) (row_emp_id r) roster)
      as [E | (p & _ & Ht & E)]; rewrite E in Hch; clear E;
      destruct (find_best_match (row_name r) roster) as [nm nc]; unfold choose in Hch.
    + replace (Qgeb 0 nc && Qgtb 0 (1 # 2)) with false in Hch
        by (now rewrite andb_false_r).
      destruct (Qgtb nc (1 # 2)); [destruct nm as [m|]; [|discriminate]|];
        injection Hch as <-; discriminate Hid.
    + destruct (Qgeb _ nc && Qgtb _ (1 # 2)).
      * injection Hch as <-. cbn [matched_emp_id]. split; [reflexivity|].
        now apply truthy_nonempty.
      * destruct (Qgtb nc (1 # 2)); [destruct nm as [m|]; [|discriminate]|];
          injection Hch as <-; discriminate Hid.
Qed.

(** X18: a record that matched names a roster entry: its matched
    identifier is a key of the roster and its matched name is the [Name] of
    that entry; when the match is by identifier, the matched identifier is
    the (non-empty) normalized identifier of the row itself. *)
Theorem matched_record_from_roster :
  forall (blocks : list Block) (scan : option (list item_t))
         (sheet_date sheet_id : string),
    let roster := get_all_employee_profiles scan in
    exists rep,
      process blocks scan sheet_date sheet_id = Some rep
      /\ Forall (fun rec =>
                   rec_match_type rec <> NONE ->
                   (exists p,
                       Dict.get String.eqb (rec_matched_emp_id rec) roster = Some p
                       /\ rec_matched_name rec = get_str "Name" p "")
                   /\ (rec_match_type rec = ID ->
                       rec_matched_emp_id rec = rec_emp_id rec
                       /\ rec_emp_id rec <> ""))
                (processed_records (rp_state rep)).
Proof.
  intros blocks scan sheet_date sheet_id roster.
  destruct (roster_well_formed scan) as [Hvals Hkeys]. fold roster in Hvals, Hkeys.
  destruct (process_invariant
              (fun st => Forall (record_from_roster roster) (processed_records st))
              blocks scan sheet_date sheet_id) as (rep & E & H & _).
  - constructor.
  - intros st [i r] ch Hst Hch st' Hst'. unfold process_row in Hst'.
    cbn [snd] in Hch. rewrite Hch in Hst'. injection Hst' as <-.
    cbn [processed_records]. apply Forall_app. split; [exact Hst|].
    constructor; [|constructor].
    exact (record_of_from_roster roster i r _ ch Hvals Hkeys Hch).
  - exists rep. split; [exact E | exact H].
Qed.

(** ** The status line and the array of successful matches *)

Lemma Qgtb_false_le (x y : Q) : Qgtb x y = false -> (x <= y)%Q.
Proof.
  intros H. destruct (Qlt_le_dec y x) as [Hlt | Hle]; [|exact Hle].
  apply Qgtb_lt in Hlt. congruence.
Qed.

Lemma Qgeb_false_lt (x y : Q) : Qgeb x y = false -> (x < y)%Q.
Proof.
  intros H. destruct (Qlt_le_dec x y) as [Hlt | Hle]; [exact Hlt|].
  apply Qgeb_le in Hle. congruence.
Qed.

Lemma record_of_status (roster : profiles_t) (i : Z) (r : row_t)
      (extra_names : list string) (ch : choice_t) :
  Forall (fun e => dict_truthy (snd e) = true) roster ->
  match_row roster r extra_names = Some ch ->
  status_reading (record_of i r ch).
Proof.
  intros Hvals Hch. unfold status_reading, record_of.
  cbn [rec_valid rec_confidence rec_match_type].
  pose proof (matched_iff_not_none _ _ _ _ Hvals Hch) as Hm.
  pose proof (match_row_confidence _ _ _ _ Hch) as Hconf.
  assert (Hmatched : match_type ch <> NONE ->
                     (status_of (valid_of (matched_profile ch) (confidence ch))
                                (confidence ch) = NO_MATCH
                      <-> match_type ch = NONE)
                     /\ (status_of (valid_of (matched_profile ch) (confidence ch))
                                   (confidence ch) = MATCHED
                         <-> match_type ch <> NONE /\ (9 # 10 <= confidence ch)%Q)
                     /\ (status_of (valid_of (matched_profile ch) (confidence ch))
                                   (confidence ch) = LOW_CONF
                         <-> match_type ch <> NONE /\ (confidence ch < 9 # 10)%Q)).
  { intros Hn. destruct (Hconf Hn) as [Hlo _]. apply Hm in Hn as Ht.
    unfold valid_of, status_of. rewrite Ht. cbn [andb].
    assert (Hpos : Qgtb (confidence ch) 0 = true).
    { apply Qgtb_lt. apply Qlt_trans with (1 # 2)%Q; [reflexivity | exact Hlo]. }
    destruct (Qgeb (confidence ch) (9 # 10)) eqn:Eg.
    - apply Qgeb_le in Eg. split; [|split].
      + split; [discriminate | congruence].
      + split; [intros _; now split | reflexivity].
      + split; [discriminate|]. intros [_ Hq]. exfalso.
        apply (Qlt_irrefl (9 # 10)). eapply Qle_lt_trans; eassumption.
    - rewrite Hpos. apply Qgeb_false_lt in Eg. split; [|split].
      + split; [discriminate | congruence].
      + split; [discriminate|]. intros [_ Hq]. exfalso.
        apply (Qlt_irrefl (9 # 10)). eapply Qle_lt_trans; eassumption.
      + split; [intros _; now split | reflexivity]. }
  destruct (match_row_cases _ _ _ _ Hch)
    as [(Hty & _) | [(Hty & _) | (Hty & Hp & Hc & _)]].
  - apply Hmatched. congruence.
  - apply Hmatched. congruence.
  - rewrite Hty, Hp, Hc. unfold valid_of, status_of. cbn.
    split; [split; reflexivity|].
    split; split; try discriminate; intros [H _]; now contradiction H.
Qed.

Lemma filter_ext_Forall {A : Type} (f g : A -> bool) (l : list A) :
  Forall (fun x => f x = g x) l -> filter f l = filter g l.
Proof.
  induction 1 as [|x l Hx Hl IH]; cbn [filter]; [reflexivity|].
  now rewrite Hx, IH.
Qed.

(** X19: the status shown for a record reads its outcome: [NO MATCH]
    exactly for the unmatched records, [MATCHED] exactly for the matched
    records with a confidence of at least 0.9 and [LOW CONF] exactly for the
    matched records below 0.9.  The array of successful matches holds the
    matched records, one entry each: its test [confidence > 0] never removes
    a matched record. *)
Theorem status_and_successful_matches :
  forall (blocks : list Block) (scan : option (list item_t))
         (sheet_date sheet_id : string),
    exists rep,
      process blocks scan sheet_date sheet_id = Some rep
      /\ Forall (fun rec =>
                   (status_of (rec_valid rec) (rec_confidence rec) = NO_MATCH
                    <-> rec_match_type rec = NONE)
                   /\ (status_of (rec_valid rec) (rec_confidence rec) = MATCHED
                       <-> rec_match_type rec <> NONE
                           /\ (9 # 10 <= rec_confidence rec)%Q)
                   /\ (status_of (rec_valid rec) (rec_confidence rec) = LOW_CONF
                       <-> rec_match_type rec <> NONE
                           /\ (rec_confidence rec < 9 # 10)%Q))
                (processed_records (rp_state rep))
      /\ map md_db_id (matched_employee_details (processed_records (rp_state rep)))
         = map rec_matched_emp_id
               (filter (fun rec => negb (match_type_eqb (rec_match_type rec) NONE))
                       (processed_records (rp_state rep)))
      /\ List.length (matched_employee_details (processed_records (rp_state rep)))
         = id_matches rep + name_matches rep.
Proof.
  intros blocks scan sheet_date sheet_id.
  destruct (roster_well_formed scan) as [Hvals _].
  destruct (process_invariant
              (fun st => Forall (fun rec => status_reading rec /\ record_shape rec)
                                (processed_records st))
              blocks scan sheet_date sheet_id) as (rep & E & H & _).
  - constructor.
  - intros st [i r] ch Hst Hch st' Hst'. unfold process_row in Hst'.
    cbn [snd] in Hch. rewrite Hch in Hst'. injection Hst' as <-.
    cbn [processed_records]. apply Forall_app. split; [exact Hst|].
    constructor; [|constructor]. split.
    + exact (record_of_status _ i r _ ch Hvals Hch).
    + exact (record_of_shape _ i r _ ch Hch).
  - exists rep. split; [exact E|].
    destruct (process_fields _ _ _ _ _ E) as (_ & _ & _ & _ & Hid & Hname & _).
    assert (Hf : filter (fun record =>
                           negb (match_type_eqb (rec_match_type record) NONE)
                           && Qgtb (rec_confidence record) 0)
                        (processed_records (rp_state rep))
                 = filter (fun rec => negb (match_type_eqb (rec_match_type rec) NONE))
                          (processed_records (rp_state rep))).
    { apply filter_ext_Forall. eapply Forall_impl; [|exact H].
      intros rec [_ [(Hty & _) | (Hty & Hlo & _)]].
      - rewrite Hty. reflexivity.
      - replace (Qgtb (rec_confidence rec) 0) with true; [now rewrite andb_true_r|].
        symmetry. apply Qgtb_lt. apply Qlt_trans with (1 # 2)%Q; [reflexivity | exact Hlo]. }
    split; [|split].
    + eapply Forall_impl; [|exact H]. intros rec [Hs _]. exact Hs.
    + unfold matched_employee_details. rewrite Hf, map_map. reflexivity.
    + unfold matched_employee_details. rewrite Hf, length_map, Hid, Hname.
      apply count_not_none.
Qed.

(** ** Degenerate inputs *)

Lemma filter_all {A : Type} (f : A -> bool) (l : list A) :
  (forall x, In x l -> f x = true) -> filter f l = l.
Proof.
  induction l as [|x l IH]; cbn [filter]; intros H; [reflexivity|].
  rewrite (H x (or_introl eq_refl)). f_equal. apply IH.
  intros y Hy. apply H. now right.
Qed.

(** X20: a sheet without a table gives the empty report: no record, no
    item and no extra name, all counts 0, every roster identifier reported
    as not in the sheet, and an overall percentage of 0. *)
Theorem no_table_empty_report :
  forall (blocks : list Block) (scan : option (list item_t))
         (sheet_date sheet_id : string),
    (forall blk, In blk blocks -> BlockType blk <> Some "TABLE") ->
    exists rep,
      process blocks scan sheet_date sheet_id = Some rep
      /\ rp_state rep = init_state
      /\ total_rows rep = 0
      /\ valid_matches rep = 0 /\ high_conf_matches rep = 0
      /\ id_matches rep = 0 /\ name_matches rep = 0 /\ no_matches rep = 0
      /\ unmatched_employees rep = Dict.keys (get_all_employee_profiles scan)
      /\ (overall_match_pct rep == 0)%Q.
Proof.
  intros blocks scan sheet_date sheet_id Hno.
  destruct (process_total blocks scan sheet_date sheet_id) as [rep E].
  exists rep. split; [exact E|].
  destruct (process_fields _ _ _ _ _ E)
    as (Hfold & Htot & Hval & Hhigh & Hid & Hname & Hnone & Hun & Hpct).
  assert (Hrows : parse_first_table blocks = []).
  { unfold parse_first_table. now rewrite (find_no_table blocks Hno). }
  rewrite Hrows in Hfold, Htot. cbn [enumerate fold_opt] in Hfold.
  injection Hfold as Hst. rewrite <- Hst in *.
  cbn [init_state processed_records matched_employees count filter List.length] in *.
  repeat (split; [first [reflexivity | assumption] |]).
  split.
  - rewrite Hun. apply filter_all. intros; reflexivity.
  - unfold overall_pct in Hpct.
    destruct (dict_truthy (get_all_employee_profiles scan)).
    + unfold py_truediv in Hpct. cbn [List.length] in Hpct.
      destruct (Z.of_nat (List.length (get_all_employee_profiles scan)));
        [discriminate Hpct | |]; cbn [Z.of_nat Z.opp] in Hpct;
        injection Hpct as <-; reflexivity.
    + injection Hpct as <-. reflexivity.
Qed.

Lemma no_table_empty_report_witness :
  exists rep,
    process [word "w" "Bob"; cell "c" 2 1 ["w"]]
            (Some [[("SK", "PROFILE"); ("EmployeeID", "E1"); ("Name", "Bob")]])
            "2024-01-01" "s"
    = Some rep
    /\ rp_state rep = init_state
    /\ total_rows rep = 0
    /\ valid_matches rep = 0 /\ high_conf_matches rep = 0
    /\ id_matches rep = 0 /\ name_matches rep = 0 /\ no_matches rep = 0
    /\ unmatched_employees rep
       = Dict.keys (get_all_employee_profiles
                      (Some [[("SK", "PROFILE"); ("EmployeeID", "E1"); ("Name", "Bob")]]))
    /\ (overall_match_pct rep == 0)%Q.
Proof.
  apply no_table_empty_report.
  intros blk [<- | [<- | []]]; discriminate.
Defined.

(** With an empty roster no row can match. *)
Lemma match_row_empty_roster (r : row_t) (extra_names : list string) :
  match_row [] r extra_names
  = Some {| matched_profile := None;
            confidence := 0%Q;
            match_type := NONE;
            matched_emp_id := if PyStr.truthy (row_emp_id r)
                              then row_emp_id r else "UNKNOWN";
            extra := if PyStr.truthy (row_name r)
                     then (extra_names ++ [row_name r])%list else extra_names |}.
Proof.
  unfold match_row, direct_path, Dict.mem. cbn [Dict.get].
  rewrite andb_false_r.
  assert (E : find_best_match (row_name r) [] = (None, 0%Q)).
  { unfold find_best_match. destruct (negb _); reflexivity. }
  rewrite E. reflexivity.
Qed.

(** X21: with an empty roster (no profile in the table, or a scan that
    failed) no row matches: every record has type [NONE], no identifier is
    matched, every non-blank name of the sheet is an extra name, in the
    order of the rows, and the overall percentage is 0. *)
Theorem empty_roster_nothing_matches :
  forall (blocks : list Block) (scan : option (list item_t))
         (sheet_date sheet_id : string),
    get_all_employee_profiles scan = [] ->
    exists rep,
      process blocks scan sheet_date sheet_id = Some rep
      /\ Forall (fun rec => rec_match_type rec = NONE)
                (processed_records (rp_state rep))
      /\ matched_employees (rp_state rep) = []
      /\ extra_names (rp_state rep)
         = filter PyStr.truthy (map row_name (parse_first_table blocks))
      /\ no_matches rep = total_rows rep
      /\ unmatched_employees rep = []
      /\ overall_match_pct rep = 0%Q.
Proof.
  intros blocks scan sheet_date sheet_id Hroster.
  destruct (process_total blocks scan sheet_date sheet_id) as [rep E].
  exists rep. split; [exact E|].
  destruct (process_fields _ _ _ _ _ E)
    as (Hfold & Htot & _ & _ & _ & _ & Hnone & Hun & Hpct).
  rewrite Hroster in Hfold, Hun, Hpct.
  assert (H : forall l st st',
             fold_opt (process_row sheet_date sheet_id []) l st = Some st' ->
             matched_employees st' = matched_employees st
             /\ extra_names st'
                = (extra_names st
                   ++ filter PyStr.truthy (map (fun ir => row_name (snd ir)) l))%list
             /\ exists recs,
                 processed_records st' = (processed_records st ++ recs)%list
                 /\ Forall (fun rec => rec_match_type rec = NONE) recs
                 /\ List.length recs = List.length l).
  { induction l as [|[i r] l IH]; intros st st' Hf; cbn [fold_opt] in Hf.
    - injection Hf as <-. cbn [map filter]. rewrite app_nil_r.
      split; [reflexivity|]. split; [reflexivity|].
      exists []. rewrite app_nil_r. repeat split. constructor.
    - destruct (process_row sheet_date sheet_id [] st (i, r)) as [st1|] eqn:E1;
        [|discriminate].
      unfold process_row in E1. rewrite match_row_empty_roster in E1.
      cbn [matched_profile opt_dict_truthy extra] in E1. injection E1 as <-.
      destruct (IH _ _ Hf) as (Hm & Hx & recs & Hr & Hall & Hlen).
      cbn [matched_employees extra_names processed_records] in Hm, Hx, Hr.
      split; [exact Hm|]. split.
      + rewrite Hx. cbn [map filter snd].
        destruct (PyStr.truthy (row_name r)).
        * now rewrite <- app_assoc.
        * reflexivity.
      + eexists (_ :: recs). split; [rewrite Hr, <- app_assoc; reflexivity|].
        split; [constructor; [reflexivity | exact Hall]|].
        cbn [List.length]. now rewrite Hlen. }
  destruct (H _ _ _ Hfold) as (Hm & Hx & recs & Hr & Hall & Hlen).
  cbn [init_state matched_employees extra_names processed_records app] in Hm, Hx, Hr.
  rewrite Hr. split; [exact Hall|]. split; [exact Hm|]. split.
  - rewrite Hx. rewrite <- (map_map snd row_name), enumerate_snd. reflexivity.
  - split; [|split].
    + rewrite Hnone, Htot, Hr. unfold count.
      rewrite filter_all.
      * rewrite Hlen, <- (length_map snd (enumerate 1 (parse_first_table blocks))),
          enumerate_snd. reflexivity.
      * rewrite Forall_forall in Hall. intros x Hx'. now rewrite (Hall x Hx').
    + rewrite Hun. reflexivity.
    + unfold overall_pct in Hpct. cbn [dict_truthy] in Hpct. now injection Hpct as <-.
Qed.

Lemma empty_roster_nothing_matches_witness :
  exists rep,
    process [table "t" ["c1"; "c2"];
             cell "c1" 1 1 ["w1"]; cell "c2" 2 1 ["w2"];
             word "w1" "Name"; word "w2" "Bob"]
            None "2024-01-01" "s"
    = Some rep
    /\ Forall (fun rec => rec_match_type rec = NONE)
              (processed_records (rp_state rep))
    /\ matched_employees (rp_state rep) = []
    /\ extra_names (rp_state rep)
       = filter PyStr.truthy
                (map row_name
                     (parse_first_table
                        [table "t" ["c1"; "c2"];
                         cell "c1" 1 1 ["w1"]; cell "c2" 2 1 ["w2"];
                         word "w1" "Name"; word "w2" "Bob"]))
    /\ no_matches rep = total_rows rep
    /\ unmatched_employees rep = []
    /\ overall_match_pct rep = 0%Q.
Proof.
  apply empty_roster_nothing_matches. reflexivity.
Defined.

(** ** The matcher: the blocks are common to both sequences *)

Section MatcherSound.
Variables a b : list ascii.

Lemma lookup_at (c : ascii) (j : nat) :
  In j (lookup b c) -> Difflib.at_b b j = c.
Proof.
  destruct (lookup_cases b c) as [E|E]; rewrite E; [intros []|].
  intros H. apply pos_from_In in H. destruct H as [_ H].
  now rewrite Nat.sub_0_r in H.
Qed.

Lemma row_loop_match (j2len : Difflib.j2len_t) (alo blo bhi i : nat)
      (js : list nat) (newj2len : Difflib.j2len_t) (best : Difflib.Match) :
  lens_bounded alo blo i j2len ->
  lens_match a b i j2len ->
  Forall (fun j => Difflib.at_b b j = Difflib.at_a a i) js ->
  lens_match a b (S i) newj2len ->
  is_match a b best ->
  let res := Difflib.row_loop j2len i blo bhi js newj2len best in
  lens_match a b (S i) (fst res) /\ is_match a b (snd res).
Proof.
  intros Hb Hold Hjs. revert newj2len best.
  induction Hjs as [|j js Hj Hjs IH]; intros newj2len best Hnew Hbest;
    cbn [Difflib.row_loop]; [now split|].
  destruct (Nat.ltb_spec j blo) as [Hlt|Hge]; [now apply IH|].
  destruct (Nat.leb_spec bhi j) as [Hhi|Hlo]; [now split|].
  destruct (Hb j Hge) as [Hba Hbb].
  assert (Hcol : forall t, t < Difflib.j2lenget j2len j + 1 ->
                           Difflib.at_a a (i - t) = Difflib.at_b b (j - t)).
  { intros [|t] Ht.
    - rewrite !Nat.sub_0_r. now symmetry.
    - replace (i - S t) with (i - 1 - t) by lia.
      replace (j - S t) with (j - 1 - t) by lia.
      apply Hold. lia. }
  apply IH.
  - intros j0 t Ht. rewrite j2lenget_set in Ht. destruct j0 as [|j']; [lia|].
    destruct (Nat.eqb_spec j' j) as [->|Hne].
    + replace (S i - 1 - t) with (i - t) by lia.
      replace (S j - 1 - t) with (j - t) by lia. now apply Hcol.
    + now apply Hnew.
  - destruct (Nat.ltb_spec (Difflib.m_size best) (Difflib.j2lenget j2len j + 1));
      [|exact Hbest].
    intros t Ht. cbn [Difflib.m_a Difflib.m_b Difflib.m_size] in *.
    replace (i + 1 - (Difflib.j2lenget j2len j + 1) + t)
      with (i - (Difflib.j2lenget j2len j - t)) by lia.
    replace (j + 1 - (Difflib.j2lenget j2len j + 1) + t)
      with (j - (Difflib.j2lenget j2len j - t)) by lia.
    apply Hcol. lia.
Qed.

Lemma lens_match_nil (i : nat) : lens_match a b i [].
Proof. intros [|j] t Ht; cbn in Ht; lia. Qed.

Lemma main_loop_match (alo ahi blo bhi : nat) :
  alo <= ahi -> blo <= bhi ->
  is_match a b (snd (Difflib.main_loop a b alo ahi blo bhi)).
Proof.
  intros Ha Hb. unfold Difflib.main_loop.
  set (step := fun (st : Difflib.j2len_t * Difflib.Match) i =>
         Difflib.row_loop (fst st) i blo bhi
           match Dict.get Difflib.ascii_eqb (Difflib.at_a a i) (Difflib.chain_b b) with
           | Some l => l
           | None => []
           end [] (snd st)).
  assert (H : forall n i st,
             alo <= i -> i + n <= ahi ->
             lens_bounded alo blo i (fst st) -> in_window alo ahi blo bhi (snd st) ->
             lens_match a b i (fst st) -> is_match a b (snd st) ->
             is_match a b (snd (fold_left step (seq i n) st))).
  { induction n as [|n IH]; intros i st Hi Hn Hl Hw Hlm Hm; cbn [seq fold_left];
      [exact Hm|].
    assert (Hrow : lens_bounded alo blo (S i) (fst (step st i))
                   /\ in_window alo ahi blo bhi (snd (step st i))).
    { unfold step. apply row_loop_range; try assumption; try lia.
      apply lens_bounded_nil; lia. }
    assert (Hrow' : lens_match a b (S i) (fst (step st i))
                    /\ is_match a b (snd (step st i))).
    { unfold step. apply (row_loop_match (fst st) alo); try assumption.
      - apply Forall_forall. intros j Hj. now apply lookup_at.
      - apply lens_match_nil. }
    destruct Hrow as [H1 H2]. destruct Hrow' as [H3 H4].
    apply IH; try assumption; lia. }
  apply H; try lia.
  - apply lens_bounded_nil; lia.
  - unfold in_window; cbn. lia.
  - apply lens_match_nil.
  - intros t Ht. cbn in Ht. lia.
Qed.

Lemma extend_back_match (P : ascii -> bool) (alo blo n : nat) (m : Difflib.Match) :
  is_match a b m -> is_match a b (Difflib.extend_back a b P alo blo n m).
Proof.
  revert m; induction n as [|n IH]; intros m Hm; cbn [Difflib.extend_back];
    [exact Hm|].
  destruct (Nat.ltb_spec alo (Difflib.m_a m)); cbn [andb]; [|exact Hm].
  destruct (Nat.ltb_spec blo (Difflib.m_b m)); cbn [andb]; [|exact Hm].
  destruct (P _); cbn [andb]; [|exact Hm].
  destruct (Difflib.ascii_eqb _ _) eqn:E; [|exact Hm].
  apply ascii_eqb_eq in E. apply IH.
  intros [|t] Ht; cbn [Difflib.m_a Difflib.m_b Difflib.m_size] in *.
  - now rewrite !Nat.add_0_r.
  - replace (Difflib.m_a m - 1 + S t) with (Difflib.m_a m + t) by lia.
    replace (Difflib.m_b m - 1 + S t) with (Difflib.m_b m + t) by lia.
    apply Hm. lia.
Qed.

Lemma extend_fwd_match (P : ascii -> bool) (ahi bhi n : nat) (m : Difflib.Match) :
  is_match a b m -> is_match a b (Difflib.extend_fwd a b P ahi bhi n m).
Proof.
  revert m; induction n as [|n IH]; intros m Hm; cbn [Difflib.extend_fwd];
    [exact Hm|].
  destruct (_ <? ahi)%nat; cbn [andb]; [|exact Hm].
  destruct (_ <? bhi)%nat; cbn [andb]; [|exact Hm].
  destruct (P _); cbn [andb]; [|exact Hm].
  destruct (Difflib.ascii_eqb _ _) eqn:E; [|exact Hm].
  apply ascii_eqb_eq in E. apply IH.
  intros t Ht; cbn [Difflib.m_a Difflib.m_b Difflib.m_size] in *.
  destruct (Nat.eq_dec t (Difflib.m_size m)) as [->|Hne]; [exact E|].
  apply Hm. lia.
Qed.

Lemma find_longest_match_common (alo ahi blo bhi : nat) :
  alo <= ahi -> blo <= bhi -> ahi <= List.length a -> bhi <= List.length b ->
  common_block a b (Difflib.find_longest_match a b alo ahi blo bhi)
  /\ in_window alo ahi blo bhi (Difflib.find_longest_match a b alo ahi blo bhi).
Proof.
  intros Ha Hb Hla Hlb.
  pose proof (find_longest_match_range a b alo ahi blo bhi Ha Hb) as Hw.
  split; [|exact Hw]. split.
  - unfold Difflib.find_longest_match.
    apply extend_fwd_match, extend_back_match, extend_fwd_match, extend_back_match.
    now apply main_loop_match.
  - unfold in_window in Hw. lia.
Qed.

(** The scan only adds common blocks. *)
Lemma blocks_loop_common (fuel : nat) :
  forall (queue : list (nat * nat * nat * nat)) (acc res : list Difflib.Match),
    Forall (fun w => window_ok w /\ inside a b w) queue ->
    Forall (common_block a b) acc ->
    Difflib.blocks_loop a b fuel queue acc = Some res ->
    Forall (common_block a b) res.
Proof.
  induction fuel as [|fuel IH]; intros queue acc res Hq Hacc E;
    destruct queue as [|[[[alo ahi] blo] bhi] queue]; cbn [Difflib.blocks_loop] in E;
    try discriminate; try (injection E as <-; exact Hacc).
  inversion Hq as [|? ? Hw0 Hq']; subst.
  unfold window_ok, inside in Hw0. destruct Hw0 as [[Ha Hb] [Hla Hlb]].
  destruct (find_longest_match_common alo ahi blo bhi Ha Hb Hla Hlb) as [Hc Hw].
  set (x := Difflib.find_longest_match a b alo ahi blo bhi) in *.
  unfold in_window in Hw.
  destruct (Nat.eqb_spec (Difflib.m_size x) 0) as [Hz|Hnz]; [now apply (IH _ _ _ Hq' Hacc)|].
  refine (IH _ _ _ _ _ E).
  - assert (Hq1 : Forall (fun w => window_ok w /\ inside a b w)
                         (if (alo <? Difflib.m_a x)%nat && (blo <? Difflib.m_b x)%nat
                          then (alo, Difflib.m_a x, blo, Difflib.m_b x) :: queue
                          else queue)).
    { destruct ((alo <? Difflib.m_a x)%nat && (blo <? Difflib.m_b x)%nat);
        [|exact Hq'].
      constructor; [|exact Hq']. unfold window_ok, inside. lia. }
    destruct ((Difflib.m_a x + Difflib.m_size x <? ahi)%nat
              && (Difflib.m_b x + Difflib.m_size x <? bhi)%nat); [|exact Hq1].
    constructor; [|exact Hq1]. unfold window_ok, inside. lia.
  - apply Forall_app. split; [exact Hacc|]. constructor; [exact Hc | constructor].
Qed.

Lemma insert_sorted_Forall (P : Difflib.Match -> Prop) (x : Difflib.Match)
      (l : list Difflib.Match) :
  P x -> Forall P l -> Forall P (Difflib.insert_sorted x l).
Proof.
  intros Hx. induction 1 as [|y l Hy Hl IH]; cbn [Difflib.insert_sorted].
  - constructor; [exact Hx | constructor].
  - destruct (Difflib.match_leb x y).
    + constructor; [exact Hx|]. now constructor.
    + now constructor.
Qed.

Lemma sort_blocks_Forall (P : Difflib.Match -> Prop) (l : list Difflib.Match) :
  Forall P l -> Forall P (Difflib.sort_blocks l).
Proof.
  induction 1 as [|x l Hx Hl IH]; [constructor|].
  cbn [Difflib.sort_blocks fold_right]. fold (Difflib.sort_blocks l).
  now apply insert_sorted_Forall.
Qed.

Lemma collapse_common (l : list Difflib.Match) :
  forall (i1 j1 k1 : nat) (acc : list Difflib.Match),
    common_block a b {| Difflib.m_a := i1; Difflib.m_b := j1; Difflib.m_size := k1 |} ->
    Forall (common_block a b) l ->
    Forall (common_block a b) acc ->
    let '(i2, j2, k2, res) := Difflib.collapse i1 j1 k1 l acc in
    common_block a b {| Difflib.m_a := i2; Difflib.m_b := j2; Difflib.m_size := k2 |}
    /\ Forall (common_block a b) res.
Proof.
  induction l as [|x l IH]; intros i1 j1 k1 acc Hp Hl Hacc; cbn [Difflib.collapse];
    [now split|].
  inversion Hl as [|? ? Hx Hl']; subst.
  destruct (Nat.eqb_spec (i1 + k1) (Difflib.m_a x)) as [Ei|Ei]; cbn [andb].
  - destruct (Nat.eqb_spec (j1 + k1) (Difflib.m_b x)) as [Ej|Ej].
    + apply IH; try assumption.
      destruct Hp as (Hm & Hpa & Hpb). destruct Hx as (Hxm & Hxa & Hxb).
      cbn [Difflib.m_a Difflib.m_b Difflib.m_size] in *.
      split; [|cbn [Difflib.m_a Difflib.m_b Difflib.m_size]; lia].
      intros t Ht. cbn [Difflib.m_a Difflib.m_b Difflib.m_size] in *.
      destruct (Nat.lt_ge_cases t k1) as [Hlt|Hge]; [now apply Hm|].
      replace (i1 + t) with (Difflib.m_a x + (t - k1)) by lia.
      replace (j1 + t) with (Difflib.m_b x + (t - k1)) by lia.
      apply Hxm. lia.
    + apply IH; [now destruct x | exact Hl' |].
      destruct (k1 =? 0)%nat; [exact Hacc|].
      apply Forall_app. split; [exact Hacc|]. constructor; [exact Hp | constructor].
  - apply IH; [now destruct x | exact Hl' |].
    destruct (k1 =? 0)%nat; [exact Hacc|].
    apply Forall_app. split; [exact Hacc|]. constructor; [exact Hp | constructor].
Qed.

Lemma common_block_empty (i j : nat) :
  i <= List.length a -> j <= List.length b ->
  common_block a b {| Difflib.m_a := i; Difflib.m_b := j; Difflib.m_size := 0 |}.
Proof.
  intros Hi Hj. split; [intros t Ht; cbn in Ht; lia | cbn; lia].
Qed.

Lemma matching_blocks_common :
  Forall (common_block a b) (Difflib.get_matching_blocks a b).
Proof.
  unfold Difflib.get_matching_blocks.
  destruct (blocks_loop_result a b) as (res & E & _). rewrite E.
  assert (Hres : Forall (common_block a b) res).
  { refine (blocks_loop_common _ _ _ _ _ (Forall_nil _) E).
    constructor; [|constructor]. unfold window_ok, inside. lia. }
  pose proof (collapse_common (Difflib.sort_blocks res) 0 0 0 []
                (common_block_empty 0 0 (Nat.le_0_l _) (Nat.le_0_l _))
                (sort_blocks_Forall _ _ Hres) (Forall_nil _)) as Hc.
  destruct (Difflib.collapse 0 0 0 (Difflib.sort_blocks res) [])
    as [[[i1 j1] k1] na].
  destruct Hc as [Hp Hna].
  apply Forall_app. split.
  - destruct (k1 =? 0)%nat; [exact Hna|].
    apply Forall_app. split; [exact Hna|]. constructor; [exact Hp | constructor].
  - constructor; [|constructor]. now apply common_block_empty.
Qed.

(** Without a common element nothing matches. *)
Lemma matches_disjoint :
  (forall c, In c a -> ~ In c b) -> Difflib.matches a b = 0.
Proof.
  intros Hdis. unfold Difflib.matches. rewrite fold_sizes. cbn [Nat.add].
  pose proof matching_blocks_common as H.
  induction H as [|x l Hx Hl IH]; [reflexivity|].
  rewrite sum_sizes_cons, IH.
  destruct Hx as (Hm & Hxa & Hxb).
  destruct (Difflib.m_size x) as [|k] eqn:Ek; [reflexivity|].
  exfalso. specialize (Hm 0). rewrite Ek in Hm. specialize (Hm (Nat.lt_0_succ _)).
  rewrite !Nat.add_0_r in Hm. unfold Difflib.at_a, Difflib.at_b in Hm.
  apply (Hdis (nth (Difflib.m_a x) a zero)).
  - apply nth_In. lia.
  - rewrite Hm. apply nth_In. lia.
Qed.
End MatcherSound.

(** ** Similarity: what the blocks imply *)

Lemma ratio_disjoint (a b : list ascii) :
  (forall c, In c a -> ~ In c b) -> a <> [] -> (Difflib.ratio a b == 0)%Q.
Proof.
  intros Hdis Ha. unfold Difflib.ratio. rewrite (matches_disjoint a b Hdis).
  destruct (Nat.eqb_spec (List.length a + List.length b) 0) as [E|E].
  - destruct a; [congruence | cbn in E; lia].
  - reflexivity.
Qed.

Lemma sim_disjoint (x y : string) :
  no_common_char x y -> (sim (Some x) (Some y) == 0)%Q.
Proof.
  unfold no_common_char, sim_chars. intros Hdis. unfold sim. rewrite !or_default_some.
  destruct (PyStr.lower (PyStr.strip x)) as [|c s] eqn:Ex; [reflexivity|].
  cbn [PyStr.truthy andb].
  destruct (PyStr.truthy (PyStr.lower (PyStr.strip y))); [|reflexivity].
  apply ratio_disjoint; [exact Hdis | discriminate].
Qed.

(** X22: two names that share no character, once trimmed and put in lower
    case, have similarity 0, in both orders. *)
Theorem sim_zero_without_common_character :
  forall x y : string,
    (forall c, In c (list_ascii_of_string (PyStr.lower (PyStr.strip x))) ->
               ~ In c (list_ascii_of_string (PyStr.lower (PyStr.strip y)))) ->
    (sim (Some x) (Some y) == 0)%Q /\ (sim (Some y) (Some x) == 0)%Q.
Proof.
  intros x y Hdis. split; apply sim_disjoint; [exact Hdis|].
  intros c Hy Hx. exact (Hdis c Hx Hy).
Qed.

Lemma sim_zero_without_common_character_witness :
  (sim (Some "Bob") (Some " AMY ") == 0)%Q /\ (sim (Some " AMY ") (Some "Bob") == 0)%Q.
Proof.
  apply sim_zero_without_common_character.
  intros c H1 H2. cbn in H1, H2.
  repeat (destruct H1 as [H1 | H1];
          [subst c; repeat (destruct H2 as [H2 | H2]; [discriminate H2|]); exact H2|]).
  exact H1.
Defined.

(** X23: a name that shares no character with any name of the roster has
    no name match: the search returns no profile and confidence 0. *)
Theorem no_common_character_no_name_match :
  forall (textract_name : string) (profiles : profiles_t),
    (forall e, In e profiles ->
               no_common_char textract_name (get_str "Name" (snd e) "")) ->
    find_best_match textract_name profiles = (None, 0%Q).
Proof.
  intros textract_name profiles Hdis.
  destruct (find_best_match_result textract_name profiles) as [[_ E] | [_ Inv]];
    [exact E|].
  unfold best_so_far in Inv.
  destruct (find_best_match textract_name profiles) as [[m|] c]; cbn [fst snd] in Inv.
  - exfalso. destruct Inv as (before & after & Hseen & _ & Hc & Hpos & _).
    assert (Hin : In (nm_emp_id m, nm_profile m) profiles).
    { rewrite Hseen. apply in_or_app. right. now left. }
    pose proof (sim_disjoint _ _ (Hdis _ Hin)) as Hz. cbn [snd] in Hz.
    unfold entry_sim in Hc. cbn [snd] in Hc. rewrite Hc, Hz in Hpos.
    exact (Qlt_irrefl _ Hpos).
  - destruct Inv as [-> _]. reflexivity.
Qed.

Lemma no_common_character_no_name_match_witness :
  find_best_match "Bob" [("7", [("PK", "EMP#7"); ("SK", "PROFILE"); ("Name", "Amy")])]
  = (None, 0%Q).
Proof.
  apply no_common_character_no_name_match.
  intros e [<- | []] c H1 H2. cbn in H1, H2.
  repeat (destruct H1 as [H1 | H1];
          [subst c; repeat (destruct H2 as [H2 | H2]; [discriminate H2|]); exact H2|]).
  exact H1.
Defined.






(** ** The items and their rounded confidence *)

Lemma Qmake_1000_le (m n : Z) : (m <= n)%Z -> (m # 1000 <= n # 1000)%Q.
Proof. intros H. unfold Qle; cbn [Qnum Qden]. lia. Qed.





